(** * Workflow analyzer: failure classification and the disable/restore lifecycle

    A shallow embedding of [analyzer.ts], [github-client.ts], [config.ts] and
    [workflow-disabler.ts].

    Conventions of the embedding.
    - Counts ([runs.length], [filter(..).length], loop counters) are [nat].
    - Configured thresholds and identifiers are integers ([Z]); the two
      thresholds are integers in the defaults and after [parseInt].
    - Numbers that are not counts ([failureRate], [successRate]) are the
      rationals ([Q]) that the doubles of the code stand for: a division or
      a multiplication rounds its exact result to the nearest double
      ([double_of]: 53 significant bits, ties to even).  Counts are below
      [2^53], as the lengths of arrays are, and are doubles themselves.
    - [string | null] is [option string]; objects are records.
    - The GitHub API, the clock, the file system outcomes, [path.join],
      [path.basename] and the YAML based issue detector are supplied by an
      environment record: they are the collaborators the code calls into.
    - [console.log] output is not represented. *)

From Stdlib Require Import String Ascii ZArith QArith Qround Lia Bool Arith
  DecimalString List.
Import ListNotations.
Open Scope string_scope.
Open Scope list_scope.

(* ================================================================== *)
(** * Part I. The model                                                 *)
(* ================================================================== *)

(** ** JavaScript helpers *)

(** [String(n)] for a non-negative integer count. *)
Definition string_of_nat (n : nat) : string :=
  NilEmpty.string_of_uint (Nat.to_uint n).

(** [String(z)] for an integer. *)
Definition string_of_Z (z : Z) : string :=
  NilZero.string_of_int (Z.to_int z).

(** [s.split('/')]: never empty, [''.split('/')] is [['']]. *)
Fixpoint split_slash (s : string) : list string :=
  match s with
  | EmptyString => [EmptyString]
  | String c rest =>
      if Ascii.eqb c "/" then EmptyString :: split_slash rest
      else match split_slash rest with
           | [] => [String c EmptyString]
           | seg :: segs => String c seg :: segs
           end
  end.

(** [s.split('/').pop() || '']. *)
Definition file_name_of (path : string) : string :=
  last (split_slash path) "".

(** [arr.includes(s)] on an array of strings. *)
Definition includes_str (arr : list string) (s : string) : bool :=
  existsb (String.eqb s) arr.

(** [s.includes(sub)]: [sub] occurs somewhere in [s]. *)
Fixpoint str_includes (s sub : string) : bool :=
  String.prefix sub s
  || match s with
     | EmptyString => false
     | String _ rest => str_includes rest sub
     end.

(** Truthiness of an optional string: [undefined] and [''] are falsy. *)
Definition truthy (o : option string) : bool :=
  match o with
  | Some EmptyString => false
  | Some _ => true
  | None => false
  end.

(** [ts.replace(/[:.]/g, '-')]. *)
Fixpoint replace_colon_dot (s : string) : string :=
  match s with
  | EmptyString => EmptyString
  | String c rest =>
      String (if Ascii.eqb c ":" || Ascii.eqb c "." then "-"%char else c)
             (replace_colon_dot rest)
  end.

(** [n] zeros. *)
Fixpoint zeros (n : nat) : string :=
  match n with
  | O => ""
  | S n' => String "0" (zeros n')
  end.

(** Left padding of a decimal numeral with zeros, up to [width] digits. *)
Definition pad_zeros (width : nat) (s : string) : string :=
  (zeros (width - String.length s) ++ s)%string.

(** *** Doubles *)

(** The integer nearest to [x]; of two, the even one. *)
Definition round_half_even (x : Q) : Z :=
  let f := Qfloor x in
  match Qcompare (x - inject_Z f) (1 # 2) with
  | Lt => f
  | Gt => (f + 1)%Z
  | Eq => if Z.even f then f else (f + 1)%Z
  end.

(** [2^k], for an exponent of either sign. *)
Definition two_power (k : Z) : Q :=
  match k with
  | Z0 => 1%Q
  | Zpos p => (Zpos (2 ^ p) # 1)%Q
  | Zneg p => (1 # 2 ^ p)%Q
  end.

(** The exponent [k] with [2^k <= x < 2^(k+1)], for [0 < x]. *)
Definition floor_log2 (x : Q) : Z :=
  let k := (Z.log2 (Qnum x) - Z.log2 (Zpos (Qden x)))%Z in
  if Qle_bool (two_power k) x then k else (k - 1)%Z.

(** The double nearest to the real number [x], for [0 <= x] within the
    range of the normal doubles: [x] is rounded to 53 significant bits, to
    the nearest multiple of its unit in the last place, ties to even.  This
    is what an arithmetic operation of the code returns for the exact
    result [x]. *)
Definition double_of (x : Q) : Q :=
  if Qle_bool x 0 then 0%Q
  else
    let ulp := two_power (floor_log2 x - 52) in
    (inject_Z (round_half_even (x / ulp)) * ulp)%Q.

(** *** Decimal output *)

(** The integer [n] with [n / 10^digits] closest to [x]; of two, the larger. *)
Definition fixed_numerator (digits : nat) (x : Q) : Z :=
  Qfloor (x * inject_Z (10 ^ Z.of_nat digits) + (1 # 2)).

(** [x.toFixed(digits)] for [0 <= x]. *)
Definition toFixed (digits : nat) (x : Q) : string :=
  let scale := (10 ^ Z.of_nat digits)%Z in
  let n := fixed_numerator digits x in
  (string_of_Z (n / scale)
   ++ match digits with
      | O => ""
      | S _ => "." ++ pad_zeros digits (string_of_Z (n mod scale))
      end)%string.

(** [parseFloat(x.toFixed(digits))] for [0 <= x]: the double nearest to the
    decimal, which is printed as that decimal and compares with an integer
    as the decimal does; it is kept as the decimal. *)
Definition parseFloat_toFixed (digits : nat) (x : Q) : Q :=
  inject_Z (fixed_numerator digits x) / inject_Z (10 ^ Z.of_nat digits).

(** ** types.ts *)

Record Config := {
  failureThreshold : Z;
  failureRateThreshold : Z;
  timeWindowDays : Z;
  excludeRepositories : list string;
  safelistWorkflows : list string;
  dryRun : bool;
  githubToken : option string;
  organization : string;
  maxConcurrentRequests : Z;
  backupDirectory : string
}.

Record WorkflowRun := {
  run_id : Z;
  run_name : string;
  status : option string;
  conclusion : option string;
  created_at : string;
  updated_at : string;
  run_number : Z;
  html_url : string
}.

Record WorkflowInfo := {
  name : string;
  path : string;
  state : string;
  id : Z
}.

Record WorkflowAnalysis := {
  repository : string;
  workflowName : string;
  workflowPath : string;
  workflowId : Z;
  totalRuns : nat;
  successfulRuns : nat;
  failedRuns : nat;
  failureRate : Q;
  consecutiveFailures : nat;
  lastRuns : list WorkflowRun;
  lastSuccessfulRun : option WorkflowRun;
  shouldDisable : bool;
  disableReason : list string;
  issues : list string
}.

Record RepositoryAnalysis := {
  ra_repository : string;
  ra_totalWorkflows : nat;
  ra_failingWorkflows : nat;
  workflows : list WorkflowAnalysis
}.

Record Summary := {
  sum_totalRuns : nat;
  sum_successfulRuns : nat;
  sum_failedRuns : nat
}.

Record AnalysisReport := {
  ar_timestamp : string;
  ar_organization : string;
  totalRepositories : nat;
  ar_totalWorkflows : nat;
  ar_failingWorkflows : nat;
  successRate : Q;
  repositories : list RepositoryAnalysis;
  summary : Summary
}.

Record DisabledWorkflow := {
  dw_repository : string;
  dw_workflowName : string;
  originalPath : string;
  disabledPath : string;
  backupPath : string;
  disabledAt : string;
  reason : list string;
  analysis : WorkflowAnalysis
}.

Record DisabledWorkflowsManifest := {
  dm_timestamp : string;
  disabledWorkflows : list DisabledWorkflow
}.

Inductive Action := ActAnalyze | ActDisable | ActRestore | ActBackup.

(** A value of the free-form [details] map. *)
Inductive Detail :=
| DString (s : string)
| DStrings (l : list string)
| DNumber (n : nat).

Record AuditLogEntry := {
  ae_timestamp : string;
  action : Action;
  ae_repository : option string;
  ae_workflow : option string;
  details : list (string * Detail);
  success : bool;
  error : option string
}.

(** ** Exceptions *)

(** A thrown JavaScript error: its [status] (set on HTTP errors) and its
    [message]. *)
Record JsError := {
  err_status : option Z;
  err_message : string
}.

Inductive result (A : Type) : Type :=
| Ok (a : A)
| Throw (e : JsError).
Arguments Ok {A} a.
Arguments Throw {A} e.

(** [new Error(msg)]. *)
Definition Error (msg : string) : JsError :=
  {| err_status := None; err_message := msg |}.

(** ** config.ts *)

Definition validateConfig (config : Config) : result unit :=
  if negb (truthy (githubToken config)) then
    Throw (Error "GitHub token is required. Set GITHUB_TOKEN environment variable or add it to config.json")
  else if negb (truthy (Some (organization config))) then
    Throw (Error "Organization name is required")
  else if (failureThreshold config <? 1)%Z then
    Throw (Error "Failure threshold must be at least 1")
  else if (failureRateThreshold config <? 0)%Z
          || (100 <? failureRateThreshold config)%Z then
    Throw (Error "Failure rate threshold must be between 0 and 100")
  else if (timeWindowDays config <? 1)%Z then
    Throw (Error "Time window must be at least 1 day")
  else Ok tt.

(** ** github-client.ts *)

Record RateLimit := {
  remaining : Z;
  limit : Z;
  reset : Z
}.

(** A run as the API delivers it: [name] may be null. *)
Record ApiWorkflowRun := {
  api_id : Z;
  api_name : option string;
  api_status : option string;
  api_conclusion : option string;
  api_created_at : string;
  api_updated_at : string;
  api_run_number : Z;
  api_html_url : string
}.

(** The REST client.  [repos_listForOrg org] lists the answers to the
    successive page requests (pages of 100); past the end of that list the
    API answers with an empty page. *)
Record Octokit := {
  rateLimit_get : result RateLimit;
  repos_listForOrg : string -> list (result (list string));
  actions_listRepoWorkflows : string -> string -> result (list WorkflowInfo);
  actions_listWorkflowRuns :
    string -> string -> Z -> string -> result (list ApiWorkflowRun)
}.

Definition perPage : nat := 100%nat.

Definition org_not_found (org : string) : JsError :=
  Error ("Organization '" ++ org ++ "' not found or you don't have access. "
         ++ "Ensure your GitHub token has 'read:org' permission and you are a member of the organization. "
         ++ "You can check your token permissions at https://github.com/settings/tokens")%string.

(** The [while (true)] loop of [getOrganizationRepositories], one iteration
    per page answer. *)
Fixpoint fetch_pages (org : string) (pages : list (result (list string)))
    (repositories : list string) : result (list string) :=
  match pages with
  | [] => Ok repositories
  | Throw e :: _ =>
      match err_status e with
      | Some 404%Z => Throw (org_not_found org)
      | _ => Throw e
      end
  | Ok data :: rest =>
      if Nat.eqb (length data) 0%nat then Ok repositories
      else
        let repositories' := repositories ++ data in
        if Nat.ltb (length data) perPage then Ok repositories'
        else fetch_pages org rest repositories'
  end.

Definition getOrganizationRepositories (octokit : Octokit) (config : Config)
    : result (list string) :=
  match fetch_pages (organization config)
                    (repos_listForOrg octokit (organization config)) [] with
  | Ok repositories =>
      Ok (filter (fun repo => negb (includes_str (excludeRepositories config) repo))
                 repositories)
  | Throw e => Throw e
  end.

Definition getWorkflows (octokit : Octokit) (config : Config) (repo : string)
    : list WorkflowInfo :=
  match actions_listRepoWorkflows octokit (organization config) repo with
  | Ok ws => ws
  | Throw _ => []
  end.

Definition run_of_api (run : ApiWorkflowRun) : WorkflowRun :=
  {| run_id := api_id run;
     run_name := match api_name run with
                 | Some n => if truthy (Some n) then n else ""
                 | None => ""
                 end;
     status := api_status run;
     conclusion := api_conclusion run;
     created_at := api_created_at run;
     updated_at := api_updated_at run;
     run_number := api_run_number run;
     html_url := api_html_url run |}.

Definition getWorkflowRuns (octokit : Octokit) (config : Config) (repo : string)
    (workflowId : Z) (created : string) : list WorkflowRun :=
  match actions_listWorkflowRuns octokit (organization config) repo workflowId
                                 created with
  | Ok runs => map run_of_api runs
  | Throw _ => []
  end.

Definition checkRateLimit (octokit : Octokit) : result unit :=
  match rateLimit_get octokit with
  | Ok _ => Ok tt
  | Throw e => Throw e
  end.

(** ** analyzer.ts *)

(** What the analyzer reads from outside: the REST client, the clock and the
    issue detector.  [since_iso n days] is the ISO form of the [n]-th clock
    reading moved back by [days] days, [now_iso n] the ISO form of the
    [n]-th reading itself.  [checkWorkflowIssues] fetches and parses the
    workflow definition; it catches every exception and so always returns a
    list. *)
Record AnalyzerEnv := {
  octokit : Octokit;
  since_iso : nat -> Z -> string;
  now_iso : nat -> string;
  checkWorkflowIssues : string -> string -> list string
}.

Definition conclusion_is (c : string) (r : WorkflowRun) : bool :=
  match conclusion r with
  | Some c' => String.eqb c' c
  | None => false
  end.

(** [r.conclusion === 'success'] *)
Definition is_success : WorkflowRun -> bool := conclusion_is "success".

(** [r.conclusion === 'failure' || r.conclusion === 'timed_out'] *)
Definition is_failed (r : WorkflowRun) : bool :=
  conclusion_is "failure" r || conclusion_is "timed_out" r.

(** The loop of lines 114-121, with its counter. *)
Fixpoint count_consecutive (runs : list WorkflowRun) (count : nat) : nat :=
  match runs with
  | [] => count
  | run :: rest =>
      if is_failed run then count_consecutive rest (S count)
      else if is_success run then count
      else count_consecutive rest count
  end.

(** [(part / total) * 100]: the quotient is rounded to a double, and so is
    the product. *)
Definition percentage (part total : nat) : Q :=
  double_of (double_of (inject_Z (Z.of_nat part) / inject_Z (Z.of_nat total))
             * 100).

Definition consecutive_reason (consecutive : nat) (threshold : Z) : string :=
  (string_of_nat consecutive ++ " consecutive failures (threshold: "
   ++ string_of_Z threshold ++ ")")%string.

Definition rate_reason (rate : Q) (threshold : Z) : string :=
  (toFixed 1 rate ++ "% failure rate (threshold: " ++ string_of_Z threshold
   ++ "%)")%string.

Definition no_success_reason : string := "No successful runs".

(** One guarded [push] of the decision: [(shouldDisable, disableReasons)]. *)
Definition flag_if (cond : bool) (why : string) (d : bool * list string)
    : bool * list string :=
  if cond then (true, snd d ++ [why]) else d.

(** Lines 127-160: the disable decision and its reasons. *)
Definition decide (config : Config) (workflowPath : string)
    (totalRuns successfulRuns consecutiveFailures : nat) (failureRate : Q)
    : bool * list string :=
  let workflowFileName := file_name_of workflowPath in
  if includes_str (safelistWorkflows config) workflowFileName then (false, [])
  else
    flag_if ((0 <? totalRuns)%nat && (successfulRuns =? 0)%nat) no_success_reason
      (flag_if (Qle_bool (inject_Z (failureRateThreshold config)) failureRate
                && (5 <=? totalRuns)%nat)
               (rate_reason failureRate (failureRateThreshold config))
         (flag_if ((failureThreshold config <=? Z.of_nat consecutiveFailures)%Z
                   && (failureThreshold config <=? Z.of_nat totalRuns)%Z)
                  (consecutive_reason consecutiveFailures (failureThreshold config))
            (false, []))).

(** Lines 102-183 of [analyzeWorkflow]: everything after the run history has
    been fetched. *)
Definition analyzeRuns (config : Config) (repo : string) (workflow : WorkflowInfo)
    (runs : list WorkflowRun) (found_issues : list string) : WorkflowAnalysis :=
  let total := length runs in
  let successful := length (filter is_success runs) in
  let failed := length (filter is_failed runs) in
  let rate := if (0 <? total)%nat then percentage failed total else 0%Q in
  let consecutive := count_consecutive runs 0%nat in
  let decision := decide config (path workflow) total successful consecutive rate in
  {| repository := repo;
     workflowName := name workflow;
     workflowPath := path workflow;
     workflowId := id workflow;
     totalRuns := total;
     successfulRuns := successful;
     failedRuns := failed;
     failureRate := rate;
     consecutiveFailures := consecutive;
     lastRuns := firstn 10%nat runs;
     lastSuccessfulRun := find is_success runs;
     shouldDisable := fst decision;
     disableReason := snd decision;
     issues := found_issues |}.

(** [analyzeWorkflow] at the [t]-th clock reading. *)
Definition analyzeWorkflow (E : AnalyzerEnv) (config : Config) (repo : string)
    (workflow : WorkflowInfo) (t : nat) : WorkflowAnalysis :=
  let created := (">=" ++ since_iso E t (timeWindowDays config))%string in
  let runs := getWorkflowRuns (octokit E) config repo (id workflow) created in
  analyzeRuns config repo workflow runs
              (checkWorkflowIssues E repo (path workflow)).

(** The [for] loop of [analyzeRepository]; each workflow reads the clock
    once. *)
Fixpoint analyzeWorkflows (E : AnalyzerEnv) (config : Config) (repo : string)
    (ws : list WorkflowInfo) (t : nat) : list WorkflowAnalysis * nat :=
  match ws with
  | [] => ([], t)
  | workflow :: rest =>
      let a := analyzeWorkflow E config repo workflow t in
      let (others, t') := analyzeWorkflows E config repo rest (S t) in
      (a :: others, t')
  end.

Definition analyzeRepository (E : AnalyzerEnv) (config : Config) (repo : string)
    (t : nat) : RepositoryAnalysis * nat :=
  let ws := getWorkflows (octokit E) config repo in
  let (workflowAnalyses, t') := analyzeWorkflows E config repo ws t in
  ({| ra_repository := repo;
      ra_totalWorkflows := length ws;
      ra_failingWorkflows := length (filter shouldDisable workflowAnalyses);
      workflows := workflowAnalyses |}, t').

(** The running totals of [analyze]. *)
Record Totals := {
  repositoryAnalyses : list RepositoryAnalysis;
  acc_totalWorkflows : nat;
  acc_failingWorkflows : nat;
  acc_totalRuns : nat;
  acc_successfulRuns : nat;
  acc_failedRuns : nat
}.

Definition no_totals : Totals :=
  {| repositoryAnalyses := []; acc_totalWorkflows := 0%nat;
     acc_failingWorkflows := 0%nat; acc_totalRuns := 0%nat;
     acc_successfulRuns := 0%nat; acc_failedRuns := 0%nat |}.

(** Lines 37-47: a repository with at least one workflow is recorded. *)
Definition record_repository (acc : Totals) (repoAnalysis : RepositoryAnalysis)
    : Totals :=
  if (0 <? length (workflows repoAnalysis))%nat then
    {| repositoryAnalyses := repositoryAnalyses acc ++ [repoAnalysis];
       acc_totalWorkflows :=
         (acc_totalWorkflows acc + ra_totalWorkflows repoAnalysis)%nat;
       acc_failingWorkflows :=
         (acc_failingWorkflows acc + ra_failingWorkflows repoAnalysis)%nat;
       acc_totalRuns :=
         fold_left (fun n w => (n + totalRuns w)%nat) (workflows repoAnalysis)
                   (acc_totalRuns acc);
       acc_successfulRuns :=
         fold_left (fun n w => (n + successfulRuns w)%nat) (workflows repoAnalysis)
                   (acc_successfulRuns acc);
       acc_failedRuns :=
         fold_left (fun n w => (n + failedRuns w)%nat) (workflows repoAnalysis)
                   (acc_failedRuns acc) |}
  else acc.

(** The [for] loop of [analyze] over the repositories. *)
Fixpoint analyzeRepositories (E : AnalyzerEnv) (config : Config)
    (repos : list string) (acc : Totals) (t : nat) : Totals * nat :=
  match repos with
  | [] => (acc, t)
  | repo :: rest =>
      let (repoAnalysis, t') := analyzeRepository E config repo t in
      analyzeRepositories E config rest (record_repository acc repoAnalysis) t'
  end.

Definition analyze (E : AnalyzerEnv) (config : Config) (t : nat)
    : result AnalysisReport :=
  match checkRateLimit (octokit E) with
  | Throw e => Throw e
  | Ok _ =>
      match getOrganizationRepositories (octokit E) config with
      | Throw e => Throw e
      | Ok repos =>
          let (acc, t') := analyzeRepositories E config repos no_totals t in
          let rate :=
            if (0 <? acc_totalRuns acc)%nat
            then parseFloat_toFixed 2
                   (percentage (acc_successfulRuns acc) (acc_totalRuns acc))
            else 0%Q in
          Ok {| ar_timestamp := now_iso E t';
                ar_organization := organization config;
                totalRepositories := length (repositoryAnalyses acc);
                ar_totalWorkflows := acc_totalWorkflows acc;
                ar_failingWorkflows := acc_failingWorkflows acc;
                successRate := rate;
                repositories := repositoryAnalyses acc;
                summary := {| sum_totalRuns := acc_totalRuns acc;
                              sum_successfulRuns := acc_successfulRuns acc;
                              sum_failedRuns := acc_failedRuns acc |} |}
      end
  end.

(** ** workflow-disabler.ts *)

(** What the lifecycle manager touches.  [clock] and [fs_calls] count the
    clock readings and the fallible file-system calls made so far; the
    documents are kept by kind: manifests and backup documents as bindings
    of a path to a document, newest first, so that a write to a path hides
    what was written there before ([manifest_at], [backup_at]); the audit
    log document at the logger's [logPath].  [log_entries] is the logger's
    in-memory [log.entries]. *)
Record World := {
  clock : nat;
  fs_calls : nat;
  directories : list string;
  manifest_files : list (string * DisabledWorkflowsManifest);
  backup_files : list (string * WorkflowAnalysis);
  log_entries : list AuditLogEntry;
  audit_file : option (list AuditLogEntry)
}.

(** The collaborators of the lifecycle manager: the ISO form of the [n]-th
    clock reading, the outcome of the [n]-th fallible file-system call
    ([None]: it succeeds), and the two [path] functions. *)
Record DisablerEnv := {
  time_iso : nat -> string;
  fs_outcome : nat -> option JsError;
  path_join : string -> string -> string;
  path_basename : string -> string
}.

(** Computations that read and change the world and may throw.  The world
    reached before a throw is kept. *)
Definition M (A : Type) : Type := World -> result A * World.

Definition ret {A} (a : A) : M A := fun w => (Ok a, w).

Definition throw {A} (e : JsError) : M A := fun w => (Throw e, w).

Definition bind {A B} (m : M A) (k : A -> M B) : M B :=
  fun w =>
    match m w with
    | (Ok a, w') => k a w'
    | (Throw e, w') => (Throw e, w')
    end.

Definition try_catch {A} (m : M A) (handler : JsError -> M A) : M A :=
  fun w =>
    match m w with
    | (Ok a, w') => (Ok a, w')
    | (Throw e, w') => handler e w'
    end.

Notation "x <- m ;; k" := (bind m (fun x => k))
  (at level 61, m at next level, right associativity).
Notation "m ;;; k" := (bind m (fun _ => k))
  (at level 61, right associativity).

(** [new Date().toISOString()] *)
Definition now (E : DisablerEnv) : M string :=
  fun w =>
    (Ok (time_iso E (clock w)),
     {| clock := S (clock w); fs_calls := fs_calls w;
        directories := directories w; manifest_files := manifest_files w;
        backup_files := backup_files w; log_entries := log_entries w;
        audit_file := audit_file w |}).

(** A file-system call that may throw: it consumes one outcome. *)
Definition fs_call (E : DisablerEnv) : M unit :=
  fun w =>
    let w' := {| clock := clock w; fs_calls := S (fs_calls w);
                 directories := directories w;
                 manifest_files := manifest_files w;
                 backup_files := backup_files w; log_entries := log_entries w;
                 audit_file := audit_file w |} in
    match fs_outcome E (fs_calls w) with
    | None => (Ok tt, w')
    | Some e => (Throw e, w')
    end.

(** [fs.ensureDir(dir)]: the directory is created when it is missing. *)
Definition ensureDir (E : DisablerEnv) (dir : string) : M unit :=
  fs_call E ;;;
  fun w =>
    (Ok tt,
     {| clock := clock w; fs_calls := fs_calls w;
        directories := if includes_str (directories w) dir then directories w
                       else dir :: directories w;
        manifest_files := manifest_files w; backup_files := backup_files w;
        log_entries := log_entries w; audit_file := audit_file w |}).

(** [fs.writeJson(backupPath, workflow)]: the document becomes the one at
    [file]; a document written there before is replaced. *)
Definition write_backup (E : DisablerEnv) (file : string) (a : WorkflowAnalysis)
    : M unit :=
  fs_call E ;;;
  fun w =>
    (Ok tt,
     {| clock := clock w; fs_calls := fs_calls w; directories := directories w;
        manifest_files := manifest_files w;
        backup_files := (file, a) :: backup_files w;
        log_entries := log_entries w; audit_file := audit_file w |}).

(** [fs.writeJson(manifestPath, manifest)] *)
Definition write_manifest (E : DisablerEnv) (file : string)
    (m : DisabledWorkflowsManifest) : M unit :=
  fs_call E ;;;
  fun w =>
    (Ok tt,
     {| clock := clock w; fs_calls := fs_calls w; directories := directories w;
        manifest_files := (file, m) :: manifest_files w;
        backup_files := backup_files w;
        log_entries := log_entries w; audit_file := audit_file w |}).


(** The manifest document stored at [file], if any. *)
Definition manifest_at (file : string) (w : World)
    : option DisabledWorkflowsManifest :=
  match find (fun b => String.eqb (fst b) file) (manifest_files w) with
  | Some b => Some (snd b)
  | None => None
  end.

(** [fs.pathExists(manifestPath)] *)
Definition manifest_exists (file : string) : M bool :=
  fun w =>
    (Ok (match manifest_at file w with Some _ => true | None => false end), w).

(** [fs.readJson(manifestPath)] *)
Definition read_manifest (E : DisablerEnv) (file : string)
    : M DisabledWorkflowsManifest :=
  fs_call E ;;;
  fun w =>
    match manifest_at file w with
    | Some m => (Ok m, w)
    | None => (Throw (Error ("ENOENT: no such file or directory, open '"
                             ++ file ++ "'")%string), w)
    end.

(** *** AuditLogger *)

(** [this.log.entries.push(fullEntry)] *)
Definition push_entry (entry : AuditLogEntry) : M unit :=
  fun w =>
    (Ok tt,
     {| clock := clock w; fs_calls := fs_calls w; directories := directories w;
        manifest_files := manifest_files w; backup_files := backup_files w;
        log_entries := log_entries w ++ [entry]; audit_file := audit_file w |}).

(** [AuditLogger.save]: the whole in-memory log is written out. *)
Definition save (E : DisablerEnv) : M unit :=
  fs_call E ;;;
  fun w =>
    (Ok tt,
     {| clock := clock w; fs_calls := fs_calls w; directories := directories w;
        manifest_files := manifest_files w; backup_files := backup_files w;
        log_entries := log_entries w; audit_file := Some (log_entries w) |}).

(** [AuditLogger.addEntry]; [entry] awaits its time stamp. *)
Definition addEntry (E : DisablerEnv) (entry : string -> AuditLogEntry) : M unit :=
  timestamp <- now E ;;
  push_entry (entry timestamp) ;;;
  save E.

(** *** WorkflowDisabler *)

Definition manifest_path : string := "disabled-workflows-manifest.json".

Definition backup_entry (repo : string) (workflow : WorkflowAnalysis)
    (backupPath : string) (timestamp : string) : AuditLogEntry :=
  {| ae_timestamp := timestamp;
     action := ActBackup;
     ae_repository := Some repo;
     ae_workflow := Some (workflowName workflow);
     details := [("backupPath", DString backupPath)];
     success := true;
     error := None |}.

Definition disable_entry (repo : string) (workflow : WorkflowAnalysis)
    (disabled : DisabledWorkflow) (timestamp : string) : AuditLogEntry :=
  {| ae_timestamp := timestamp;
     action := ActDisable;
     ae_repository := Some repo;
     ae_workflow := Some (workflowName workflow);
     details := [("originalPath", DString (originalPath disabled));
                 ("disabledPath", DString (disabledPath disabled));
                 ("reason", DStrings (reason disabled))];
     success := true;
     error := None |}.

Definition failure_entry (act : Action) (repo workflow : string) (e : JsError)
    (timestamp : string) : AuditLogEntry :=
  {| ae_timestamp := timestamp;
     action := act;
     ae_repository := Some repo;
     ae_workflow := Some workflow;
     details := [("error", DString (err_message e))];
     success := false;
     error := Some (err_message e) |}.

Definition restore_entry (workflow : DisabledWorkflow) (timestamp : string)
    : AuditLogEntry :=
  {| ae_timestamp := timestamp;
     action := ActRestore;
     ae_repository := Some (dw_repository workflow);
     ae_workflow := Some (dw_workflowName workflow);
     details := [("originalPath", DString (originalPath workflow));
                 ("disabledPath", DString (disabledPath workflow))];
     success := true;
     error := None |}.

(** The record built by [disableWorkflow] from its two clock readings. *)
Definition disabled_record (E : DisablerEnv) (config : Config) (repo : string)
    (workflow : WorkflowAnalysis) (stamp disabled_at : string)
    : DisabledWorkflow :=
  let original := workflowPath workflow in
  let timestamp := replace_colon_dot stamp in
  {| dw_repository := repo;
     dw_workflowName := workflowName workflow;
     originalPath := original;
     disabledPath := (original ++ ".disabled")%string;
     backupPath :=
       path_join E (backupDirectory config)
                 (repo ++ "_" ++ path_basename E original ++ "_" ++ timestamp)%string;
     disabledAt := disabled_at;
     reason := disableReason workflow;
     analysis := workflow |}.

Definition disableWorkflow (E : DisablerEnv) (config : Config) (repo : string)
    (workflow : WorkflowAnalysis) (dryRun : bool) : M DisabledWorkflow :=
  stamp <- now E ;;
  disabled_at <- now E ;;
  let disabledWorkflow := disabled_record E config repo workflow stamp disabled_at in
  if negb dryRun then
    write_backup E (backupPath disabledWorkflow) workflow ;;;
    addEntry E (backup_entry repo workflow (backupPath disabledWorkflow)) ;;;
    ret disabledWorkflow
  else ret disabledWorkflow.

(** The [catch] block of the disable loop; the records pushed so far stay. *)
Definition disable_failed (E : DisablerEnv) (repo : string)
    (workflow : WorkflowAnalysis) (e : JsError)
    (disabledWorkflows : list DisabledWorkflow) : M (list DisabledWorkflow) :=
  addEntry E (failure_entry ActDisable repo (workflowName workflow) e) ;;;
  ret disabledWorkflows.

(** One turn of the inner loop of [disableWorkflows], lines 80-116.  The
    [push] of line 86 is kept when the audit entry of line 89 throws. *)
Definition disable_one (E : DisablerEnv) (config : Config) (repo : string)
    (dryRun : bool) (workflow : WorkflowAnalysis)
    (disabledWorkflows : list DisabledWorkflow) : M (list DisabledWorkflow) :=
  fun w =>
    match disableWorkflow E config repo workflow dryRun w with
    | (Throw e, w1) => disable_failed E repo workflow e disabledWorkflows w1
    | (Ok disabled, w1) =>
        let pushed := disabledWorkflows ++ [disabled] in
        if dryRun then (Ok pushed, w1)
        else
          match addEntry E (disable_entry repo workflow disabled) w1 with
          | (Ok _, w2) => (Ok pushed, w2)
          | (Throw e, w2) => disable_failed E repo workflow e pushed w2
          end
    end.

(** The inner loop over the failing workflows of one repository. *)
Fixpoint disable_each (E : DisablerEnv) (config : Config) (repo : string)
    (dryRun : bool) (failing : list WorkflowAnalysis)
    (disabledWorkflows : list DisabledWorkflow) : M (list DisabledWorkflow) :=
  match failing with
  | [] => ret disabledWorkflows
  | workflow :: rest =>
      pushed <- disable_one E config repo dryRun workflow disabledWorkflows ;;
      disable_each E config repo dryRun rest pushed
  end.

(** The outer loop over the repositories of the report. *)
Fixpoint disable_repositories (E : DisablerEnv) (config : Config) (dryRun : bool)
    (repos : list RepositoryAnalysis)
    (disabledWorkflows : list DisabledWorkflow) : M (list DisabledWorkflow) :=
  match repos with
  | [] => ret disabledWorkflows
  | repo :: rest =>
      let failingWorkflows := filter shouldDisable (workflows repo) in
      if Nat.eqb (length failingWorkflows) 0 then
        disable_repositories E config dryRun rest disabledWorkflows
      else
        pushed <- disable_each E config (ra_repository repo) dryRun
                               failingWorkflows disabledWorkflows ;;
        disable_repositories E config dryRun rest pushed
  end.

Definition disableWorkflows (E : DisablerEnv) (config : Config)
    (report : AnalysisReport) (dryRun : bool) : M DisabledWorkflowsManifest :=
  ensureDir E (backupDirectory config) ;;;
  disabled <- disable_repositories E config dryRun (repositories report) [] ;;
  timestamp <- now E ;;
  let manifest := {| dm_timestamp := timestamp; disabledWorkflows := disabled |} in
  (if negb dryRun then write_manifest E manifest_path manifest else ret tt) ;;;
  ret manifest.

(** The [options] of [restoreWorkflows]; an absent key is [None]. *)
Record RestoreOptions := {
  repo : option string;
  workflow : option string;
  all : option bool;
  opt_dryRun : option bool
}.

(** Objects with their identities: the objects [readJson] creates for the
    entries of an array are pairwise distinct, whatever they hold.  An
    object is its identity, a number, paired with its content. *)
Definition objects_of {A} (l : list A) : list (nat * A) :=
  combine (seq 0 (length l)) l.

(** [arr.includes(o)] on objects: identity, not content. *)
Definition includes_obj {A} (arr : list (nat * A)) (o : nat * A) : bool :=
  existsb (fun o' => Nat.eqb (fst o') (fst o)) arr.

Definition or_empty (o : option string) : string :=
  match o with Some s => s | None => "" end.

(** Lines 209-223: the records selected by the filters that are given. *)
Definition select_workflows (options : RestoreOptions)
    (candidates : list (nat * DisabledWorkflow)) : list (nat * DisabledWorkflow) :=
  let by_repo :=
    if truthy (repo options)
    then filter (fun w => String.eqb (dw_repository (snd w))
                                     (or_empty (repo options))) candidates
    else candidates in
  if truthy (workflow options)
  then filter (fun w => str_includes (originalPath (snd w))
                                     (or_empty (workflow options))) by_repo
  else by_repo.

(** [restoreWorkflow]: nothing is done in either mode. *)
Definition restoreWorkflow (w : DisabledWorkflow) (dryRun : bool) : M unit :=
  ret tt.

(** One turn of the restore loop, lines 233-266. *)
Definition restore_one (E : DisablerEnv) (dryRun : bool) (w : DisabledWorkflow)
    : M unit :=
  try_catch
    (restoreWorkflow w dryRun ;;;
     if negb dryRun then addEntry E (restore_entry w) else ret tt)
    (fun e =>
       addEntry E (failure_entry ActRestore (dw_repository w)
                                 (dw_workflowName w) e)).

Fixpoint restore_each (E : DisablerEnv) (dryRun : bool)
    (ws : list (nat * DisabledWorkflow)) : M unit :=
  match ws with
  | [] => ret tt
  | w :: rest => restore_one E dryRun (snd w) ;;; restore_each E dryRun rest
  end.

Definition restoreWorkflows (E : DisablerEnv) (manifestPath : string)
    (options : RestoreOptions) : M unit :=
  let dryRun := match opt_dryRun options with Some b => b | None => true end in
  found <- manifest_exists manifestPath ;;
  if negb found then
    throw (Error ("Manifest file not found: " ++ manifestPath)%string)
  else
    manifest <- read_manifest E manifestPath ;;
    let entries := objects_of (disabledWorkflows manifest) in
    let workflowsToRestore := select_workflows options entries in
    if Nat.eqb (length workflowsToRestore) 0 then ret tt
    else
      restore_each E dryRun workflowsToRestore ;;;
      if negb dryRun && Nat.ltb 0 (length workflowsToRestore) then
        let remainingWorkflows :=
          filter (fun w => negb (includes_obj workflowsToRestore w)) entries in
        write_manifest E manifestPath
          {| dm_timestamp := dm_timestamp manifest;
             disabledWorkflows := map snd remainingWorkflows |}
      else ret tt.

(** ** AuditLogger: constructor and [load] *)

(** [new AuditLogger()]: the log in memory starts empty. *)
Definition new_AuditLogger : M unit :=
  fun w =>
    (Ok tt,
     {| clock := clock w; fs_calls := fs_calls w; directories := directories w;
        manifest_files := manifest_files w; backup_files := backup_files w;
        log_entries := []; audit_file := audit_file w |}).

(** [AuditLogger.load]: when the log document exists it is read and replaces
    the log in memory. *)
Definition load (E : DisablerEnv) : M unit :=
  fun w =>
    match audit_file w with
    | Some entries =>
        (fs_call E ;;;
         fun w1 =>
           (Ok tt,
            {| clock := clock w1; fs_calls := fs_calls w1;
               directories := directories w1;
               manifest_files := manifest_files w1;
               backup_files := backup_files w1;
               log_entries := entries; audit_file := audit_file w1 |})) w
    | None => (Ok tt, w)
    end.

(** [AuditLogger.getEntries] *)
Definition getEntries : M (list AuditLogEntry) :=
  fun w => (Ok (log_entries w), w).

(** ** cli.ts: the [disable] and [restore] commands *)

(** What a command reads besides the world of the lifecycle manager:
    [loadConfig], which reads the configuration file and the environment
    variables, and the analysis report document, if there is one. *)
Record Invocation := {
  loadConfig : string -> result Config;
  report_file : option AnalysisReport
}.

(** The options of [disable] as the argument parser delivers them:
    [--dry-run] defaults to true, [--confirm] is true when given. *)
Record DisableCommandOptions := {
  d_config : string;
  d_dryRun : bool;
  d_confirm : bool
}.

Record RestoreCommandOptions := {
  r_config : string;
  r_repo : option string;
  r_workflow : option string;
  r_all : option bool;
  r_dryRun : bool;
  r_confirm : bool
}.

(** [process.exit(1)]; an exception that reaches the [catch] of a command
    ends in the same way. *)
Definition process_exit : JsError := Error "process.exit(1)".

(** The exit code of a command. *)
Definition exit_code {A} (r : result A) : nat :=
  match r with
  | Ok _ => 0%nat
  | Throw _ => 1%nat
  end.

(** Lines 88-92, 141-145: the configuration is loaded and validated, then a
    new logger loads the audit log. *)
Definition command_setup (E : DisablerEnv) (I : Invocation) (file : string)
    : M Config :=
  match loadConfig I file with
  | Throw e => throw e
  | Ok config =>
      match validateConfig config with
      | Throw e => throw e
      | Ok _ => new_AuditLogger ;;; load E ;;; ret config
      end
  end.

(** The action of the [disable] command, lines 86-128. *)
Definition disable_command (E : DisablerEnv) (I : Invocation)
    (options : DisableCommandOptions) : M unit :=
  config <- command_setup E I (d_config options) ;;
  match report_file I with
  | None => throw process_exit
  | Some report =>
      fs_call E ;;;
      if Nat.eqb (ar_failingWorkflows report) 0 then ret tt
      else
        let dryRun := negb (d_confirm options) in
        manifest <- disableWorkflows E config report dryRun ;;
        ret tt
  end.

(** The action of the [restore] command, lines 139-170. *)
Definition restore_command (E : DisablerEnv) (I : Invocation)
    (options : RestoreCommandOptions) : M unit :=
  config <- command_setup E I (r_config options) ;;
  let dryRun := negb (r_confirm options) in
  restoreWorkflows E manifest_path
    {| repo := r_repo options; workflow := r_workflow options;
       all := r_all options; opt_dryRun := Some dryRun |}.

(** ** analyzer.ts: the issue detector *)

(** What [yaml.load] returns.  Numbers are integers here; [YUndefined] is
    the result for an empty document and the value of a missing property. *)
#[warnings="-register-all"]
Inductive Yaml :=
| YUndefined
| YNull
| YBool (b : bool)
| YNumber (z : Z)
| YString (s : string)
| YArray (items : list Yaml)
| YObject (fields : list (string * Yaml)).

(** What the detector reads from outside: the [content] field of the
    contents API (base64), the decoding of it, and the YAML parser. *)
Record IssueEnv := {
  repos_getContent : string -> string -> string -> result (option string);
  base64_decode : string -> string;
  yaml_load : string -> result Yaml
}.

Definition TypeError (msg : string) : JsError := Error msg.

(** Truthiness of a value. *)
Definition yaml_truthy (v : Yaml) : bool :=
  match v with
  | YUndefined | YNull => false
  | YBool b => b
  | YNumber z => negb (z =? 0)%Z
  | YString s => negb (String.eqb s "")
  | YArray _ | YObject _ => true
  end.

Fixpoint lookup_field (fields : list (string * Yaml)) (key : string) : Yaml :=
  match fields with
  | [] => YUndefined
  | (k, v) :: rest => if String.eqb k key then v else lookup_field rest key
  end.

(** [v.key] for one of the keys the detector reads ([on], [schedule],
    [cron], [push], [branches]): none of them is a property of a string, a
    number, a boolean or an array. *)
Definition get (v : Yaml) (key : string) : result Yaml :=
  match v with
  | YUndefined | YNull =>
      Throw (TypeError ("Cannot read properties of undefined (reading '"
                        ++ key ++ "')")%string)
  | YObject fields => Ok (lookup_field fields key)
  | _ => Ok YUndefined
  end.

(** [v?.key] *)
Definition get_opt (v : Yaml) (key : string) : result Yaml :=
  match v with
  | YUndefined | YNull => Ok YUndefined
  | _ => get v key
  end.

(** [s.split(sep)] for a separator of one character. *)
Fixpoint split_on (sep : ascii) (s : string) : list string :=
  match s with
  | EmptyString => [EmptyString]
  | String c rest =>
      if Ascii.eqb c sep then EmptyString :: split_on sep rest
      else match split_on sep rest with
           | [] => [String c EmptyString]
           | seg :: segs => String c seg :: segs
           end
  end.

(** [v.split(' ')]: only a string has [split]. *)
Definition call_split (v : Yaml) : result (list string) :=
  match v with
  | YString s => Ok (split_on " " s)
  | YUndefined | YNull =>
      Throw (TypeError "Cannot read properties of undefined (reading 'split')")
  | _ => Throw (TypeError "schedule.cron.split is not a function")
  end.

Definition yaml_is (s : string) (v : Yaml) : bool :=
  match v with
  | YString s' => String.eqb s' s
  | _ => false
  end.

(** [v?.includes('main')]: membership for an array, occurrence for a
    string; no other value has [includes]. *)
Definition call_includes_opt (v : Yaml) (x : string) : result bool :=
  match v with
  | YUndefined | YNull => Ok false
  | YArray items => Ok (existsb (yaml_is x) items)
  | YString s => Ok (str_includes s x)
  | _ => Throw (TypeError "branches.includes is not a function")
  end.

(** [getWorkflowContent] *)
Definition getWorkflowContent (I : IssueEnv) (config : Config)
    (repo path : string) : option string :=
  match repos_getContent I (organization config) repo path with
  | Ok (Some content) =>
      if String.eqb content "" then None else Some (base64_decode I content)
  | Ok None => None
  | Throw _ => None
  end.

Definition newline : ascii := "010"%char.

(** The double quote, as a string. *)
Definition quote : string := String "034"%char EmptyString.

Definition duplicate_install_issue : string :=
  ("Duplicate install commands: both " ++ quote ++ "npm ci" ++ quote ++ " and "
   ++ quote ++ "npm install" ++ quote ++ " found")%string.

Definition cron_issue (cron : string) : string :=
  ("High-frequency cron schedule: " ++ quote ++ cron ++ quote
   ++ " may run too frequently")%string.

Definition deployment_issue : string :=
  "Multiple deployment workflows detected - may cause conflicts".

(** Lines 200-216: both install commands occur in the definition of the
    [ci.yml] workflow of repository [index]. *)
Definition duplicate_install_check (repo workflowPath content : string)
    : list string :=
  if String.eqb repo "index" && str_includes workflowPath "ci.yml" then
    let contentLines := split_on newline content in
    let npmCiCount :=
      length (filter (fun line => str_includes line "npm ci") contentLines) in
    let npmInstallCount :=
      length (filter (fun line => str_includes line "npm install")
                     contentLines) in
    if (0 <? npmCiCount)%nat && (0 <? npmInstallCount)%nat
    then [duplicate_install_issue] else []
  else [].

(** Lines 225-233: the test of one schedule; it throws when the schedule is
    null or its [cron] is a truthy value that is not a string. *)
Definition cron_check_one (schedule : Yaml) : result (list string) :=
  match get schedule "cron" with
  | Throw e => Throw e
  | Ok cron =>
      if yaml_truthy cron then
        match call_split cron with
        | Throw e => Throw e
        | Ok cronParts =>
            let first := hd "" cronParts in
            if String.eqb first "*" || str_includes first ","
            then Ok [cron_issue (match cron with YString c => c | _ => "" end)]
            else Ok []
        end
      else Ok []
  end.

(** The loop of lines 224-234: the issues pushed, and the error that ended
    the loop, if any. *)
Fixpoint cron_check_each (schedules : list Yaml)
    : list string * option JsError :=
  match schedules with
  | [] => ([], None)
  | schedule :: rest =>
      match cron_check_one schedule with
      | Throw e => ([], Some e)
      | Ok pushed =>
          let (more, thrown) := cron_check_each rest in
          (pushed ++ more, thrown)
      end
  end.

(** Lines 219-235. *)
Definition cron_check (workflowConfig : Yaml) : list string * option JsError :=
  match get workflowConfig "on" with
  | Throw e => ([], Some e)
  | Ok on =>
      match get_opt on "schedule" with
      | Throw e => ([], Some e)
      | Ok schedule =>
          if yaml_truthy schedule then
            cron_check_each (match schedule with
                             | YArray items => items
                             | _ => [schedule]
                             end)
          else ([], None)
      end
  end.

(** [workflowConfig.on?.push?.branches?.includes('main')] *)
Definition pushes_to_main (workflowConfig : Yaml) : result bool :=
  match get workflowConfig "on" with
  | Throw e => Throw e
  | Ok on =>
      match get_opt on "push" with
      | Throw e => Throw e
      | Ok push =>
          match get_opt push "branches" with
          | Throw e => Throw e
          | Ok branches => call_includes_opt branches "main"
          end
      end
  end.

(** Lines 238-248. *)
Definition deployment_check (repo workflowPath : string) (workflowConfig : Yaml)
    : list string :=
  if String.eqb repo "Real_Estate_Intelligence" then
    let fileName := file_name_of workflowPath in
    if str_includes fileName "deploy" then
      match pushes_to_main workflowConfig with
      | Ok true => [deployment_issue]
      | _ => []
      end
    else []
  else [].

(** [checkWorkflowIssues]: what was pushed before an exception stays. *)
Definition detect_issues (I : IssueEnv) (config : Config)
    (repo workflowPath : string) : list string :=
  match getWorkflowContent I config repo workflowPath with
  | None => []
  | Some content =>
      if String.eqb content "" then []
      else
        match yaml_load I content with
        | Throw _ => []
        | Ok workflowConfig =>
            let duplicates :=
              duplicate_install_check repo workflowPath content in
            match cron_check workflowConfig with
            | (crons, Some _) => duplicates ++ crons
            | (crons, None) =>
                duplicates ++ crons
                ++ deployment_check repo workflowPath workflowConfig
            end
        end
  end.

(** The environment of the analyzer whose issue detector is [detect_issues]. *)
Definition analyzer_env (I : IssueEnv) (config : Config) (o : Octokit)
    (since : nat -> Z -> string) (now_ : nat -> string) : AnalyzerEnv :=
  {| octokit := o; since_iso := since; now_iso := now_;
     checkWorkflowIssues := detect_issues I config |}.

(* ================================================================== *)
(** * Part II. Specification-level notions and sample data              *)
(* ================================================================== *)

(** ** The metric of section 4.1, in the words of the specification *)

(** The runs met before the first run whose outcome is success. *)
Fixpoint before_first_success (runs : list WorkflowRun) : list WorkflowRun :=
  match runs with
  | [] => []
  | run :: rest =>
      if is_success run then [] else run :: before_first_success rest
  end.

(** The number of failure or timeout runs met before the first success. *)
Definition failures_before_first_success (runs : list WorkflowRun) : nat :=
  length (filter is_failed (before_first_success runs)).

(** A run is "other" when it is neither a success nor a failure or timeout
    (cancelled, skipped, still running, ...). *)
Definition is_other (r : WorkflowRun) : bool :=
  negb (is_failed r) && negb (is_success r).

(** ** Sample data *)

(** [DEFAULT_CONFIG] of config.ts, with a token. *)
Definition default_config : Config :=
  {| failureThreshold := 3; failureRateThreshold := 80; timeWindowDays := 7;
     excludeRepositories := []; safelistWorkflows := []; dryRun := true;
     githubToken := Some "ghp_token"; organization := "InfinityXOneSystems";
     maxConcurrentRequests := 5; backupDirectory := "workflow-backups" |}.

Definition safelisting_config : Config :=
  {| failureThreshold := 3; failureRateThreshold := 80; timeWindowDays := 7;
     excludeRepositories := []; safelistWorkflows := ["deploy.yml"; "ci.yml"];
     dryRun := true;
     githubToken := Some "ghp_token"; organization := "InfinityXOneSystems";
     maxConcurrentRequests := 5; backupDirectory := "workflow-backups" |}.

Definition zero_threshold_config : Config :=
  {| failureThreshold := 0; failureRateThreshold := 80; timeWindowDays := 7;
     excludeRepositories := []; safelistWorkflows := []; dryRun := true;
     githubToken := Some "ghp_token"; organization := "InfinityXOneSystems";
     maxConcurrentRequests := 5; backupDirectory := "workflow-backups" |}.

Definition run_with (n : Z) (c : option string) : WorkflowRun :=
  {| run_id := n; run_name := "CI"; status := Some "completed"; conclusion := c;
     created_at := "2024-01-01T00:00:00Z"; updated_at := "2024-01-01T00:05:00Z";
     run_number := n; html_url := "https://github.com/o/r/actions/runs/1" |}.

Definition ci_workflow : WorkflowInfo :=
  {| name := "CI"; path := ".github/workflows/ci.yml"; state := "active";
     id := 7 |}.

Definition four_failures : list WorkflowRun :=
  [run_with 4 (Some "failure"); run_with 3 (Some "failure");
   run_with 2 (Some "failure"); run_with 1 (Some "failure")].

Definition cancelled_run : WorkflowRun := run_with 9 (Some "cancelled").

Definition api_run (n : Z) (c : option string) : ApiWorkflowRun :=
  {| api_id := n; api_name := Some "CI"; api_status := Some "completed";
     api_conclusion := c; api_created_at := "2024-01-01T00:00:00Z";
     api_updated_at := "2024-01-01T00:05:00Z"; api_run_number := n;
     api_html_url := "https://github.com/o/r/actions/runs/1" |}.

Definition deploy_workflow : WorkflowInfo :=
  {| name := "Deploy"; path := ".github/workflows/deploy.yml";
     state := "active"; id := 8 |}.

Definition server_error : JsError :=
  {| err_status := Some 500%Z; err_message := "Internal Server Error" |}.

Definition not_found : JsError :=
  {| err_status := Some 404%Z; err_message := "Not Found" |}.

(** An organization of three repositories: [index] has two workflows, the
    run history of the second cannot be fetched; the workflow list of
    [broken] cannot be fetched; [docs] has no workflow. *)
Definition sample_octokit : Octokit :=
  {| rateLimit_get := Ok {| remaining := 4990; limit := 5000; reset := 1700000000 |};
     repos_listForOrg := fun _ => [Ok ["index"; "broken"; "docs"]];
     actions_listRepoWorkflows := fun _ repo =>
       if String.eqb repo "index" then Ok [ci_workflow; deploy_workflow]
       else if String.eqb repo "broken" then Throw server_error
       else Ok [];
     actions_listWorkflowRuns := fun _ repo workflow_id _ =>
       if (workflow_id =? 7)%Z
       then Ok (map (fun n => api_run n (Some "failure")) [4; 3; 2; 1]%Z)
       else Throw server_error |}.

Definition sample_env : AnalyzerEnv :=
  {| octokit := sample_octokit;
     since_iso := fun _ _ => "2024-01-01T00:00:00.000Z";
     now_iso := fun _ => "2024-01-08T00:00:00.000Z";
     checkWorkflowIssues := fun _ _ => [] |}.

(** The same organization when the listing of its repositories is refused. *)
Definition unreachable_env : AnalyzerEnv :=
  {| octokit :=
       {| rateLimit_get := rateLimit_get sample_octokit;
          repos_listForOrg := fun _ => [Throw not_found];
          actions_listRepoWorkflows := actions_listRepoWorkflows sample_octokit;
          actions_listWorkflowRuns := actions_listWorkflowRuns sample_octokit |};
     since_iso := since_iso sample_env;
     now_iso := now_iso sample_env;
     checkWorkflowIssues := checkWorkflowIssues sample_env |}.

(** A report with two flagged workflows, in two repositories, and a healthy
    one. *)
Definition ci_analysis : WorkflowAnalysis :=
  analyzeRuns default_config "index" ci_workflow four_failures [].

Definition deploy_analysis : WorkflowAnalysis :=
  analyzeRuns default_config "api" deploy_workflow four_failures [].

Definition healthy_analysis : WorkflowAnalysis :=
  analyzeRuns default_config "index" deploy_workflow
              [run_with 2 (Some "success"); run_with 1 (Some "success")] [].

Definition sample_report : AnalysisReport :=
  {| ar_timestamp := "2024-01-08T00:00:00.000Z";
     ar_organization := "InfinityXOneSystems";
     totalRepositories := 2; ar_totalWorkflows := 3; ar_failingWorkflows := 2;
     successRate := 20;
     repositories :=
       [{| ra_repository := "index"; ra_totalWorkflows := 2;
           ra_failingWorkflows := 1;
           workflows := [ci_analysis; healthy_analysis] |};
        {| ra_repository := "api"; ra_totalWorkflows := 1;
           ra_failingWorkflows := 1; workflows := [deploy_analysis] |}];
     summary := {| sum_totalRuns := 10; sum_successfulRuns := 2;
                   sum_failedRuns := 8 |} |}.

(** A report that flags the [index] workflow only. *)
Definition index_report : AnalysisReport :=
  {| ar_timestamp := "2024-01-08T00:00:00.000Z";
     ar_organization := "InfinityXOneSystems";
     totalRepositories := 1; ar_totalWorkflows := 2; ar_failingWorkflows := 1;
     successRate := 33;
     repositories :=
       [{| ra_repository := "index"; ra_totalWorkflows := 2;
           ra_failingWorkflows := 1;
           workflows := [ci_analysis; healthy_analysis] |}];
     summary := {| sum_totalRuns := 6; sum_successfulRuns := 2;
                   sum_failedRuns := 4 |} |}.

(** A file system on which every call succeeds, and a clock whose [n]-th
    reading falls [n] milliseconds after midnight. *)
Definition sample_disabler_env : DisablerEnv :=
  {| time_iso := fun n =>
       ("2024-01-09T00:00:00." ++ pad_zeros 3 (string_of_nat n) ++ "Z")%string;
     fs_outcome := fun _ => None;
     path_join := fun dir file => (dir ++ "/" ++ file)%string;
     path_basename := file_name_of |}.

Definition empty_world : World :=
  {| clock := 0; fs_calls := 0; directories := []; manifest_files := [];
     backup_files := []; log_entries := []; audit_file := None |}.

(** The record of a workflow of repository [api], disabled the day before. *)
Definition earlier_record : DisabledWorkflow :=
  disabled_record sample_disabler_env default_config "api" deploy_analysis
    "2024-01-08T00:00:00.000Z" "2024-01-08T00:00:00.001Z".

Definition earlier_manifest : DisabledWorkflowsManifest :=
  {| dm_timestamp := "2024-01-08T00:00:00.009Z";
     disabledWorkflows := [earlier_record] |}.

(** The world left by that earlier disable transition. *)
Definition earlier_world : World :=
  {| clock := 0; fs_calls := 0; directories := ["workflow-backups"];
     manifest_files := [(manifest_path, earlier_manifest)];
     backup_files := [(backupPath earlier_record, deploy_analysis)];
     log_entries := []; audit_file := None |}.

Definition restore_index_ci : RestoreOptions :=
  {| repo := Some "index"; workflow := Some "ci.yml"; all := None;
     opt_dryRun := Some false |}.

(** ** The lifecycle, in the words of the specification *)

(** The flagged workflows of a report, each with its repository, in the
    order of the report. *)
Definition flagged (report : AnalysisReport) : list (string * WorkflowAnalysis) :=
  flat_map (fun r => map (pair (ra_repository r))
                         (filter shouldDisable (workflows r)))
           (repositories report).

(** The records a disable transition that is not a dry run builds for a list
    of flagged workflows when it starts at clock reading [t]: a workflow
    takes four readings, two for its record and one for each of its two
    audit entries. *)
Fixpoint built_records (E : DisablerEnv) (config : Config) (t : nat)
    (fl : list (string * WorkflowAnalysis)) : list DisabledWorkflow :=
  match fl with
  | [] => []
  | (r, workflow) :: rest =>
      disabled_record E config r workflow (time_iso E t) (time_iso E (S t))
      :: built_records E config (4 + t) rest
  end.

(** A record that stems from one of the flagged workflows [fl]. *)
Definition from_flagged (fl : list (string * WorkflowAnalysis))
    (d : DisabledWorkflow) : Prop :=
  In (dw_repository d, analysis d) fl.

(** [l] is [l'] with some of its elements left out: what is left keeps its
    order. *)
Inductive subsequence {A : Type} : list A -> list A -> Prop :=
| subsequence_nil : subsequence [] []
| subsequence_skip (x : A) (l l' : list A) :
    subsequence l l' -> subsequence l (x :: l')
| subsequence_keep (x : A) (l l' : list A) :
    subsequence l l' -> subsequence (x :: l) (x :: l').

(** A record is selected by the filters of a restore: each filter that is
    given must match. *)
Definition selected (options : RestoreOptions) (d : DisabledWorkflow) : bool :=
  (if truthy (repo options)
   then String.eqb (dw_repository d) (or_empty (repo options)) else true)
  && (if truthy (workflow options)
      then str_includes (originalPath d) (or_empty (workflow options))
      else true).

(** A record without its time stamps: the moment of the disable and the
    backup location, which carries a time stamp, are left out. *)
Definition untimed (d : DisabledWorkflow)
    : string * string * string * string * list string * WorkflowAnalysis :=
  (dw_repository d, dw_workflowName d, originalPath d, disabledPath d,
   reason d, analysis d).

(** The value a computation returned, if it did not throw. *)
Definition returned {A : Type} (r : result A) : option A :=
  match r with
  | Ok a => Some a
  | Throw _ => None
  end.

(** The repository and the analysis each record of a manifest stems from. *)
Definition origins (m : DisabledWorkflowsManifest)
    : list (string * WorkflowAnalysis) :=
  map (fun d => (dw_repository d, analysis d)) (disabledWorkflows m).

(** The persisted manifest, modulo time stamps. *)
Definition persisted_untimed (w : World) :=
  option_map (fun m => map untimed (disabledWorkflows m))
             (manifest_at manifest_path w).

(** What a dry run must leave alone: the manifests, the backups and the
    audit log, in memory and on disk. *)
Definition durable (w : World) :=
  (manifest_files w, backup_files w, log_entries w, audit_file w).

(** A computation leaves a part of the world as it found it, whether it
    returns or throws. *)
Definition keeps {X A : Type} (part : World -> X) (m : M A) : Prop :=
  forall w, part (snd (m w)) = part w.

(** No file-system call fails. *)
Definition reliable (E : DisablerEnv) : Prop :=
  forall n, fs_outcome E n = None.

(** ** Notions used by the further properties *)

(** [l'] is [l] with more elements after it. *)
Definition extends {A : Type} (l l' : list A) : Prop :=
  exists more, l' = l ++ more.

(** The three rules of the decision, as conditions on the metrics. *)
Definition streak_rule (config : Config) (a : WorkflowAnalysis) : bool :=
  (failureThreshold config <=? Z.of_nat (consecutiveFailures a))%Z.

Definition rate_rule (config : Config) (a : WorkflowAnalysis) : bool :=
  Qle_bool (inject_Z (failureRateThreshold config)) (failureRate a)
  && (5 <=? totalRuns a)%nat.

Definition never_succeeded_rule (a : WorkflowAnalysis) : bool :=
  (0 <? totalRuns a)%nat && (successfulRuns a =? 0)%nat.

Definition safelisted (config : Config) (workflow : WorkflowInfo) : bool :=
  includes_str (safelistWorkflows config) (file_name_of (path workflow)).

(** A history of runs that were all cancelled. *)
Definition cancelled_history : list WorkflowRun :=
  [run_with 3 (Some "cancelled"); run_with 2 (Some "cancelled");
   run_with 1 None].

(** The string holds a slash. *)
Fixpoint has_slash (s : string) : bool :=
  match s with
  | EmptyString => false
  | String c rest => Ascii.eqb c "/" || has_slash rest
  end.

(** An organization whose listing takes two requests; the third answer would
    be an error, and is never asked for. *)
Definition two_page_octokit : Octokit :=
  {| rateLimit_get := rateLimit_get sample_octokit;
     repos_listForOrg := fun _ =>
       [Ok (repeat "service" 100); Ok ["index"; "docs"]; Throw server_error];
     actions_listRepoWorkflows := actions_listRepoWorkflows sample_octokit;
     actions_listWorkflowRuns := actions_listWorkflowRuns sample_octokit |}.

Definition excluding_config : Config :=
  {| failureThreshold := 3; failureRateThreshold := 80; timeWindowDays := 7;
     excludeRepositories := ["docs"]; safelistWorkflows := []; dryRun := true;
     githubToken := Some "ghp_token"; organization := "InfinityXOneSystems";
     maxConcurrentRequests := 5; backupDirectory := "workflow-backups" |}.

(** Every workflow analysis of a report, repository after repository. *)
Definition all_workflows (report : AnalysisReport) : list WorkflowAnalysis :=
  flat_map workflows (repositories report).

(** The data source lists at least one workflow for the repository. *)
Definition has_workflows (octokit : Octokit) (config : Config) (repo : string)
    : bool :=
  negb (Nat.eqb (length (getWorkflows octokit config repo)) 0).

(** The analyses of the repositories of a pass, empty ones included, in the
    order of the pass, starting at clock reading [t]. *)
Fixpoint analyses_from (E : AnalyzerEnv) (config : Config) (repos : list string)
    (t : nat) : list RepositoryAnalysis :=
  match repos with
  | [] => []
  | repo :: rest =>
      let (repoAnalysis, t') := analyzeRepository E config repo t in
      repoAnalysis :: analyses_from E config rest t'
  end.

(** The analyses that are recorded: those with at least one workflow. *)
Definition kept (E : AnalyzerEnv) (config : Config) (repos : list string)
    (t : nat) : list RepositoryAnalysis :=
  filter (fun r => (0 <? length (workflows r))%nat)
         (analyses_from E config repos t).

Definition empty_report : AnalysisReport :=
  {| ar_timestamp := ""; ar_organization := ""; totalRepositories := 0;
     ar_totalWorkflows := 0; ar_failingWorkflows := 0; successRate := 0;
     repositories := [];
     summary := {| sum_totalRuns := 0; sum_successfulRuns := 0;
                   sum_failedRuns := 0 |} |}.

(** The report of a pass over the sample organization. *)
Definition sample_pass_report : AnalysisReport :=
  Eval vm_compute in
    match analyze sample_env default_config 0 with
    | Ok report => report
    | Throw _ => empty_report
    end.

(** A computation takes every world to one related to it by [R], whether it
    returns or throws. *)
Definition steps {A : Type} (R : World -> World -> Prop) (m : M A) : Prop :=
  forall w, R w (snd (m w)).




(** The audit entries of a disable transition that is not a dry run, on a
    reliable file system, for a list of flagged workflows, starting at clock
    reading [t]: for each workflow its backup entry, then its disable entry. *)
Fixpoint disable_trail (E : DisablerEnv) (config : Config) (t : nat)
    (fl : list (string * WorkflowAnalysis)) : list AuditLogEntry :=
  match fl with
  | [] => []
  | (r, workflow) :: rest =>
      let d := disabled_record E config r workflow (time_iso E t)
                               (time_iso E (S t)) in
      backup_entry r workflow (backupPath d) (time_iso E (2 + t))
      :: disable_entry r workflow d (time_iso E (3 + t))
      :: disable_trail E config (4 + t) rest
  end.

(** The audit entries of a restore that is not a dry run, on a reliable file
    system, for the selected records, starting at clock reading [t]. *)
Fixpoint restore_trail (E : DisablerEnv) (t : nat) (ds : list DisabledWorkflow)
    : list AuditLogEntry :=
  match ds with
  | [] => []
  | d :: rest => restore_entry d (time_iso E t) :: restore_trail E (S t) rest
  end.

(** The backup documents of a list of records, as [(path, content)]. *)
Definition backups_of (ds : list DisabledWorkflow)
    : list (string * WorkflowAnalysis) :=
  map (fun d => (backupPath d, analysis d)) ds.

(** The records a dry run builds: a workflow takes two clock readings. *)
Fixpoint previewed_records (E : DisablerEnv) (config : Config) (t : nat)
    (fl : list (string * WorkflowAnalysis)) : list DisabledWorkflow :=
  match fl with
  | [] => []
  | (r, workflow) :: rest =>
      disabled_record E config r workflow (time_iso E t) (time_iso E (S t))
      :: previewed_records E config (2 + t) rest
  end.

Definition restore_api_only : RestoreOptions :=
  {| repo := Some "api"; workflow := None; all := None;
     opt_dryRun := Some false |}.

Definition restore_ci_files : RestoreOptions :=
  {| repo := None; workflow := Some "ci.yml"; all := None;
     opt_dryRun := Some false |}.

Definition restore_nothing : RestoreOptions :=
  {| repo := Some "no-such-repository"; workflow := None; all := None;
     opt_dryRun := Some false |}.

(** The world after a disable of the two flagged workflows of the sample
    report. *)
Definition disabled_world : World :=
  Eval vm_compute in
    snd (disableWorkflows sample_disabler_env default_config sample_report
           false empty_world).

(** A file system whose first call succeeds, whose second call fails and
    whose later calls succeed. *)
Definition second_call_fails : DisablerEnv :=
  {| time_iso := time_iso sample_disabler_env;
     fs_outcome := fun n =>
       if Nat.eqb n 1
       then Some {| err_status := None; err_message := "EACCES: permission denied" |}
       else None;
     path_join := path_join sample_disabler_env;
     path_basename := path_basename sample_disabler_env |}.

(** A computation that throws has left a part of the world as it found it. *)
Definition throws_keep {X A : Type} (part : World -> X) (m : M A) : Prop :=
  forall w e w', m w = (Throw e, w') -> part w' = part w.

(** The documents on disk the commands write: manifests, backups and the
    audit log. *)
Definition files (w : World) :=
  (manifest_files w, backup_files w, audit_file w).

(** The audit log on disk holds [old] and what was added after it, and the
    log in memory holds all of that. *)
Definition log_kept (old : list AuditLogEntry) (w : World) : Prop :=
  exists l, audit_file w = Some l /\ extends old l /\ extends l (log_entries w).

Definition sample_invocation : Invocation :=
  {| loadConfig := fun _ => Ok default_config;
     report_file := Some sample_report |}.

Definition tokenless_invocation : Invocation :=
  {| loadConfig := fun _ =>
       Ok {| failureThreshold := 3; failureRateThreshold := 80;
             timeWindowDays := 7; excludeRepositories := [];
             safelistWorkflows := []; dryRun := true; githubToken := None;
             organization := "InfinityXOneSystems"; maxConcurrentRequests := 5;
             backupDirectory := "workflow-backups" |};
     report_file := Some sample_report |}.

Definition confirm_disable : DisableCommandOptions :=
  {| d_config := "config.json"; d_dryRun := true; d_confirm := true |}.

Definition confirm_restore_api : RestoreCommandOptions :=
  {| r_config := "config.json"; r_repo := Some "api"; r_workflow := None;
     r_all := None; r_dryRun := true; r_confirm := true |}.

(** A step that keeps [log_kept old]. *)
Definition kept_step (old : list AuditLogEntry) (w w' : World) : Prop :=
  log_kept old w -> log_kept old w'.

(** The manifest persisted in [disabled_world]. *)
Definition disabled_manifest : DisabledWorkflowsManifest :=
  Eval vm_compute in
    match manifest_at manifest_path disabled_world with
    | Some m => m
    | None => earlier_manifest
    end.

(** A world in which one file-system call has been made. *)
Definition after_one_call : World :=
  {| clock := 0; fs_calls := 1; directories := ["workflow-backups"];
     manifest_files := []; backup_files := []; log_entries := [];
     audit_file := None |}.

Definition permission_denied : JsError :=
  {| err_status := None; err_message := "EACCES: permission denied" |}.

(** An invocation whose report counts no failing workflow. *)
Definition healthy_invocation : Invocation :=
  {| loadConfig := fun _ => Ok default_config;
     report_file := Some empty_report |}.

(** ** The issue detector, in words *)

(** A cron expression is "high-frequency" for the detector when its first
    blank-separated field is [*] or holds a comma. *)
Definition high_frequency (cron : string) : bool :=
  let first := hd "" (split_on " " cron) in
  String.eqb first "*" || str_includes first ",".

(** A schedule entry [- cron: '...']. *)
Definition cron_entry (cron : string) : Yaml :=
  YObject [("cron", YString cron)].

(** A definition scheduled four times over. *)
Definition scheduled_definition : Yaml :=
  YObject
    [("name", YString "Nightly");
     ("on", YObject
        [("schedule",
          YArray [cron_entry "*/5 * * * *"; cron_entry "* * * * *";
                  cron_entry "0,30 * * * *"; cron_entry "0 0 * * *"])])].

(** A detector environment that finds [scheduled_definition] everywhere. *)
Definition sample_issue_env : IssueEnv :=
  {| repos_getContent := fun _ _ _ => Ok (Some "bmFtZTogTmlnaHRseQ==");
     base64_decode := fun _ => "name: Nightly";
     yaml_load := fun _ => Ok scheduled_definition |}.

(** A detector environment in which no definition can be fetched. *)
Definition unreadable_issue_env : IssueEnv :=
  {| repos_getContent := fun _ _ _ => Throw not_found;
     base64_decode := fun s => s;
     yaml_load := fun _ => Ok scheduled_definition |}.

(* ================================================================== *)
(** * Part III. Properties                                              *)
(* ================================================================== *)

(** ** Run outcomes *)

Lemma conclusion_is_eq (c : string) (r : WorkflowRun) :
  conclusion_is c r = true <-> conclusion r = Some c.
Proof.
  unfold conclusion_is. destruct (conclusion r) as [c'|].
  - rewrite String.eqb_eq. split; congruence.
  - split; discriminate.
Qed.

Lemma failed_not_success (r : WorkflowRun) :
  is_failed r = true -> is_success r = false.
Proof.
  unfold is_failed, is_success. rewrite orb_true_iff, !conclusion_is_eq.
  intros [H|H]; unfold conclusion_is; rewrite H; reflexivity.
Qed.

Lemma failure_is_failed (r : WorkflowRun) :
  conclusion r = Some "failure" -> is_failed r = true /\ is_success r = false.
Proof.
  intros H. unfold is_failed, is_success, conclusion_is. rewrite H. split; reflexivity.
Qed.

Lemma all_failed_no_success (runs : list WorkflowRun) :
  Forall (fun r => conclusion r = Some "failure") runs ->
  filter is_success runs = [].
Proof.
  induction 1 as [|r rs Hr _ IH]; simpl; [reflexivity|].
  destruct (failure_is_failed r Hr) as [_ ->]. exact IH.
Qed.

Lemma all_failed_all_failed (runs : list WorkflowRun) :
  Forall (fun r => conclusion r = Some "failure") runs ->
  filter is_failed runs = runs.
Proof.
  induction 1 as [|r rs Hr _ IH]; simpl; [reflexivity|].
  destruct (failure_is_failed r Hr) as [-> _]. rewrite IH. reflexivity.
Qed.

Lemma all_failed_count (runs : list WorkflowRun) (c : nat) :
  Forall (fun r => conclusion r = Some "failure") runs ->
  count_consecutive runs c = (c + length runs)%nat.
Proof.
  intros H. revert c. induction H as [|r rs Hr _ IH]; intros c; simpl.
  - lia.
  - destruct (failure_is_failed r Hr) as [-> _]. rewrite IH. lia.
Qed.

(** ** The counter of consecutive failures *)

Lemma count_consecutive_shift (runs : list WorkflowRun) (c : nat) :
  count_consecutive runs c = (c + count_consecutive runs 0)%nat.
Proof.
  revert c. induction runs as [|r rs IH]; intros c; simpl; [lia|].
  destruct (is_failed r).
  - rewrite (IH (S c)), (IH 1%nat). lia.
  - destruct (is_success r); [lia | apply IH].
Qed.

Lemma count_consecutive_spec (runs : list WorkflowRun) :
  count_consecutive runs 0 = failures_before_first_success runs.
Proof.
  unfold failures_before_first_success.
  induction runs as [|r rs IH]; simpl; [reflexivity|].
  destruct (is_failed r) eqn:Hf.
  - rewrite (failed_not_success r Hf). simpl. rewrite Hf. simpl.
    rewrite count_consecutive_shift, IH. reflexivity.
  - destruct (is_success r); simpl; [reflexivity|].
    rewrite Hf. exact IH.
Qed.

Lemma count_consecutive_skip (pre post : list WorkflowRun) (r : WorkflowRun)
    (c : nat) :
  is_other r = true ->
  count_consecutive (pre ++ r :: post) c = count_consecutive (pre ++ post) c.
Proof.
  unfold is_other. rewrite andb_true_iff, !negb_true_iff. intros [Hf Hs].
  revert c. induction pre as [|p pre IH]; intros c; simpl.
  - rewrite Hf, Hs. reflexivity.
  - destruct (is_failed p); [apply IH|].
    destruct (is_success p); [reflexivity | apply IH].
Qed.

(** C6. For a run history ordered most recent first, the consecutive-failure
    count of the analysis is the number of failure or timeout runs met before
    the first success; a run with any other outcome can be taken out of the
    history, wherever it stands, without changing the count: it is not
    counted, does not reset the count and does not end the loop. *)
Theorem consecutive_failures_metric (config : Config) (repo : string)
    (workflow : WorkflowInfo) (found : list string)
    (runs pre post : list WorkflowRun) (r : WorkflowRun) :
  consecutiveFailures (analyzeRuns config repo workflow runs found)
  = failures_before_first_success runs
  /\ (is_other r = true ->
      consecutiveFailures
        (analyzeRuns config repo workflow (pre ++ r :: post) found)
      = consecutiveFailures
          (analyzeRuns config repo workflow (pre ++ post) found)).
Proof.
  unfold analyzeRuns; simpl. split.
  - apply count_consecutive_spec.
  - apply count_consecutive_skip.
Qed.

Lemma consecutive_failures_metric_witness :
  is_other cancelled_run = true
  /\ consecutiveFailures
       (analyzeRuns default_config "index" ci_workflow
          ([run_with 5 (Some "failure")] ++ cancelled_run :: four_failures) [])
     = 5%nat
  /\ consecutiveFailures
       (analyzeRuns default_config "index" ci_workflow
          ([run_with 5 (Some "failure")] ++ four_failures) [])
     = 5%nat.
Proof.
  destruct (consecutive_failures_metric default_config "index" ci_workflow []
              ([run_with 5 (Some "failure")] ++ cancelled_run :: four_failures)
              [run_with 5 (Some "failure")] four_failures cancelled_run)
    as [Hspec Hskip].
  split; [reflexivity|].
  split.
  - rewrite Hspec. reflexivity.
  - rewrite <- (Hskip eq_refl), Hspec. reflexivity.
Defined.

(** ** The disable decision *)

Lemma decide_safelisted (config : Config) (workflowPath : string)
    (total successful consecutive : nat) (rate : Q) :
  includes_str (safelistWorkflows config) (file_name_of workflowPath) = true ->
  decide config workflowPath total successful consecutive rate = (false, []).
Proof. intros H. unfold decide. rewrite H. reflexivity. Qed.

Lemma includes_str_In (arr : list string) (s : string) :
  includes_str arr s = true <-> In s arr.
Proof.
  unfold includes_str. rewrite existsb_exists. split.
  - intros [x [Hin Heq]]. apply String.eqb_eq in Heq. subst. exact Hin.
  - intros Hin. exists s. split; [exact Hin | apply String.eqb_refl].
Qed.

(** C1 does not hold as stated: with four failures, threshold 3 and rate
    threshold 80 the decision is to disable, but the reasons are two, the
    consecutive-failures reason and "No successful runs". *)
Lemma four_failures_not_one_reason :
  let a := analyzeRuns default_config "index" ci_workflow four_failures [] in
  totalRuns a = 4%nat
  /\ failedRuns a = 4%nat
  /\ disableReason a
     = ["4 consecutive failures (threshold: 3)"; "No successful runs"]
  /\ ~ (shouldDisable a = true
        /\ disableReason a = [consecutive_reason 4 3]).
Proof.
  vm_compute. repeat split. intros [_ H]. discriminate H.
Qed.

(** C1, amended.  For a workflow that is not safelisted and whose history in
    the window has exactly four runs, all failures, with failure threshold 3
    and failure-rate threshold 80, the decision is to disable and the reasons
    are exactly two, in this order: the consecutive-failures reason and
    "No successful runs"; the rate-based reason is absent, four runs being
    fewer than five. *)
Theorem four_failures_two_reasons (config : Config) (repo : string)
    (workflow : WorkflowInfo) (runs : list WorkflowRun) (found : list string) :
  failureThreshold config = 3%Z ->
  failureRateThreshold config = 80%Z ->
  includes_str (safelistWorkflows config) (file_name_of (path workflow)) = false ->
  length runs = 4%nat ->
  Forall (fun r => conclusion r = Some "failure") runs ->
  let a := analyzeRuns config repo workflow runs found in
  shouldDisable a = true
  /\ disableReason a
     = ["4 consecutive failures (threshold: 3)"; "No successful runs"]
  /\ ~ In (rate_reason (failureRate a) 80) (disableReason a).
Proof.
  intros Ht Hr Hsafe Hlen Hall a.
  assert (Hd : (shouldDisable a, disableReason a)
               = (true, ["4 consecutive failures (threshold: 3)";
                         "No successful runs"])).
  { unfold a, analyzeRuns; simpl. rewrite <- surjective_pairing.
    unfold decide. rewrite Hsafe, Ht, Hr.
    rewrite (all_failed_no_success runs Hall), (all_failed_count runs 0 Hall), Hlen.
    simpl length. rewrite andb_false_r. reflexivity. }
  assert (Hrate : failureRate a = percentage 4 4).
  { unfold a, analyzeRuns; simpl.
    rewrite (all_failed_all_failed runs Hall), Hlen. reflexivity. }
  assert (Hs : shouldDisable a = true) by exact (f_equal fst Hd).
  assert (Hrs : disableReason a
                = ["4 consecutive failures (threshold: 3)"; "No successful runs"])
    by exact (f_equal snd Hd).
  rewrite Hs, Hrs, Hrate.
  split; [reflexivity|]. split; [reflexivity|].
  vm_compute. intros [H|[H|[]]]; discriminate H.
Qed.

Lemma four_failures_two_reasons_witness :
  let a := analyzeRuns default_config "index" ci_workflow four_failures [] in
  shouldDisable a = true
  /\ disableReason a
     = ["4 consecutive failures (threshold: 3)"; "No successful runs"]
  /\ ~ In (rate_reason (failureRate a) 80) (disableReason a).
Proof.
  apply (four_failures_two_reasons default_config "index" ci_workflow
           four_failures []).
  - reflexivity.
  - reflexivity.
  - reflexivity.
  - reflexivity.
  - repeat constructor.
Defined.

(** C5. A workflow whose file name, the last segment of its definition path,
    is in the configured safelist is never flagged, whatever its run history
    holds: the decision is false and no reason is given, also when every run
    in the window failed. *)
Theorem safelisted_never_disabled (config : Config) (repo : string)
    (workflow : WorkflowInfo) :
  In (file_name_of (path workflow)) (safelistWorkflows config) ->
  (forall (runs : list WorkflowRun) (found : list string),
      shouldDisable (analyzeRuns config repo workflow runs found) = false
      /\ disableReason (analyzeRuns config repo workflow runs found) = [])
  /\ (forall (E : AnalyzerEnv) (t : nat),
         shouldDisable (analyzeWorkflow E config repo workflow t) = false).
Proof.
  intros Hin. apply includes_str_In in Hin.
  assert (Hruns : forall runs found,
             shouldDisable (analyzeRuns config repo workflow runs found) = false
             /\ disableReason (analyzeRuns config repo workflow runs found) = []).
  { intros runs found. unfold analyzeRuns; simpl.
    rewrite (decide_safelisted config _ _ _ _ _ Hin). split; reflexivity. }
  split; [exact Hruns|].
  intros E t. unfold analyzeWorkflow. apply Hruns.
Qed.

Lemma safelisted_never_disabled_witness :
  In (file_name_of (path ci_workflow)) (safelistWorkflows safelisting_config)
  /\ failedRuns (analyzeRuns safelisting_config "index" ci_workflow
                   four_failures []) = 4%nat
  /\ shouldDisable (analyzeRuns safelisting_config "index" ci_workflow
                      four_failures []) = false.
Proof.
  assert (Hin : In (file_name_of (path ci_workflow))
                   (safelistWorkflows safelisting_config)).
  { simpl. right. left. reflexivity. }
  split; [exact Hin|]. split; [reflexivity|].
  apply (safelisted_never_disabled safelisting_config "index" ci_workflow Hin).
Defined.

(** ** Empty run histories *)

Lemma valid_failureThreshold (config : Config) :
  validateConfig config = Ok tt -> (1 <= failureThreshold config)%Z.
Proof.
  unfold validateConfig.
  destruct (negb (truthy (githubToken config))); [discriminate|].
  destruct (negb (truthy (Some (organization config)))); [discriminate|].
  destruct (failureThreshold config <? 1)%Z eqn:H; [discriminate|].
  intros _. apply Z.ltb_ge in H. exact H.
Qed.

(** C7. For a workflow with no run in the window the failure rate is 0, the
    consecutive-failure count is 0 and there is no last successful run,
    whatever the configuration is.  The workflow is flagged exactly when it
    is not safelisted and the failure threshold is 0 or less, so with a
    failure threshold of at least 1 it is not flagged and no reason is
    given; this covers every configuration that [validateConfig] accepts. *)
Theorem no_runs_never_disabled (config : Config) (repo : string)
    (workflow : WorkflowInfo) (found : list string) :
  let a := analyzeRuns config repo workflow [] found in
  totalRuns a = 0%nat
  /\ failureRate a = 0%Q
  /\ consecutiveFailures a = 0%nat
  /\ lastSuccessfulRun a = None
  /\ shouldDisable a
     = negb (safelisted config workflow) && (failureThreshold config <=? 0)%Z
  /\ ((1 <= failureThreshold config)%Z ->
      shouldDisable a = false /\ disableReason a = [])
  /\ (validateConfig config = Ok tt -> shouldDisable a = false).
Proof.
  intros a. repeat (split; [reflexivity|]).
  assert (H : shouldDisable a
              = negb (safelisted config workflow)
                && (failureThreshold config <=? 0)%Z
              /\ ((1 <= failureThreshold config)%Z ->
                  shouldDisable a = false /\ disableReason a = [])).
  { unfold a, analyzeRuns, safelisted.
    cbn [shouldDisable disableReason length filter count_consecutive].
    unfold decide.
    destruct (includes_str _ _); simpl;
      [split; [reflexivity | split; reflexivity]|].
    rewrite andb_false_r, andb_diag.
    destruct (failureThreshold config <=? 0)%Z eqn:Hz; simpl.
    - split; [reflexivity|]. intros H. apply Z.leb_le in Hz. lia.
    - split; [reflexivity|]. intros _. split; reflexivity. }
  destruct H as [Hiff Hone]. split; [exact Hiff|]. split; [exact Hone|].
  intros Hvalid. apply Hone, valid_failureThreshold, Hvalid.
Qed.

(** C7 does not hold for every threshold: with a failure threshold of 0 an
    empty history meets the first rule, since its 0 consecutive failures
    reach the threshold, and the workflow is flagged. *)
Lemma no_runs_flagged_at_threshold_zero :
  let a := analyzeRuns zero_threshold_config "index" ci_workflow [] [] in
  totalRuns a = 0%nat
  /\ shouldDisable a = true
  /\ disableReason a = ["0 consecutive failures (threshold: 0)"].
Proof. repeat split. Qed.

(** [validateConfig] refuses such a threshold. *)
Remark zero_threshold_refused :
  validateConfig zero_threshold_config
  = Throw (Error "Failure threshold must be at least 1")
  /\ shouldDisable (analyzeRuns zero_threshold_config "index" ci_workflow [] [])
     = true.
Proof. split; reflexivity. Qed.

Lemma no_runs_never_disabled_witness :
  (1 <= failureThreshold default_config)%Z
  /\ shouldDisable (analyzeRuns default_config "index" ci_workflow [] []) = false.
Proof.
  assert (H : (1 <= failureThreshold default_config)%Z)
    by (change (1 <= 3)%Z; lia).
  split; [exact H|].
  destruct (no_runs_never_disabled default_config "index" ci_workflow [])
    as (_ & _ & _ & _ & _ & Hone & _).
  apply Hone. exact H.
Defined.

(** ** The analysis pass *)

Section Pass.

Variable E : AnalyzerEnv.
Variable config : Config.

Lemma analyzeWorkflows_length (repo : string) (ws : list WorkflowInfo) (t : nat) :
  length (fst (analyzeWorkflows E config repo ws t)) = length ws.
Proof.
  revert t. induction ws as [|w ws IH]; intros t; simpl; [reflexivity|].
  specialize (IH (S t)).
  destruct (analyzeWorkflows E config repo ws (S t)) as [others t'].
  simpl in *. rewrite IH. reflexivity.
Qed.


Lemma analyzeRepository_name (repo : string) (t : nat) :
  ra_repository (fst (analyzeRepository E config repo t)) = repo.
Proof.
  unfold analyzeRepository.
  destruct (analyzeWorkflows E config repo _ t). reflexivity.
Qed.

Lemma analyzeRepository_workflows (repo : string) (t : nat) :
  workflows (fst (analyzeRepository E config repo t))
  = fst (analyzeWorkflows E config repo (getWorkflows (octokit E) config repo) t).
Proof.
  unfold analyzeRepository.
  destruct (analyzeWorkflows E config repo _ t). reflexivity.
Qed.

Lemma analyzeRepository_empty (repo : string) (t : nat) :
  getWorkflows (octokit E) config repo = [] ->
  workflows (fst (analyzeRepository E config repo t)) = [].
Proof.
  intros H. rewrite analyzeRepository_workflows, H. reflexivity.
Qed.




(** Every recorded repository comes from the list and has workflows. *)
Lemma analyzeRepositories_sound (repos : list string) (acc : Totals) (t : nat)
    (ra : RepositoryAnalysis) :
  In ra (repositoryAnalyses (fst (analyzeRepositories E config repos acc t))) ->
  In ra (repositoryAnalyses acc)
  \/ (In (ra_repository ra) repos
      /\ getWorkflows (octokit E) config (ra_repository ra) <> []).
Proof.
  revert acc t. induction repos as [|repo repos IH]; intros acc t H; simpl in H.
  - left. exact H.
  - pose proof (analyzeRepository_name repo t) as Hname.
    pose proof (analyzeRepository_empty repo t) as Hempty.
    destruct (analyzeRepository E config repo t) as [repoAnalysis t'].
    simpl in Hname, Hempty.
    destruct (IH _ _ H) as [Hacc|[Hin Hws]].
    + unfold record_repository in Hacc.
      destruct (0 <? length (workflows repoAnalysis))%nat eqn:Hlen.
      * simpl in Hacc. apply in_app_or in Hacc.
        destruct Hacc as [Hacc|[<-|[]]]; [left; exact Hacc|].
        right. rewrite Hname. split; [left; reflexivity|].
        intros Hnone. rewrite (Hempty Hnone) in Hlen. discriminate Hlen.
      * left. exact Hacc.
    + right. split; [right; exact Hin | exact Hws].
Qed.



Lemma analyze_inv (t : nat) (report : AnalysisReport) :
  analyze E config t = Ok report ->
  exists repos,
    getOrganizationRepositories (octokit E) config = Ok repos
    /\ repositories report
       = repositoryAnalyses (fst (analyzeRepositories E config repos no_totals t))
    /\ totalRepositories report = length (repositories report).
Proof.
  unfold analyze. destruct (checkRateLimit (octokit E)); [|discriminate].
  destruct (getOrganizationRepositories (octokit E) config) as [repos|];
    [|discriminate].
  destruct (analyzeRepositories E config repos no_totals t) as [acc t'] eqn:Hacc.
  intros H. injection H as <-. exists repos. rewrite Hacc.
  split; [reflexivity|]. split; reflexivity.
Qed.

Lemma report_repositories_have_workflows (t : nat) (report : AnalysisReport)
    (repo : string) :
  analyze E config t = Ok report ->
  In repo (map ra_repository (repositories report)) ->
  getWorkflows (octokit E) config repo <> [].
Proof.
  intros Hrep Hin. destruct (analyze_inv t report Hrep) as [repos [_ [Heq _]]].
  rewrite Heq in Hin. apply in_map_iff in Hin. destruct Hin as [ra [<- Hra]].
  destruct (analyzeRepositories_sound repos no_totals t ra Hra) as [[]|[_ H]].
  exact H.
Qed.

(** C9. A repository for which the data source reports no workflow does not
    appear in the repository list of the report, and the report's count of
    repositories is the length of that list. *)
Theorem empty_repositories_skipped (t : nat) (report : AnalysisReport) :
  analyze E config t = Ok report ->
  (forall repo,
      getWorkflows (octokit E) config repo = [] ->
      ~ In repo (map ra_repository (repositories report)))
  /\ totalRepositories report = length (repositories report).
Proof.
  intros Hrep. split.
  - intros repo Hnone Hin.
    exact (report_repositories_have_workflows t report repo Hrep Hin Hnone).
  - destruct (analyze_inv t report Hrep) as [repos [_ [_ H]]]. exact H.
Qed.





End Pass.

Lemma empty_repositories_skipped_witness :
  exists report,
    analyze sample_env default_config 0 = Ok report
    /\ getWorkflows (octokit sample_env) default_config "docs" = []
    /\ ~ In "docs" (map ra_repository (repositories report))
    /\ totalRepositories report = 1%nat.
Proof.
  eexists. split; [reflexivity|]. split; [reflexivity|].
  destruct (empty_repositories_skipped sample_env default_config 0 _ eq_refl)
    as [Hskip Hcount].
  split; [apply Hskip; reflexivity | exact Hcount].
Defined.



(** ** The lifecycle manager: what a computation leaves alone *)

Section Frames.

Context {X : Type} (part : World -> X).

Lemma keeps_ret {A} (a : A) : keeps part (ret a).
Proof. intros w. reflexivity. Qed.

Lemma keeps_throw {A} (e : JsError) : keeps part (@throw A e).
Proof. intros w. reflexivity. Qed.

Lemma keeps_bind {A B} (m : M A) (k : A -> M B) :
  keeps part m -> (forall a, keeps part (k a)) -> keeps part (bind m k).
Proof.
  intros Hm Hk w. unfold bind. specialize (Hm w).
  destruct (m w) as [[a|e] w1]; simpl in *.
  - rewrite (Hk a w1). exact Hm.
  - exact Hm.
Qed.

Lemma keeps_try_catch {A} (m : M A) (handler : JsError -> M A) :
  keeps part m -> (forall e, keeps part (handler e)) ->
  keeps part (try_catch m handler).
Proof.
  intros Hm Hh w. unfold try_catch. specialize (Hm w).
  destruct (m w) as [[a|e] w1]; simpl in *.
  - exact Hm.
  - rewrite (Hh e w1). exact Hm.
Qed.

End Frames.

Lemma keeps_durable_manifests {A} (m : M A) :
  keeps durable m -> keeps manifest_files m.
Proof.
  intros H w. specialize (H w). unfold durable in H. congruence.
Qed.

(** ** Objects and filters *)

Lemma filter_filter {A} (f g : A -> bool) (l : list A) :
  filter g (filter f l) = filter (fun x => f x && g x) l.
Proof.
  induction l as [|x l IH]; simpl; [reflexivity|].
  destruct (f x); simpl; [|exact IH].
  destruct (g x); rewrite IH; reflexivity.
Qed.

Lemma filter_true {A} (f : A -> bool) (l : list A) :
  (forall x, In x l -> f x = true) -> filter f l = l.
Proof.
  induction l as [|x l IH]; intros H; simpl; [reflexivity|].
  rewrite (H x (or_introl eq_refl)), IH; [reflexivity|].
  intros y Hy. apply H. right. exact Hy.
Qed.

Lemma select_workflows_filter (options : RestoreOptions)
    (candidates : list (nat * DisabledWorkflow)) :
  select_workflows options candidates
  = filter (fun o => selected options (snd o)) candidates.
Proof.
  unfold select_workflows, selected.
  destruct (truthy (repo options)), (truthy (workflow options)).
  - apply filter_filter.
  - apply filter_ext. intros o. rewrite andb_true_r. reflexivity.
  - reflexivity.
  - symmetry. apply filter_true. reflexivity.
Qed.

Lemma numbered_from (A : Type) (l : list A) (s : nat) (o : nat * A) :
  In o (combine (seq s (length l)) l) -> (s <= fst o)%nat.
Proof.
  revert s. induction l as [|x l IH]; intros s H; simpl in H; [destruct H|].
  destruct H as [<-|H]; [simpl; lia|].
  apply IH in H. lia.
Qed.

Lemma numbered_distinct (A : Type) (l : list A) (s : nat) (o o' : nat * A) :
  In o (combine (seq s (length l)) l) ->
  In o' (combine (seq s (length l)) l) ->
  fst o = fst o' -> o = o'.
Proof.
  revert s. induction l as [|x l IH]; intros s H H' Heq; simpl in H, H';
    [destruct H|].
  destruct H as [<-|H], H' as [<-|H'].
  - reflexivity.
  - apply numbered_from in H'. simpl in Heq. lia.
  - apply numbered_from in H. simpl in Heq. lia.
  - exact (IH (S s) H H' Heq).
Qed.

Lemma objects_of_In (A : Type) (l : list A) (x : A) :
  In x l -> exists n, In (n, x) (objects_of l).
Proof.
  unfold objects_of. generalize 0%nat.
  induction l as [|y l IH]; intros s H; [destruct H|].
  simpl. destruct H as [->|H].
  - exists s. left. reflexivity.
  - destruct (IH (S s) H) as [n Hn]. exists n. right. exact Hn.
Qed.

(** Membership by identity in a selection of the objects of an array is the
    selecting predicate itself. *)
Lemma includes_obj_filter (A : Type) (l : list A) (p : nat * A -> bool)
    (o : nat * A) :
  In o (objects_of l) ->
  includes_obj (filter p (objects_of l)) o = p o.
Proof.
  intros Ho. unfold includes_obj. destruct (p o) eqn:Hp.
  - apply existsb_exists. exists o.
    split; [apply filter_In; split; assumption | apply Nat.eqb_refl].
  - apply not_true_is_false. intros H. apply existsb_exists in H.
    destruct H as [o' [Hin Heq]]. apply filter_In in Hin.
    destruct Hin as [Ho' Hp']. apply Nat.eqb_eq in Heq.
    rewrite (numbered_distinct A l 0 o' o Ho' Ho Heq) in Hp'. congruence.
Qed.

(** Lines 271-273: the objects that stay are those not selected. *)
Lemma remaining_objects (A : Type) (l : list A) (p : nat * A -> bool) :
  filter (fun o => negb (includes_obj (filter p (objects_of l)) o)) (objects_of l)
  = filter (fun o => negb (p o)) (objects_of l).
Proof.
  apply filter_ext_in. intros o Ho.
  rewrite (includes_obj_filter A l p o Ho). reflexivity.
Qed.

Lemma map_snd_filter_objects (A : Type) (q : A -> bool) (l : list A) :
  map snd (filter (fun o => negb (q (snd o))) (objects_of l))
  = filter (fun x => negb (q x)) l.
Proof.
  unfold objects_of. generalize 0%nat.
  induction l as [|x l IH]; intros s; simpl; [reflexivity|].
  destruct (q x); simpl; rewrite IH; reflexivity.
Qed.

(** Filtering out a predicate that holds at position [i] only removes the
    element at position [i]. *)
Lemma filter_all_but (A : Type) (l : list A) (q : A -> bool) (i : nat) (x : A) :
  nth_error l i = Some x ->
  q x = true ->
  (forall j y, j <> i -> nth_error l j = Some y -> q y = false) ->
  filter (fun y => negb (q y)) l = firstn i l ++ skipn (S i) l.
Proof.
  revert i. induction l as [|y l IH]; intros i Hnth Hq Hothers.
  - destruct i; discriminate Hnth.
  - destruct i as [|i]; simpl in Hnth.
    + injection Hnth as ->. simpl. rewrite Hq. simpl.
      apply filter_true. intros z Hz.
      destruct (In_nth_error _ _ Hz) as [j Hj].
      rewrite (Hothers (S j) z); [reflexivity | lia | exact Hj].
    + simpl. rewrite (Hothers 0%nat y); [|lia|reflexivity]. simpl. f_equal.
      apply IH; [exact Hnth | exact Hq|].
      intros j z Hj Hz. apply (Hothers (S j) z); [lia | exact Hz].
Qed.

Section Lifecycle.

Variable E : DisablerEnv.
Variable config : Config.

Lemma now_durable : keeps durable (now E).
Proof. intros w. reflexivity. Qed.

Lemma fs_call_durable : keeps durable (fs_call E).
Proof. intros w. unfold fs_call. destruct (fs_outcome E _); reflexivity. Qed.

Lemma ensureDir_durable (dir : string) : keeps durable (ensureDir E dir).
Proof.
  apply keeps_bind; [apply fs_call_durable | intros _ w; reflexivity].
Qed.

Lemma manifest_exists_durable (file : string) :
  keeps durable (manifest_exists file).
Proof. intros w. reflexivity. Qed.

Lemma read_manifest_durable (file : string) :
  keeps durable (read_manifest E file).
Proof.
  apply keeps_bind; [apply fs_call_durable|].
  intros _ w. destruct (manifest_at file w); reflexivity.
Qed.

Lemma addEntry_manifests (entry : string -> AuditLogEntry) :
  keeps manifest_files (addEntry E entry).
Proof.
  unfold addEntry.
  apply keeps_bind; [apply keeps_durable_manifests, now_durable|]. intros ts.
  apply keeps_bind; [intros w; reflexivity|]. intros _.
  apply keeps_bind; [apply keeps_durable_manifests, fs_call_durable|].
  intros _ w. reflexivity.
Qed.

Lemma disableWorkflow_dry_durable (r : string) (a : WorkflowAnalysis) :
  keeps durable (disableWorkflow E config r a true).
Proof.
  unfold disableWorkflow.
  apply keeps_bind; [apply now_durable|]. intros stamp.
  apply keeps_bind; [apply now_durable|]. intros disabled_at.
  apply keeps_ret.
Qed.

Lemma disableWorkflow_manifests (r : string) (a : WorkflowAnalysis) (dry : bool) :
  keeps manifest_files (disableWorkflow E config r a dry).
Proof.
  destruct dry; [apply keeps_durable_manifests, disableWorkflow_dry_durable|].
  unfold disableWorkflow.
  apply keeps_bind; [apply keeps_durable_manifests, now_durable|]. intros stamp.
  apply keeps_bind; [apply keeps_durable_manifests, now_durable|].
  intros disabled_at. simpl.
  apply keeps_bind.
  { apply keeps_bind; [apply keeps_durable_manifests, fs_call_durable|].
    intros _ w. reflexivity. }
  intros _. apply keeps_bind; [apply addEntry_manifests|].
  intros _. apply keeps_ret.
Qed.

Lemma disable_failed_manifests (r : string) (a : WorkflowAnalysis) (e : JsError)
    (acc : list DisabledWorkflow) :
  keeps manifest_files (disable_failed E r a e acc).
Proof.
  apply keeps_bind; [apply addEntry_manifests | intros _; apply keeps_ret].
Qed.

Lemma disable_one_dry_durable (r : string) (a : WorkflowAnalysis)
    (acc : list DisabledWorkflow) :
  keeps durable (disable_one E config r true a acc).
Proof.
  intros w. unfold disable_one.
  pose proof (disableWorkflow_dry_durable r a w) as H.
  unfold disableWorkflow in *. simpl in *. exact H.
Qed.

Lemma disable_one_manifests (r : string) (dry : bool) (a : WorkflowAnalysis)
    (acc : list DisabledWorkflow) :
  keeps manifest_files (disable_one E config r dry a acc).
Proof.
  intros w. unfold disable_one.
  pose proof (disableWorkflow_manifests r a dry w) as H.
  destruct (disableWorkflow E config r a dry w) as [[d|e] w1]; simpl in H.
  - destruct dry; [exact H|].
    pose proof (addEntry_manifests (disable_entry r a d) w1) as H1.
    destruct (addEntry E (disable_entry r a d) w1) as [[u|e] w2]; simpl in *.
    + congruence.
    + rewrite (disable_failed_manifests r a e _ w2). congruence.
  - rewrite (disable_failed_manifests r a e acc w1). exact H.
Qed.

Lemma disable_each_dry_durable (r : string) (failing : list WorkflowAnalysis)
    (acc : list DisabledWorkflow) :
  keeps durable (disable_each E config r true failing acc).
Proof.
  revert acc. induction failing as [|a failing IH]; intros acc; simpl.
  - apply keeps_ret.
  - apply keeps_bind; [apply disable_one_dry_durable | intros acc'; apply IH].
Qed.

Lemma disable_each_manifests (r : string) (dry : bool)
    (failing : list WorkflowAnalysis) (acc : list DisabledWorkflow) :
  keeps manifest_files (disable_each E config r dry failing acc).
Proof.
  revert acc. induction failing as [|a failing IH]; intros acc; simpl.
  - apply keeps_ret.
  - apply keeps_bind; [apply disable_one_manifests | intros acc'; apply IH].
Qed.

Lemma disable_repositories_dry_durable (repos : list RepositoryAnalysis)
    (acc : list DisabledWorkflow) :
  keeps durable (disable_repositories E config true repos acc).
Proof.
  revert acc. induction repos as [|r repos IH]; intros acc; simpl.
  - apply keeps_ret.
  - destruct (Nat.eqb _ 0); [apply IH|].
    apply keeps_bind; [apply disable_each_dry_durable | intros acc'; apply IH].
Qed.

Lemma disable_repositories_manifests (dry : bool)
    (repos : list RepositoryAnalysis) (acc : list DisabledWorkflow) :
  keeps manifest_files (disable_repositories E config dry repos acc).
Proof.
  revert acc. induction repos as [|r repos IH]; intros acc; simpl.
  - apply keeps_ret.
  - destruct (Nat.eqb _ 0); [apply IH|].
    apply keeps_bind; [apply disable_each_manifests | intros acc'; apply IH].
Qed.

Lemma restore_one_dry_durable (d : DisabledWorkflow) :
  keeps durable (restore_one E true d).
Proof. intros w. reflexivity. Qed.

Lemma restore_one_manifests (dry : bool) (d : DisabledWorkflow) :
  keeps manifest_files (restore_one E dry d).
Proof.
  unfold restore_one. apply keeps_try_catch.
  - apply keeps_bind; [apply keeps_ret|]. intros _.
    destruct dry; simpl; [apply keeps_ret | apply addEntry_manifests].
  - intros e. apply addEntry_manifests.
Qed.

Lemma restore_each_dry_durable (ws : list (nat * DisabledWorkflow)) :
  keeps durable (restore_each E true ws).
Proof.
  induction ws as [|o ws IH]; simpl.
  - apply keeps_ret.
  - apply keeps_bind; [apply restore_one_dry_durable | intros _; exact IH].
Qed.

Lemma restore_each_manifests (dry : bool) (ws : list (nat * DisabledWorkflow)) :
  keeps manifest_files (restore_each E dry ws).
Proof.
  induction ws as [|o ws IH]; simpl.
  - apply keeps_ret.
  - apply keeps_bind; [apply restore_one_manifests | intros _; exact IH].
Qed.

Lemma restoreWorkflows_dry_durable (manifestPath : string)
    (options : RestoreOptions) :
  opt_dryRun options <> Some false ->
  keeps durable (restoreWorkflows E manifestPath options).
Proof.
  intros Hdry. unfold restoreWorkflows.
  assert (Hd : match opt_dryRun options with Some b => b | None => true end
               = true).
  { destruct (opt_dryRun options) as [[|]|]; congruence. }
  rewrite Hd. simpl.
  apply keeps_bind; [apply manifest_exists_durable|]. intros found.
  destruct found; simpl; [|apply keeps_throw].
  apply keeps_bind; [apply read_manifest_durable|]. intros manifest.
  destruct (Nat.eqb _ 0); [apply keeps_ret|].
  apply keeps_bind; [apply restore_each_dry_durable | intros _; apply keeps_ret].
Qed.

(** *** A disable transition on a reliable file system *)

Lemma bind_ok {A B} (m : M A) (k : A -> M B) (w w1 : World) (a : A) :
  m w = (Ok a, w1) -> bind m k w = k a w1.
Proof. intros H. unfold bind. rewrite H. reflexivity. Qed.

Lemma now_ok (w : World) :
  exists w',
    now E w = (Ok (time_iso E (clock w)), w') /\ clock w' = S (clock w).
Proof. eexists. split; reflexivity. Qed.

Lemma push_entry_ok (entry : AuditLogEntry) (w : World) :
  exists w', push_entry entry w = (Ok tt, w') /\ clock w' = clock w.
Proof. eexists. split; reflexivity. Qed.

Lemma fs_call_ok (w : World) :
  reliable E ->
  exists w',
    fs_call E w = (Ok tt, w')
    /\ clock w' = clock w /\ manifest_files w' = manifest_files w.
Proof.
  intros Hok. unfold fs_call. rewrite Hok. eexists.
  split; [reflexivity|]. split; reflexivity.
Qed.

Lemma save_ok (w : World) :
  reliable E -> exists w', save E w = (Ok tt, w') /\ clock w' = clock w.
Proof.
  intros Hok. unfold save.
  destruct (fs_call_ok w Hok) as [w1 [H1 [Hc1 _]]].
  rewrite (bind_ok _ _ _ _ _ H1). eexists. split; [reflexivity | exact Hc1].
Qed.

Lemma write_backup_ok (file : string) (a : WorkflowAnalysis) (w : World) :
  reliable E ->
  exists w', write_backup E file a w = (Ok tt, w') /\ clock w' = clock w.
Proof.
  intros Hok. unfold write_backup.
  destruct (fs_call_ok w Hok) as [w1 [H1 [Hc1 _]]].
  rewrite (bind_ok _ _ _ _ _ H1). eexists. split; [reflexivity | exact Hc1].
Qed.

Lemma write_manifest_ok (file : string) (m : DisabledWorkflowsManifest)
    (w : World) :
  reliable E ->
  exists w',
    write_manifest E file m w = (Ok tt, w')
    /\ manifest_files w' = (file, m) :: manifest_files w.
Proof.
  intros Hok. unfold write_manifest.
  destruct (fs_call_ok w Hok) as [w1 [H1 [_ Hm1]]].
  rewrite (bind_ok _ _ _ _ _ H1). eexists. split; [reflexivity|].
  simpl. rewrite Hm1. reflexivity.
Qed.

Lemma ensureDir_ok (dir : string) (w : World) :
  reliable E ->
  exists w',
    ensureDir E dir w = (Ok tt, w')
    /\ clock w' = clock w /\ manifest_files w' = manifest_files w.
Proof.
  intros Hok. unfold ensureDir.
  destruct (fs_call_ok w Hok) as [w1 [H1 [Hc1 Hm1]]].
  rewrite (bind_ok _ _ _ _ _ H1). eexists. split; [reflexivity|].
  split; [exact Hc1 | exact Hm1].
Qed.

Lemma addEntry_ok (entry : string -> AuditLogEntry) (w : World) :
  reliable E ->
  exists w', addEntry E entry w = (Ok tt, w') /\ clock w' = S (clock w).
Proof.
  intros Hok. unfold addEntry.
  destruct (now_ok w) as [w1 [H1 Hc1]]. rewrite (bind_ok _ _ _ _ _ H1).
  destruct (push_entry_ok (entry (time_iso E (clock w))) w1) as [w2 [H2 Hc2]].
  rewrite (bind_ok _ _ _ _ _ H2).
  destruct (save_ok w2 Hok) as [w3 [H3 Hc3]].
  exists w3. split; [exact H3 | congruence].
Qed.

Lemma disableWorkflow_ok (r : string) (a : WorkflowAnalysis) (w : World) :
  reliable E ->
  exists w',
    disableWorkflow E config r a false w
    = (Ok (disabled_record E config r a (time_iso E (clock w))
                           (time_iso E (S (clock w)))), w')
    /\ clock w' = (3 + clock w)%nat.
Proof.
  intros Hok. unfold disableWorkflow.
  destruct (now_ok w) as [w1 [H1 Hc1]]. rewrite (bind_ok _ _ _ _ _ H1).
  destruct (now_ok w1) as [w2 [H2 Hc2]]. rewrite (bind_ok _ _ _ _ _ H2).
  rewrite Hc1. cbv zeta. change (negb false) with true. cbv iota.
  set (d := disabled_record E config r a (time_iso E (clock w))
                            (time_iso E (S (clock w)))).
  destruct (write_backup_ok (backupPath d) a w2 Hok) as [w3 [H3 Hc3]].
  rewrite (bind_ok _ _ _ _ _ H3).
  destruct (addEntry_ok (backup_entry r a (backupPath d)) w3 Hok)
    as [w4 [H4 Hc4]].
  rewrite (bind_ok _ _ _ _ _ H4).
  exists w4. split; [reflexivity | lia].
Qed.

Lemma disable_one_ok (r : string) (a : WorkflowAnalysis)
    (acc : list DisabledWorkflow) (w : World) :
  reliable E ->
  exists w',
    disable_one E config r false a acc w
    = (Ok (acc ++ [disabled_record E config r a (time_iso E (clock w))
                                   (time_iso E (S (clock w)))]), w')
    /\ clock w' = (4 + clock w)%nat.
Proof.
  intros Hok. unfold disable_one.
  destruct (disableWorkflow_ok r a w Hok) as [w1 [-> Hc1]].
  destruct (addEntry_ok (disable_entry r a
              (disabled_record E config r a (time_iso E (clock w))
                 (time_iso E (S (clock w))))) w1 Hok) as [w2 [-> Hc2]].
  exists w2. split; [reflexivity | lia].
Qed.

Lemma built_records_app (t : nat) (l1 l2 : list (string * WorkflowAnalysis)) :
  built_records E config t (l1 ++ l2)
  = built_records E config t l1
    ++ built_records E config (4 * length l1 + t) l2.
Proof.
  revert t. induction l1 as [|[r a] l1 IH]; intros t; simpl; [reflexivity|].
  rewrite IH. do 3 f_equal. lia.
Qed.

Lemma built_records_length (t : nat) (l : list (string * WorkflowAnalysis)) :
  length (built_records E config t l) = length l.
Proof.
  revert t. induction l as [|[r a] l IH]; intros t; simpl; [reflexivity|].
  rewrite IH. reflexivity.
Qed.

Lemma built_records_origin (t : nat) (l : list (string * WorkflowAnalysis)) :
  map (fun d => (dw_repository d, analysis d)) (built_records E config t l) = l.
Proof.
  revert t. induction l as [|[r a] l IH]; intros t; simpl; [reflexivity|].
  rewrite IH. reflexivity.
Qed.

Lemma disable_each_ok (r : string) (failing : list WorkflowAnalysis)
    (acc : list DisabledWorkflow) (w : World) :
  reliable E ->
  exists w',
    disable_each E config r false failing acc w
    = (Ok (acc ++ built_records E config (clock w) (map (pair r) failing)), w')
    /\ clock w' = (4 * length failing + clock w)%nat.
Proof.
  intros Hok. revert acc w.
  induction failing as [|a failing IH]; intros acc w; simpl.
  - exists w. rewrite app_nil_r. split; reflexivity.
  - destruct (disable_one_ok r a acc w Hok) as [w1 [H1 Hc1]].
    rewrite (bind_ok _ _ _ _ _ H1).
    destruct (IH (acc ++ [disabled_record E config r a (time_iso E (clock w))
                            (time_iso E (S (clock w)))]) w1) as [w2 [H2 Hc2]].
    exists w2. rewrite H2, Hc1, <- app_assoc. split; [reflexivity | lia].
Qed.

Lemma disable_repositories_ok (repos : list RepositoryAnalysis)
    (acc : list DisabledWorkflow) (w : World) :
  reliable E ->
  let fl := flat_map (fun r => map (pair (ra_repository r))
                                   (filter shouldDisable (workflows r))) repos in
  exists w',
    disable_repositories E config false repos acc w
    = (Ok (acc ++ built_records E config (clock w) fl), w')
    /\ clock w' = (4 * length fl + clock w)%nat.
Proof.
  intros Hok. revert acc w.
  induction repos as [|r repos IH]; intros acc w; simpl.
  - exists w. rewrite app_nil_r. split; reflexivity.
  - destruct (filter shouldDisable (workflows r)) as [|a failing] eqn:Hf.
    + simpl. apply IH.
    + cbn [length Nat.eqb]. rewrite <- Hf.
      destruct (disable_each_ok (ra_repository r)
                  (filter shouldDisable (workflows r)) acc w Hok)
        as [w1 [H1 Hc1]].
      rewrite (bind_ok _ _ _ _ _ H1).
      destruct (IH (acc ++ built_records E config (clock w)
                             (map (pair (ra_repository r))
                                  (filter shouldDisable (workflows r)))) w1)
        as [w2 [H2 Hc2]].
      exists w2. rewrite H2, Hc1, built_records_app, <- app_assoc.
      rewrite !length_app, !length_map in *.
      split; [reflexivity | lia].
Qed.

Lemma manifest_at_written (file : string) (m : DisabledWorkflowsManifest)
    (w : World) :
  manifest_files w = (file, m) :: tl (manifest_files w) ->
  manifest_at file w = Some m.
Proof.
  intros H. unfold manifest_at. rewrite H. simpl.
  rewrite String.eqb_refl. reflexivity.
Qed.

(** The manifest a disable transition writes when no file-system call
    fails. *)
Lemma disableWorkflows_ok (report : AnalysisReport) (w : World) :
  reliable E ->
  let m := {| dm_timestamp :=
                time_iso E (4 * length (flagged report) + clock w);
              disabledWorkflows :=
                built_records E config (clock w) (flagged report) |} in
  exists w',
    disableWorkflows E config report false w = (Ok m, w')
    /\ manifest_files w' = (manifest_path, m) :: manifest_files w.
Proof.
  intros Hok m. unfold disableWorkflows.
  destruct (ensureDir_ok (backupDirectory config) w Hok) as [w0 [H0 [Hc0 Hm0]]].
  rewrite (bind_ok _ _ _ _ _ H0).
  destruct (disable_repositories_ok (repositories report) [] w0 Hok)
    as [w1 [H1 Hc1]].
  pose proof (disable_repositories_manifests false (repositories report) [] w0)
    as Hm1.
  rewrite H1 in Hm1. simpl in Hm1, H1.
  rewrite (bind_ok _ _ _ _ _ H1).
  destruct (now_ok w1) as [w2 [H2 Hc2]]. rewrite (bind_ok _ _ _ _ _ H2).
  assert (Hm2 : manifest_files w2 = manifest_files w1).
  { pose proof (keeps_durable_manifests _ now_durable w1) as H.
    rewrite H2 in H. exact H. }
  change (negb false) with true. cbv iota.
  assert (Hstamp : time_iso E (clock w1) = dm_timestamp m).
  { unfold m, flagged. simpl. rewrite Hc1, Hc0. reflexivity. }
  rewrite Hstamp.
  change {| dm_timestamp := dm_timestamp m;
            disabledWorkflows :=
              built_records E config (clock w0)
                (flat_map (fun r => map (pair (ra_repository r))
                                        (filter shouldDisable (workflows r)))
                          (repositories report)) |}
    with {| dm_timestamp := dm_timestamp m;
            disabledWorkflows := built_records E config (clock w0)
                                   (flagged report) |}.
  rewrite Hc0.
  change {| dm_timestamp := dm_timestamp m;
            disabledWorkflows := built_records E config (clock w)
                                   (flagged report) |} with m.
  destruct (write_manifest_ok manifest_path m w2 Hok) as [w3 [H3 Hm3]].
  rewrite (bind_ok _ _ _ _ _ H3).
  exists w3. split; [reflexivity|]. rewrite Hm3, Hm2, Hm1, Hm0. reflexivity.
Qed.

(** *** What any disable transition persists *)

Lemma disableWorkflow_origin (r : string) (a : WorkflowAnalysis) (dry : bool)
    (w w' : World) (d : DisabledWorkflow) :
  disableWorkflow E config r a dry w = (Ok d, w') ->
  dw_repository d = r /\ analysis d = a.
Proof.
  unfold disableWorkflow, bind, now. simpl. destruct dry; simpl.
  - unfold ret. intros H. injection H as <- _. split; reflexivity.
  - destruct (write_backup E _ a _) as [[u|e] w1]; [|discriminate].
    destruct (addEntry E _ w1) as [[u'|e] w2]; [|discriminate].
    unfold ret. intros H. injection H as <- _. split; reflexivity.
Qed.

Lemma disable_failed_acc (r : string) (a : WorkflowAnalysis) (e : JsError)
    (acc acc' : list DisabledWorkflow) (w w' : World) :
  disable_failed E r a e acc w = (Ok acc', w') -> acc' = acc.
Proof.
  unfold disable_failed, bind.
  destruct (addEntry E _ w) as [[u|e'] w1]; [|discriminate].
  unfold ret. intros H. injection H as <- _. reflexivity.
Qed.

Section Origin.

Variable fl : list (string * WorkflowAnalysis).

Lemma disable_one_origin (r : string) (dry : bool) (a : WorkflowAnalysis)
    (acc acc' : list DisabledWorkflow) (w w' : World) :
  In (r, a) fl ->
  Forall (from_flagged fl) acc ->
  disable_one E config r dry a acc w = (Ok acc', w') ->
  Forall (from_flagged fl) acc'.
Proof.
  intros Hin Hacc. unfold disable_one.
  destruct (disableWorkflow E config r a dry w) as [[d|e] w1] eqn:Hd.
  - destruct (disableWorkflow_origin r a dry w w1 d Hd) as [Hr Ha].
    assert (Hpushed : Forall (from_flagged fl) (acc ++ [d])).
    { apply Forall_app. split; [exact Hacc|]. constructor; [|constructor].
      unfold from_flagged. rewrite Hr, Ha. exact Hin. }
    destruct dry.
    + intros H. injection H as <- _. exact Hpushed.
    + destruct (addEntry E _ w1) as [[u|e] w2].
      * intros H. injection H as <- _. exact Hpushed.
      * intros H. apply disable_failed_acc in H. subst. exact Hpushed.
  - intros H. apply disable_failed_acc in H. subst. exact Hacc.
Qed.

Lemma disable_each_origin (r : string) (dry : bool)
    (failing : list WorkflowAnalysis) (acc acc' : list DisabledWorkflow)
    (w w' : World) :
  (forall a, In a failing -> In (r, a) fl) ->
  Forall (from_flagged fl) acc ->
  disable_each E config r dry failing acc w = (Ok acc', w') ->
  Forall (from_flagged fl) acc'.
Proof.
  revert acc w. induction failing as [|a failing IH]; intros acc w Hin Hacc; simpl.
  - unfold ret. intros H. injection H as <- _. exact Hacc.
  - unfold bind.
    destruct (disable_one E config r dry a acc w) as [[acc1|e] w1] eqn:H1;
      [|discriminate].
    apply IH.
    + intros a' Ha'. apply Hin. right. exact Ha'.
    + apply (disable_one_origin r dry a acc acc1 w w1); auto.
      apply Hin. left. reflexivity.
Qed.

Lemma disable_repositories_origin (dry : bool) (repos : list RepositoryAnalysis)
    (acc acc' : list DisabledWorkflow) (w w' : World) :
  (forall r a, In r repos -> In a (filter shouldDisable (workflows r)) ->
               In (ra_repository r, a) fl) ->
  Forall (from_flagged fl) acc ->
  disable_repositories E config dry repos acc w = (Ok acc', w') ->
  Forall (from_flagged fl) acc'.
Proof.
  revert acc w. induction repos as [|r repos IH]; intros acc w Hin Hacc; simpl.
  - unfold ret. intros H. injection H as <- _. exact Hacc.
  - assert (Hrest : forall r' a, In r' repos ->
                      In a (filter shouldDisable (workflows r')) ->
                      In (ra_repository r', a) fl)
      by (intros r' a Hr'; apply Hin; right; exact Hr').
    destruct (Nat.eqb _ 0); [apply IH; assumption|].
    unfold bind.
    destruct (disable_each E config (ra_repository r) dry
                (filter shouldDisable (workflows r)) acc w)
      as [[acc1|e] w1] eqn:H1; [|discriminate].
    apply IH; [exact Hrest|].
    apply (disable_each_origin (ra_repository r) dry
             (filter shouldDisable (workflows r)) acc acc1 w w1); auto.
    intros a Ha. apply Hin; [left; reflexivity | exact Ha].
Qed.

End Origin.

Lemma subsequence_nil_l {A} (l : list A) : subsequence [] l.
Proof. induction l; constructor; assumption. Qed.

Lemma subsequence_refl {A} (l : list A) : subsequence l l.
Proof. induction l; constructor; assumption. Qed.

Lemma subsequence_app {A} (a b c d : list A) :
  subsequence a b -> subsequence c d -> subsequence (a ++ c) (b ++ d).
Proof.
  intros Hab Hcd. induction Hab; simpl;
    [exact Hcd | constructor; assumption | constructor; assumption].
Qed.

(** Whatever fails, a turn of the loop pushes the record of its workflow or
    nothing. *)
Lemma disable_one_sub (r : string) (dry : bool) (a : WorkflowAnalysis)
    (acc acc' : list DisabledWorkflow) (w w' : World) :
  disable_one E config r dry a acc w = (Ok acc', w') ->
  exists pushed,
    acc' = acc ++ pushed
    /\ subsequence (map (fun d => (dw_repository d, analysis d)) pushed)
                   [(r, a)].
Proof.
  unfold disable_one.
  destruct (disableWorkflow E config r a dry w) as [[d|e] w1] eqn:Hd.
  - destruct (disableWorkflow_origin r a dry w w1 d Hd) as [Hr Ha].
    assert (Hone : subsequence
                     (map (fun d => (dw_repository d, analysis d)) [d])
                     [(r, a)])
      by (simpl; rewrite Hr, Ha; apply subsequence_refl).
    destruct dry.
    + intros H. injection H as <- _. exists [d]. split; [reflexivity | exact Hone].
    + destruct (addEntry E _ w1) as [[u|e] w2].
      * intros H. injection H as <- _. exists [d].
        split; [reflexivity | exact Hone].
      * intros H. apply disable_failed_acc in H. subst. exists [d].
        split; [reflexivity | exact Hone].
  - intros H. apply disable_failed_acc in H. subst. exists [].
    split; [symmetry; apply app_nil_r | apply subsequence_nil_l].
Qed.

Lemma disable_each_sub (r : string) (dry : bool)
    (failing : list WorkflowAnalysis) (acc acc' : list DisabledWorkflow)
    (w w' : World) :
  disable_each E config r dry failing acc w = (Ok acc', w') ->
  exists pushed,
    acc' = acc ++ pushed
    /\ subsequence (map (fun d => (dw_repository d, analysis d)) pushed)
                   (map (pair r) failing).
Proof.
  revert acc w. induction failing as [|a failing IH]; intros acc w; simpl.
  - unfold ret. intros H. injection H as <- _. exists [].
    split; [symmetry; apply app_nil_r | constructor].
  - unfold bind.
    destruct (disable_one E config r dry a acc w) as [[acc1|e] w1] eqn:H1;
      [|discriminate].
    intros H2.
    destruct (disable_one_sub r dry a acc acc1 w w1 H1) as [p1 [-> Hp1]].
    destruct (IH _ _ H2) as [p2 [-> Hp2]].
    exists (p1 ++ p2). split; [symmetry; apply app_assoc|].
    rewrite map_app.
    exact (subsequence_app _ [(r, a)] _ _ Hp1 Hp2).
Qed.

Lemma disable_repositories_sub (dry : bool) (repos : list RepositoryAnalysis)
    (acc acc' : list DisabledWorkflow) (w w' : World) :
  disable_repositories E config dry repos acc w = (Ok acc', w') ->
  exists pushed,
    acc' = acc ++ pushed
    /\ subsequence (map (fun d => (dw_repository d, analysis d)) pushed)
                   (flat_map (fun r => map (pair (ra_repository r))
                                           (filter shouldDisable (workflows r)))
                             repos).
Proof.
  revert acc w. induction repos as [|r repos IH]; intros acc w; simpl.
  - unfold ret. intros H. injection H as <- _. exists [].
    split; [symmetry; apply app_nil_r | constructor].
  - destruct (filter shouldDisable (workflows r)) as [|a failing] eqn:Hf.
    + simpl. apply IH.
    + cbn [length Nat.eqb]. rewrite <- Hf. unfold bind.
      destruct (disable_each E config (ra_repository r) dry
                  (filter shouldDisable (workflows r)) acc w)
        as [[acc1|e] w1] eqn:H1; [|discriminate].
      intros H2.
      destruct (disable_each_sub _ _ _ _ _ _ _ H1) as [p1 [-> Hp1]].
      destruct (IH _ _ H2) as [p2 [-> Hp2]].
      exists (p1 ++ p2). split; [symmetry; apply app_assoc|].
      rewrite map_app. exact (subsequence_app _ _ _ _ Hp1 Hp2).
Qed.

Lemma flagged_In (report : AnalysisReport) (r : RepositoryAnalysis)
    (a : WorkflowAnalysis) :
  In r (repositories report) ->
  In a (filter shouldDisable (workflows r)) ->
  In (ra_repository r, a) (flagged report).
Proof.
  intros Hr Ha. unfold flagged. apply in_flat_map. exists r.
  split; [exact Hr|]. apply in_map. exact Ha.
Qed.

(** A disable transition that returns has persisted the manifest it returns,
    and every record of it was built from a flagged workflow of the report. *)
Lemma disableWorkflows_persisted (report : AnalysisReport) (w w' : World)
    (m : DisabledWorkflowsManifest) :
  disableWorkflows E config report false w = (Ok m, w') ->
  manifest_at manifest_path w' = Some m
  /\ Forall (from_flagged (flagged report)) (disabledWorkflows m).
Proof.
  unfold disableWorkflows, bind.
  destruct (ensureDir E (backupDirectory config) w) as [[u|e] w0];
    [|discriminate].
  destruct (disable_repositories E config false (repositories report) [] w0)
    as [[ds|e] w1] eqn:H1; [|discriminate].
  unfold now, write_manifest, bind, fs_call, ret. simpl.
  destruct (fs_outcome E (fs_calls w1)); [discriminate|].
  intros H. injection H as <- <-. split.
  - apply manifest_at_written. reflexivity.
  - simpl.
    apply (disable_repositories_origin (flagged report) false
             (repositories report) [] ds w0 w1); [|constructor|exact H1].
    intros r a. apply flagged_In.
Qed.

(** The records of the manifest a disable transition returns stem from the
    flagged workflows of the report, at most one from each, in the order of
    the report. *)
Lemma disableWorkflows_sub (report : AnalysisReport) (dry : bool)
    (w w' : World) (m : DisabledWorkflowsManifest) :
  disableWorkflows E config report dry w = (Ok m, w') ->
  subsequence (origins m) (flagged report).
Proof.
  unfold disableWorkflows, bind.
  destruct (ensureDir E (backupDirectory config) w) as [[u|e] w0];
    [|discriminate].
  destruct (disable_repositories E config dry (repositories report) [] w0)
    as [[ds|e] w1] eqn:H1; [|discriminate].
  destruct (disable_repositories_sub _ _ _ _ _ _ H1) as [pushed [-> Hsub]].
  destruct (now E w1) as [[ts|e] w2]; [|discriminate].
  destruct ((if negb dry then write_manifest E manifest_path _ else ret tt) w2)
    as [[u'|e] w3]; [|discriminate].
  unfold ret. intros H. injection H as <- _. exact Hsub.
Qed.

(** C3. A disable transition that is not a dry run and returns has replaced
    the persisted manifest by the one it built, whatever manifest was
    persisted before: records of earlier transitions survive only if their
    workflow is flagged again.  Every record in it comes from a workflow
    flagged in the input report, at most one from each, in the order of the
    report.  When no file-system call fails the transition returns and the
    manifest holds exactly one record for each flagged workflow of the
    report. *)
Theorem disable_overwrites_manifest (report : AnalysisReport) (w : World) :
  (forall m w',
      disableWorkflows E config report false w = (Ok m, w') ->
      manifest_at manifest_path w' = Some m
      /\ Forall (from_flagged (flagged report)) (disabledWorkflows m)
      /\ subsequence (origins m) (flagged report))
  /\ (reliable E ->
      exists m w',
        disableWorkflows E config report false w = (Ok m, w')
        /\ manifest_at manifest_path w' = Some m
        /\ disabledWorkflows m
           = built_records E config (clock w) (flagged report)
        /\ map (fun d => (dw_repository d, analysis d)) (disabledWorkflows m)
           = flagged report).
Proof.
  split.
  - intros m w' Hrun.
    destruct (disableWorkflows_persisted report w w' m Hrun) as [Hat Hfrom].
    split; [exact Hat|]. split; [exact Hfrom|].
    exact (disableWorkflows_sub report false w w' m Hrun).
  - intros Hok. destruct (disableWorkflows_ok report w Hok) as [w' [Hrun Hfiles]].
    eexists. exists w'. split; [exact Hrun|].
    split; [apply (disableWorkflows_persisted report w w' _ Hrun)|].
    split; [reflexivity|]. simpl. apply built_records_origin.
Qed.

(** *** A restore transition on a reliable file system *)

Lemma restore_each_ok (ws : list (nat * DisabledWorkflow)) (w : World) :
  reliable E -> exists w', restore_each E false ws w = (Ok tt, w').
Proof.
  intros Hok. revert w. induction ws as [|o ws IH]; intros w; simpl.
  - exists w. reflexivity.
  - destruct (addEntry_ok (restore_entry (snd o)) w Hok) as [w1 [H1 _]].
    assert (Hone : restore_one E false (snd o) w = (Ok tt, w1)).
    { unfold restore_one, try_catch, restoreWorkflow. simpl.
      unfold bind at 1. simpl. rewrite H1. reflexivity. }
    rewrite (bind_ok _ _ _ _ _ Hone). apply IH.
Qed.

(** The manifest a restore transition writes when no file-system call fails
    and some record is selected: the records that are not selected stay, in
    their order, under the time stamp the manifest had. *)
Lemma restoreWorkflows_ok (manifestPath : string) (options : RestoreOptions)
    (m : DisabledWorkflowsManifest) (w : World) :
  reliable E ->
  manifest_at manifestPath w = Some m ->
  opt_dryRun options = Some false ->
  (exists d, In d (disabledWorkflows m) /\ selected options d = true) ->
  exists w',
    restoreWorkflows E manifestPath options w = (Ok tt, w')
    /\ manifest_at manifestPath w'
       = Some {| dm_timestamp := dm_timestamp m;
                 disabledWorkflows :=
                   filter (fun d => negb (selected options d))
                          (disabledWorkflows m) |}.
Proof.
  intros Hok Hm Hdry [d [Hd Hsel]]. unfold restoreWorkflows. rewrite Hdry.
  assert (Hfound : manifest_exists manifestPath w = (Ok true, w))
    by (unfold manifest_exists; rewrite Hm; reflexivity).
  rewrite (bind_ok _ _ _ _ _ Hfound). change (negb true) with false. cbv iota.
  assert (Hread : exists w0, read_manifest E manifestPath w = (Ok m, w0)
                             /\ manifest_files w0 = manifest_files w).
  { unfold read_manifest.
    destruct (fs_call_ok w Hok) as [w0 [H0 [_ Hm0]]].
    rewrite (bind_ok _ _ _ _ _ H0).
    assert (Hat : manifest_at manifestPath w0 = Some m)
      by (unfold manifest_at in *; rewrite Hm0; exact Hm).
    rewrite Hat. exists w0. split; [reflexivity | exact Hm0]. }
  destruct Hread as [w0 [H0 Hm0]]. rewrite (bind_ok _ _ _ _ _ H0).
  rewrite select_workflows_filter.
  set (entries := objects_of (disabledWorkflows m)).
  set (chosen := filter (fun o => selected options (snd o)) entries).
  assert (Hsome : (0 < length chosen)%nat).
  { destruct (objects_of_In _ (disabledWorkflows m) d Hd) as [n Hn].
    assert (Hin : In (n, d) chosen)
      by (apply filter_In; split; [exact Hn | exact Hsel]).
    destruct chosen; [destruct Hin | simpl; lia]. }
  assert (Hz : Nat.eqb (length chosen) 0 = false) by (apply Nat.eqb_neq; lia).
  rewrite Hz.
  destruct (restore_each_ok chosen w0 Hok) as [w1 H1].
  pose proof (restore_each_manifests false chosen w0) as Hm1.
  rewrite H1 in Hm1. simpl in Hm1.
  rewrite (bind_ok _ _ _ _ _ H1).
  assert (Hlt : Nat.ltb 0 (length chosen) = true) by (apply Nat.ltb_lt; exact Hsome).
  rewrite Hlt. change (negb false && true) with true. cbv iota.
  assert (Hrest : map snd
                    (filter (fun o => negb (includes_obj chosen o)) entries)
                  = filter (fun d => negb (selected options d))
                           (disabledWorkflows m)).
  { unfold chosen, entries. rewrite remaining_objects.
    apply map_snd_filter_objects. }
  rewrite Hrest.
  destruct (write_manifest_ok manifestPath
              {| dm_timestamp := dm_timestamp m;
                 disabledWorkflows :=
                   filter (fun d => negb (selected options d))
                          (disabledWorkflows m) |} w1 Hok) as [w2 [H2 Hm2]].
  exists w2. split; [exact H2|].
  apply manifest_at_written. rewrite Hm2. reflexivity.
Qed.

(** C2, amended.  On a reliable file system a disable transition that is not
    a dry run writes a manifest with exactly one record for each workflow
    flagged in the report, replacing whatever manifest was persisted before;
    a following restore that is not a dry run and whose filters select
    exactly one of these records removes that record and no other.  The
    manifest after the restore is the manifest written by the disable without
    that record: it holds the records of the other flagged workflows of the
    report, not the records persisted before the disable. *)
Theorem disable_then_restore (report : AnalysisReport) (w : World)
    (options : RestoreOptions) (i : nat) (d : DisabledWorkflow) :
  reliable E ->
  opt_dryRun options = Some false ->
  let records := built_records E config (clock w) (flagged report) in
  nth_error records i = Some d ->
  selected options d = true ->
  (forall j d', j <> i -> nth_error records j = Some d' ->
                selected options d' = false) ->
  let disabled := disableWorkflows E config report false w in
  let restored := restoreWorkflows E manifest_path options (snd disabled) in
  exists stamp,
    manifest_at manifest_path (snd disabled)
    = Some {| dm_timestamp := stamp; disabledWorkflows := records |}
    /\ map (fun d => (dw_repository d, analysis d)) records = flagged report
    /\ fst restored = Ok tt
    /\ manifest_at manifest_path (snd restored)
       = Some {| dm_timestamp := stamp;
                 disabledWorkflows := firstn i records ++ skipn (S i) records |}.
Proof.
  intros Hok Hdry records Hnth Hsel Hothers disabled restored.
  destruct (disableWorkflows_ok report w Hok) as [w1 [Hrun Hfiles]].
  fold records in Hrun, Hfiles.
  set (m := {| dm_timestamp :=
                 time_iso E (4 * length (flagged report) + clock w);
               disabledWorkflows := records |}) in *.
  assert (Hm : manifest_at manifest_path w1 = Some m)
    by (apply manifest_at_written; rewrite Hfiles; reflexivity).
  assert (Hex : exists d0, In d0 (disabledWorkflows m)
                           /\ selected options d0 = true).
  { exists d. split; [apply (nth_error_In _ _ Hnth) | exact Hsel]. }
  destruct (restoreWorkflows_ok manifest_path options m w1 Hok Hm Hdry Hex)
    as [w2 [Hrestore Hm2]].
  exists (dm_timestamp m).
  unfold restored, disabled. rewrite Hrun. simpl snd. rewrite Hrestore.
  split; [exact Hm|]. split; [apply built_records_origin|].
  split; [reflexivity|].
  simpl snd. rewrite Hm2. simpl.
  rewrite (filter_all_but _ records (selected options) i d Hnth Hsel Hothers).
  reflexivity.
Qed.

(** C4. A disable transition run with [dryRun] true and a restore transition
    run with [dryRun] true (given or by default) leave the persisted
    manifests, the backup files and the audit log, in memory and on disk, as
    they found them, for every report, every world and every behaviour of
    the file system, whether they return or throw: no manifest is changed,
    no backup is written and no audit entry at all is appended. *)
Theorem dry_run_changes_nothing (report : AnalysisReport)
    (manifestPath : string) (r f : option string) (a : option bool)
    (w : World) :
  let after_disable := snd (disableWorkflows E config report true w) in
  let after_restore :=
    snd (restoreWorkflows E manifestPath
           {| repo := r; workflow := f; all := a; opt_dryRun := Some true |} w) in
  let after_default_restore :=
    snd (restoreWorkflows E manifestPath
           {| repo := r; workflow := f; all := a; opt_dryRun := None |} w) in
  (manifest_files after_disable = manifest_files w
   /\ backup_files after_disable = backup_files w
   /\ log_entries after_disable = log_entries w
   /\ audit_file after_disable = audit_file w)
  /\ (manifest_files after_restore = manifest_files w
      /\ backup_files after_restore = backup_files w
      /\ log_entries after_restore = log_entries w
      /\ audit_file after_restore = audit_file w)
  /\ durable after_default_restore = durable w.
Proof.
  intros after_disable after_restore after_default_restore.
  assert (Hdisable : durable after_disable = durable w).
  { unfold after_disable, disableWorkflows.
    apply keeps_bind; [apply ensureDir_durable|]. intros _.
    apply keeps_bind; [apply disable_repositories_dry_durable|]. intros ds.
    apply keeps_bind; [apply now_durable|]. intros ts. simpl.
    apply keeps_bind; [apply keeps_ret | intros _; apply keeps_ret]. }
  assert (Hrestore : durable after_restore = durable w).
  { apply restoreWorkflows_dry_durable. simpl. discriminate. }
  assert (Hdefault : durable after_default_restore = durable w).
  { apply restoreWorkflows_dry_durable. simpl. discriminate. }
  unfold durable in Hdisable, Hrestore.
  injection Hdisable as H1 H2 H3 H4. injection Hrestore as H5 H6 H7 H8.
  repeat split; assumption.
Qed.

(** C10. The [all] option of a restore is never read: two restores that
    differ in it only return the same result and leave the same world, so
    the same records are selected, the same audit entries are written and
    the same manifest is persisted; and when neither a repository nor a
    workflow filter is given, every record of the manifest is selected,
    whatever [all] is. *)
Theorem all_flag_ignored (manifestPath : string) (r f : option string)
    (a a' : option bool) (d : option bool) (w : World)
    (candidates : list (nat * DisabledWorkflow)) :
  restoreWorkflows E manifestPath
    {| repo := r; workflow := f; all := a; opt_dryRun := d |} w
  = restoreWorkflows E manifestPath
      {| repo := r; workflow := f; all := a'; opt_dryRun := d |} w
  /\ select_workflows {| repo := r; workflow := f; all := a; opt_dryRun := d |}
       candidates
     = select_workflows {| repo := r; workflow := f; all := a'; opt_dryRun := d |}
         candidates
  /\ select_workflows
       {| repo := None; workflow := None; all := a; opt_dryRun := d |} candidates
     = candidates.
Proof. split; [reflexivity|]. split; reflexivity. Qed.

End Lifecycle.

(** ** The lifecycle on the sample data *)

Lemma sample_reliable : reliable sample_disabler_env.
Proof. intros n. reflexivity. Qed.

Lemma disable_overwrites_manifest_witness :
  reliable sample_disabler_env
  /\ persisted_untimed earlier_world = Some [untimed earlier_record]
  /\ exists m,
       manifest_at manifest_path
         (snd (disableWorkflows sample_disabler_env default_config index_report
                 false earlier_world)) = Some m
       /\ origins m = [("index", ci_analysis)].
Proof.
  split; [exact sample_reliable|]. split; [vm_compute; reflexivity|].
  destruct (disable_overwrites_manifest sample_disabler_env default_config
              index_report earlier_world) as [_ Hreliable].
  destruct (Hreliable sample_reliable) as [m [w' [Hrun [Hat [_ Hmap]]]]].
  exists m. rewrite Hrun. split; [exact Hat|].
  unfold origins. rewrite Hmap. vm_compute. reflexivity.
Defined.

(** C3 does not hold for every transition: when the backup of a flagged
    workflow cannot be written, the workflow is skipped, the transition goes
    on and returns, and the manifest it persists holds no record for the
    workflow. *)
Lemma failed_backup_leaves_no_record :
  let disabled :=
    disableWorkflows second_call_fails default_config index_report false
      earlier_world in
  flagged index_report = [("index", ci_analysis)]
  /\ option_map origins (returned (fst disabled)) = Some []
  /\ option_map origins (manifest_at manifest_path (snd disabled)) = Some []
  /\ option_map origins (manifest_at manifest_path (snd disabled))
     <> Some (flagged index_report).
Proof.
  vm_compute.
  split; [reflexivity|]. split; [reflexivity|]. split; [reflexivity|].
  intros H. discriminate H.
Qed.

(** C2 does not hold as stated: a manifest that holds the record of an
    earlier transition is replaced by the disable, so that after the restore
    of the one workflow just disabled the manifest is empty, not equal to the
    manifest before the disable, even when time stamps are left out. *)
Lemma roundtrip_loses_earlier_record :
  let disabled :=
    disableWorkflows sample_disabler_env default_config index_report false
      earlier_world in
  let restored :=
    restoreWorkflows sample_disabler_env manifest_path restore_index_ci
      (snd disabled) in
  option_map origins (returned (fst disabled)) = Some [("index", ci_analysis)]
  /\ option_map (fun m => map (selected restore_index_ci) (disabledWorkflows m))
                (returned (fst disabled)) = Some [true]
  /\ returned (fst restored) = Some tt
  /\ persisted_untimed earlier_world = Some [untimed earlier_record]
  /\ persisted_untimed (snd restored) = Some []
  /\ persisted_untimed (snd restored) <> persisted_untimed earlier_world.
Proof.
  vm_compute.
  split; [reflexivity|]. split; [reflexivity|]. split; [reflexivity|].
  split; [reflexivity|]. split; [reflexivity|].
  intros H. discriminate H.
Qed.

Lemma disable_then_restore_witness :
  let disabled :=
    disableWorkflows sample_disabler_env default_config sample_report false
      earlier_world in
  let restored :=
    restoreWorkflows sample_disabler_env manifest_path restore_index_ci
      (snd disabled) in
  option_map origins (manifest_at manifest_path (snd disabled))
  = Some [("index", ci_analysis); ("api", deploy_analysis)]
  /\ option_map origins (manifest_at manifest_path (snd restored))
     = Some [("api", deploy_analysis)].
Proof.
  intros disabled restored.
  destruct (disable_then_restore sample_disabler_env default_config
              sample_report earlier_world restore_index_ci 0
              (disabled_record sample_disabler_env default_config "index"
                 ci_analysis (time_iso sample_disabler_env 0)
                 (time_iso sample_disabler_env 1)))
    as [stamp [Hdisabled [_ [_ Hrestored]]]].
  - exact sample_reliable.
  - reflexivity.
  - vm_compute. reflexivity.
  - vm_compute. reflexivity.
  - intros j d' Hj Hnth. destruct j as [|[|j]].
    + contradiction.
    + vm_compute in Hnth. injection Hnth as <-. vm_compute. reflexivity.
    + vm_compute in Hnth. destruct j; discriminate Hnth.
  - unfold restored, disabled. rewrite Hdisabled, Hrestored.
    split; vm_compute; reflexivity.
Defined.

(* ================================================================== *)
(** * Part IV. Further properties of the code                           *)
(* ================================================================== *)

(** ** The metrics of one workflow *)

Lemma filter_length_le {A} (f : A -> bool) (l : list A) :
  (length (filter f l) <= length l)%nat.
Proof.
  induction l as [|x l IH]; simpl; [lia|]. destruct (f x); simpl; lia.
Qed.

Lemma success_and_failed_disjoint (runs : list WorkflowRun) :
  (length (filter is_success runs) + length (filter is_failed runs)
   <= length runs)%nat.
Proof.
  induction runs as [|r rs IH]; simpl; [lia|].
  destruct (is_failed r) eqn:Hf.
  - rewrite (failed_not_success r Hf). simpl. lia.
  - destruct (is_success r); simpl; lia.
Qed.

Lemma count_consecutive_le_failed (runs : list WorkflowRun) (c : nat) :
  (count_consecutive runs c <= c + length (filter is_failed runs))%nat.
Proof.
  revert c. induction runs as [|r rs IH]; intros c; simpl; [lia|].
  destruct (is_failed r); simpl.
  - specialize (IH (S c)). lia.
  - destruct (is_success r); [lia | apply IH].
Qed.

(** *** Rounding to a double *)

Lemma two_power_pos (k : Z) : 0 < two_power k.
Proof. destruct k; reflexivity. Qed.

Lemma two_power_le (k k' : Z) : (k <= k')%Z -> two_power k <= two_power k'.
Proof.
  intros H. destruct k as [|p|p], k' as [|p'|p']; try lia;
    unfold two_power, Qle; simpl Qnum; simpl Qden;
    rewrite ?Pos2Z.inj_pow, ?Z.mul_1_l, ?Z.mul_1_r.
  - reflexivity.
  - apply (Z.pow_le_mono_r 2 0 (Z.pos p')); lia.
  - apply Z.pow_le_mono_r; lia.
  - apply (Z.pow_le_mono_r 2 0 (Z.pos p)); lia.
  - pose proof (Z.pow_pos_nonneg 2 (Z.pos p) ltac:(lia) ltac:(lia)).
    pose proof (Z.pow_pos_nonneg 2 (Z.pos p') ltac:(lia) ltac:(lia)). nia.
  - apply Z.pow_le_mono_r; lia.
Qed.

Lemma floor_log2_le (x : Q) : 0 < x -> two_power (floor_log2 x) <= x.
Proof.
  intros Hpos. unfold floor_log2.
  destruct (Qle_bool _ x) eqn:Hk; [apply Qle_bool_iff; exact Hk|].
  clear Hk. destruct x as [n d]. unfold Qlt in Hpos. simpl in Hpos.
  rewrite Z.mul_1_r in Hpos. simpl Qnum. simpl Qden.
  destruct (Z.log2_spec n Hpos) as [Hn _].
  destruct (Z.log2_spec (Z.pos d) ltac:(lia)) as [_ Hd].
  pose proof (Z.log2_nonneg n) as Ha.
  pose proof (Z.log2_nonneg (Z.pos d)) as Hb.
  set (a := Z.log2 n) in *. set (b := Z.log2 (Z.pos d)) in *.
  destruct (a - b - 1)%Z as [|p|p] eqn:Hk;
    unfold two_power, Qle; simpl Qnum; simpl Qden;
    rewrite ?Pos2Z.inj_pow, ?Z.mul_1_l, ?Z.mul_1_r.
  - replace a with (Z.succ b) in Hn by lia. lia.
  - replace a with (Z.pos p + Z.succ b)%Z in Hn by lia.
    rewrite Z.pow_add_r in Hn by lia.
    pose proof (Z.pow_pos_nonneg 2 (Z.pos p) ltac:(lia) ltac:(lia)). nia.
  - replace (Z.succ b) with (a + Z.pos p)%Z in Hd by lia.
    rewrite Z.pow_add_r in Hd by lia.
    pose proof (Z.pow_pos_nonneg 2 (Z.pos p) ltac:(lia) ltac:(lia)). nia.
Qed.

Lemma round_half_even_le (x : Q) (n : Z) :
  x <= inject_Z n -> (round_half_even x <= n)%Z.
Proof.
  intros H. unfold round_half_even.
  pose proof (Qfloor_resp_le _ _ H) as Hf. rewrite Qfloor_Z in Hf.
  destruct (Z.eq_dec (Qfloor x) n) as [Heq|Hne].
  - assert (Hlt : x - inject_Z (Qfloor x) < 1 # 2).
    { rewrite Heq. apply Qle_lt_trans with 0; [|reflexivity].
      apply (Qplus_le_l _ _ (inject_Z n)). ring_simplify. exact H. }
    destruct (Qcompare_spec (x - inject_Z (Qfloor x)) (1 # 2)) as [He|_|Hg].
    + rewrite He in Hlt. discriminate Hlt.
    + exact Hf.
    + exfalso. exact (Qlt_irrefl _ (Qlt_trans _ _ _ Hlt Hg)).
  - destruct (Qcompare _ _); [destruct (Z.even _)| |]; lia.
Qed.

Lemma round_half_even_ge (x : Q) (n : Z) :
  inject_Z n <= x -> (n <= round_half_even x)%Z.
Proof.
  intros H. unfold round_half_even.
  pose proof (Qfloor_resp_le _ _ H) as Hf. rewrite Qfloor_Z in Hf.
  destruct (Qcompare _ _); [destruct (Z.even _)| |]; lia.
Qed.

Lemma double_of_nonpos (x : Q) : x <= 0 -> double_of x = 0.
Proof.
  intros H. unfold double_of. apply Qle_bool_iff in H. rewrite H. reflexivity.
Qed.

Lemma double_of_pos (x : Q) : 0 < x -> 0 < double_of x.
Proof.
  intros Hpos. unfold double_of.
  destruct (Qle_bool x 0) eqn:H0.
  { apply Qle_bool_iff in H0. exfalso. exact (Qlt_not_le _ _ Hpos H0). }
  set (ulp := two_power (floor_log2 x - 52)).
  assert (Hulp : 0 < ulp) by apply two_power_pos.
  assert (Hle : ulp <= x).
  { apply Qle_trans with (two_power (floor_log2 x));
      [apply two_power_le; lia | apply floor_log2_le, Hpos]. }
  assert (Hone : inject_Z 1 <= x / ulp).
  { apply Qle_shift_div_l; [exact Hulp|]. rewrite Qmult_1_l. exact Hle. }
  apply round_half_even_ge in Hone.
  apply Qmult_lt_0_compat; [|exact Hulp].
  change 0 with (inject_Z 0). rewrite <- Zlt_Qlt. lia.
Qed.

Lemma double_of_nonneg (x : Q) : 0 <= double_of x.
Proof.
  destruct (Qlt_le_dec 0 x) as [H|H].
  - apply Qlt_le_weak, double_of_pos, H.
  - rewrite (double_of_nonpos x H). apply Qle_refl.
Qed.

(** Rounding does not pass a small integer: integers below [2^52] are
    multiples of every unit in the last place below them. *)
Lemma double_of_le (x : Q) (n : Z) :
  (0 <= n < 2 ^ 52)%Z -> x <= inject_Z n -> double_of x <= inject_Z n.
Proof.
  intros Hn Hx.
  destruct (Qlt_le_dec 0 x) as [Hpos|H0].
  2:{ rewrite (double_of_nonpos x H0). change 0 with (inject_Z 0).
      rewrite <- Zle_Qle. lia. }
  unfold double_of.
  destruct (Qle_bool x 0) eqn:H0.
  { apply Qle_bool_iff in H0. exfalso. exact (Qlt_not_le _ _ Hpos H0). }
  pose proof (floor_log2_le x Hpos) as Hfl.
  assert (Hsmall : (floor_log2 x < 52)%Z).
  { destruct (Z.lt_ge_cases (floor_log2 x) 52) as [H|H]; [exact H|].
    exfalso. apply two_power_le in H.
    assert (Hc : two_power 52 <= inject_Z n)
      by (apply Qle_trans with x; [apply Qle_trans with (two_power (floor_log2 x))|];
          assumption).
    unfold two_power, Qle in Hc. simpl in Hc. lia. }
  destruct (floor_log2 x - 52)%Z as [|p|p] eqn:He; try lia.
  unfold two_power.
  assert (Hscaled : x / (1 # 2 ^ p) <= inject_Z (n * Z.pos (2 ^ p))).
  { unfold Qdiv, Qinv. simpl Qnum. cbv iota. simpl Qden.
    rewrite inject_Z_mult. apply Qmult_le_compat_r; [exact Hx|].
    unfold Qle. simpl. lia. }
  apply round_half_even_le in Hscaled.
  unfold Qle, Qmult, inject_Z. simpl Qnum. simpl Qden.
  rewrite !Z.mul_1_r. exact Hscaled.
Qed.

Lemma percentage_bounds (part total : nat) :
  (0 < total)%nat -> (part <= total)%nat ->
  0 <= percentage part total /\ percentage part total <= 100.
Proof.
  intros Hpos Hle. unfold percentage. split; [apply double_of_nonneg|].
  apply (double_of_le _ 100); [split; [lia | reflexivity]|].
  change (inject_Z 100) with (1 * 100).
  apply Qmult_le_compat_r; [|discriminate].
  apply (double_of_le _ 1); [split; [lia | reflexivity]|].
  apply Qle_shift_div_r.
  - change 0 with (inject_Z 0). rewrite <- Zlt_Qlt. lia.
  - rewrite <- inject_Z_mult, <- Zle_Qle. lia.
Qed.

Lemma percentage_zero (part total : nat) :
  (0 < total)%nat -> (percentage part total == 0 <-> part = 0%nat).
Proof.
  intros Hpos. unfold percentage. split.
  - intros H. destruct part as [|n]; [reflexivity|]. exfalso.
    assert (Hq : 0 < inject_Z (Z.of_nat (S n)) / inject_Z (Z.of_nat total)).
    { apply Qlt_shift_div_l.
      - change 0 with (inject_Z 0). rewrite <- Zlt_Qlt. lia.
      - rewrite Qmult_0_l. change 0 with (inject_Z 0). rewrite <- Zlt_Qlt. lia. }
    apply double_of_pos in Hq.
    assert (Hy : 0 < double_of (inject_Z (Z.of_nat (S n))
                                / inject_Z (Z.of_nat total)) * 100)
      by (apply Qmult_lt_0_compat; [exact Hq | reflexivity]).
    apply double_of_pos in Hy. rewrite H in Hy. discriminate Hy.
  - intros ->.
    rewrite (double_of_nonpos (inject_Z (Z.of_nat 0)
                               / inject_Z (Z.of_nat total))).
    + reflexivity.
    + unfold Qdiv. rewrite Qmult_0_l. apply Qle_refl.
Qed.

(** The rounding shows in the rates: 29 failures in 50 runs give a rate just
    below 58, which is printed as 58.0 and does not reach a threshold of 58;
    23 successes in 160 runs give a success rate of 14.37, where the exact
    quotient 14.375 would give 14.38. *)
Remark rates_are_doubles :
  percentage 29 50 == 8162774324609023 # 140737488355328
  /\ Qle_bool 58 (percentage 29 50) = false
  /\ toFixed 1 (percentage 29 50) = "58.0"
  /\ parseFloat_toFixed 2 (percentage 23 160) == 1437 # 100
  /\ percentage 1 4 == 25.
Proof. vm_compute. repeat split. Qed.

(** X1. The counts of an analysis fit together: successes and failures are
    disjoint parts of the history, the streak of consecutive failures is at
    most the number of failed runs, the failure rate lies between 0 and 100
    and is 0 exactly when no run failed, and the recent runs are the first
    ten runs of the history, or all of them when there are fewer. *)
Theorem metrics_bounds (config : Config) (repo : string)
    (workflow : WorkflowInfo) (runs : list WorkflowRun) (found : list string) :
  let a := analyzeRuns config repo workflow runs found in
  (successfulRuns a + failedRuns a <= totalRuns a)%nat
  /\ (consecutiveFailures a <= failedRuns a)%nat
  /\ 0 <= failureRate a /\ failureRate a <= 100
  /\ (failureRate a == 0 <-> failedRuns a = 0%nat)
  /\ length (lastRuns a) = Nat.min 10 (totalRuns a)
  /\ runs = lastRuns a ++ skipn 10 runs.
Proof.
  intros a. unfold a, analyzeRuns.
  cbn [successfulRuns failedRuns totalRuns consecutiveFailures failureRate
       lastRuns].
  pose proof (success_and_failed_disjoint runs) as Hdisj.
  split; [exact Hdisj|].
  split; [apply (count_consecutive_le_failed runs 0)|].
  assert (Hrate : 0 <= (if (0 <? length runs)%nat
                        then percentage (length (filter is_failed runs))
                                        (length runs)
                        else 0)
                  /\ (if (0 <? length runs)%nat
                      then percentage (length (filter is_failed runs))
                                      (length runs)
                      else 0) <= 100
                  /\ ((if (0 <? length runs)%nat
                       then percentage (length (filter is_failed runs))
                                       (length runs)
                       else 0) == 0
                      <-> length (filter is_failed runs) = 0%nat)).
  { destruct (0 <? length runs)%nat eqn:Hpos.
    - apply Nat.ltb_lt in Hpos.
      destruct (percentage_bounds (length (filter is_failed runs))
                  (length runs) Hpos (filter_length_le _ _)) as [H0 H100].
      split; [exact H0|]. split; [exact H100|].
      apply percentage_zero. exact Hpos.
    - apply Nat.ltb_ge in Hpos.
      pose proof (filter_length_le is_failed runs) as Hle.
      split; [discriminate|]. split; [discriminate|].
      split; intros _; [lia | reflexivity]. }
  destruct Hrate as [H0 [H100 Hzero]].
  split; [exact H0|]. split; [exact H100|]. split; [exact Hzero|].
  split; [apply length_firstn|].
  symmetry. apply firstn_skipn.
Qed.

(** ** The decision *)

Lemma flag_if_reasons (cond : bool) (why : string) (d : bool * list string) :
  (fst d = true <-> snd d <> []) ->
  (fst (flag_if cond why d) = true <-> snd (flag_if cond why d) <> []).
Proof.
  intros H. unfold flag_if. destruct cond; [|exact H]. simpl.
  split; [|reflexivity]. intros _ Hnil. destruct (snd d); discriminate Hnil.
Qed.

Lemma flag_if_fst (cond : bool) (why : string) (d : bool * list string) :
  fst (flag_if cond why d) = cond || fst d.
Proof. unfold flag_if. destruct cond; reflexivity. Qed.

Lemma flag_if_length (cond : bool) (why : string) (d : bool * list string) :
  (length (snd (flag_if cond why d)) <= S (length (snd d)))%nat.
Proof.
  unfold flag_if. destruct cond; simpl; [rewrite length_app; simpl|]; lia.
Qed.

(** X2. A workflow is flagged exactly when at least one reason is given, and
    at most three reasons are given. *)
Theorem flagged_iff_reasons (config : Config) (repo : string)
    (workflow : WorkflowInfo) (runs : list WorkflowRun) (found : list string) :
  let a := analyzeRuns config repo workflow runs found in
  (shouldDisable a = true <-> disableReason a <> [])
  /\ (length (disableReason a) <= 3)%nat.
Proof.
  intros a. unfold a, analyzeRuns. cbn [shouldDisable disableReason].
  unfold decide.
  destruct (includes_str _ _).
  - simpl. split; [|lia]. split; [discriminate | congruence].
  - split.
    + do 3 apply flag_if_reasons. simpl. split; [discriminate | congruence].
    + match goal with
      | |- context [flag_if ?c3 ?y3 (flag_if ?c2 ?y2 (flag_if ?c1 ?y1 ?d))] =>
          pose proof (flag_if_length c1 y1 d) as H1;
          pose proof (flag_if_length c2 y2 (flag_if c1 y1 d)) as H2;
          pose proof (flag_if_length c3 y3 (flag_if c2 y2 (flag_if c1 y1 d)))
            as H3
      end.
      cbn [snd length] in H1. lia.
Qed.

(** X3. The decision in closed form: a workflow is flagged exactly when it is
    not safelisted and one of three conditions holds: the streak reaches the
    failure threshold; the failure rate reaches the rate threshold over at
    least five runs; or there are runs and none succeeded.  The test
    [totalRuns >= failureThreshold] of the first rule never decides: it
    follows from the streak reaching the threshold. *)
Theorem decision_closed_form (config : Config) (repo : string)
    (workflow : WorkflowInfo) (runs : list WorkflowRun) (found : list string) :
  let a := analyzeRuns config repo workflow runs found in
  shouldDisable a
  = negb (safelisted config workflow)
    && (streak_rule config a || rate_rule config a || never_succeeded_rule a).
Proof.
  intros a.
  assert (Hstreak : (count_consecutive runs 0 <= length runs)%nat).
  { pose proof (count_consecutive_le_failed runs 0).
    pose proof (filter_length_le is_failed runs). lia. }
  unfold a, analyzeRuns, streak_rule, rate_rule, never_succeeded_rule, safelisted.
  cbn [shouldDisable successfulRuns totalRuns consecutiveFailures failureRate].
  unfold decide.
  destruct (includes_str _ _); [reflexivity|].
  rewrite !flag_if_fst. cbn [fst negb andb]. rewrite orb_false_r.
  destruct (failureThreshold config <=? Z.of_nat (count_consecutive runs 0))%Z
    eqn:Hs.
  - assert (Ht : (failureThreshold config <=? Z.of_nat (length runs))%Z = true).
    { apply Z.leb_le. apply Z.leb_le in Hs. lia. }
    rewrite Ht. cbn [andb orb]. rewrite !orb_true_r. reflexivity.
  - cbn [andb orb]. rewrite orb_false_r. apply orb_comm.
Qed.

(** X4. A workflow that is not safelisted, has runs in the window and no
    successful one is flagged with the reason "No successful runs", whatever
    the thresholds are and whatever the outcomes of the runs are: a history
    of cancelled or unfinished runs is flagged although no run failed. *)
Theorem never_succeeded_flagged (config : Config) (repo : string)
    (workflow : WorkflowInfo) (runs : list WorkflowRun) (found : list string) :
  safelisted config workflow = false ->
  runs <> [] ->
  Forall (fun r => is_success r = false) runs ->
  let a := analyzeRuns config repo workflow runs found in
  shouldDisable a = true
  /\ last (disableReason a) "" = no_success_reason
  /\ lastSuccessfulRun a = None.
Proof.
  intros Hsafe Hne Hall a.
  assert (Hnone : filter is_success runs = []).
  { clear Hne. induction Hall as [|r rs Hr _ IH]; simpl; [reflexivity|].
    rewrite Hr. exact IH. }
  assert (Hfind : find is_success runs = None).
  { clear Hne Hnone. induction Hall as [|r rs Hr _ IH]; simpl; [reflexivity|].
    rewrite Hr. exact IH. }
  assert (Hpos : (0 <? length runs)%nat = true).
  { apply Nat.ltb_lt. destruct runs; [contradiction | simpl; lia]. }
  unfold a, analyzeRuns.
  cbn [shouldDisable disableReason lastSuccessfulRun].
  unfold decide. unfold safelisted in Hsafe. rewrite Hsafe, Hnone, Hpos.
  cbn [length Nat.eqb andb]. unfold flag_if at 1. cbn [fst snd].
  split; [reflexivity|]. split; [apply last_last | exact Hfind].
Qed.

Lemma never_succeeded_flagged_witness :
  let a := analyzeRuns default_config "index" ci_workflow cancelled_history [] in
  failedRuns a = 0%nat /\ failureRate a == 0 /\ shouldDisable a = true
  /\ disableReason a = ["No successful runs"].
Proof.
  intros a.
  destruct (never_succeeded_flagged default_config "index" ci_workflow
              cancelled_history []) as [Hflag _].
  - reflexivity.
  - discriminate.
  - repeat constructor.
  - split; [reflexivity|]. split; [reflexivity|]. split; [exact Hflag|].
    reflexivity.
Defined.

Lemma find_first {A} (f : A -> bool) (l : list A) :
  match find f l with
  | Some x => exists pre post,
                l = pre ++ x :: post /\ f x = true
                /\ Forall (fun y => f y = false) pre
  | None => Forall (fun y => f y = false) l
  end.
Proof.
  induction l as [|y l IH]; simpl; [constructor|].
  destruct (f y) eqn:Hy.
  - exists [], l. split; [reflexivity|]. split; [exact Hy | constructor].
  - destruct (find f l) as [x|].
    + destruct IH as [pre [post [-> [Hx Hpre]]]].
      exists (y :: pre), post. split; [reflexivity|].
      split; [exact Hx | constructor; assumption].
    + constructor; assumption.
Qed.

(** X5. The last successful run of an analysis is the first success of the
    history, which is ordered most recent first: every run before it is not
    a success; there is none exactly when the count of successes is 0. *)
Theorem last_successful_run_is_first_success (config : Config) (repo : string)
    (workflow : WorkflowInfo) (runs : list WorkflowRun) (found : list string) :
  let a := analyzeRuns config repo workflow runs found in
  match lastSuccessfulRun a with
  | Some r => exists pre post,
                runs = pre ++ r :: post /\ conclusion r = Some "success"
                /\ Forall (fun y => is_success y = false) pre
                /\ (0 < successfulRuns a)%nat
  | None => successfulRuns a = 0%nat
  end.
Proof.
  intros a. unfold a, analyzeRuns. cbn [lastSuccessfulRun successfulRuns].
  pose proof (find_first is_success runs) as H.
  destruct (find is_success runs) as [r|].
  - destruct H as [pre [post [Heq [Hr Hpre]]]].
    exists pre, post. split; [exact Heq|].
    split; [apply conclusion_is_eq; exact Hr|]. split; [exact Hpre|].
    rewrite Heq, filter_app, length_app. simpl. rewrite Hr. simpl. lia.
  - induction H as [|y l Hy _ IH]; simpl; [reflexivity|]. rewrite Hy. exact IH.
Qed.

(** ** Strings *)

Lemma split_slash_nonempty (s : string) : split_slash s <> [].
Proof.
  destruct s as [|c s]; simpl; [discriminate|].
  destruct (Ascii.eqb c "/"); [discriminate|].
  destruct (split_slash s); discriminate.
Qed.

Lemma split_slash_app (a b : string) :
  split_slash (a ++ String "/" b) = split_slash a ++ split_slash b.
Proof.
  induction a as [|c a IH]; simpl; [reflexivity|].
  destruct (Ascii.eqb c "/"); [rewrite IH; reflexivity|].
  rewrite IH. pose proof (split_slash_nonempty a) as Hne.
  destruct (split_slash a); [contradiction | reflexivity].
Qed.

Lemma split_slash_plain (s : string) :
  has_slash s = false -> split_slash s = [s].
Proof.
  induction s as [|c s IH]; simpl; [reflexivity|].
  destruct (Ascii.eqb c "/"); [discriminate|]. simpl.
  intros H. rewrite (IH H). reflexivity.
Qed.

Lemma last_app_nonempty {A} (l l' : list A) (d : A) :
  l' <> [] -> last (l ++ l') d = last l' d.
Proof.
  intros Hne. induction l as [|x l IH]; [reflexivity|].
  simpl. destruct (l ++ l') eqn:E; [|exact IH].
  apply app_eq_nil in E. destruct E as [_ E]. contradiction.
Qed.

Lemma last_split_no_slash (s : string) :
  has_slash (last (split_slash s) "") = false.
Proof.
  induction s as [|c s IH]; simpl; [reflexivity|].
  destruct (Ascii.eqb c "/") eqn:Hc.
  - pose proof (split_slash_nonempty s) as Hne.
    destruct (split_slash s) eqn:E; [contradiction | exact IH].
  - destruct (split_slash s) as [|seg segs] eqn:E; simpl.
    + rewrite Hc. reflexivity.
    + destruct segs as [|seg' segs'].
      * simpl in *. rewrite Hc. exact IH.
      * exact IH.
Qed.

(** X6. The file name of a workflow path is what follows its last slash: for
    a name without slash, the file name of [dir/name] is [name] whatever
    [dir] is, the file name of [name] alone is [name], and a file name never
    holds a slash.  The safelist is therefore matched against base names
    only. *)
Theorem file_name_of_path (dir name : string) :
  has_slash (file_name_of dir) = false
  /\ (has_slash name = false ->
      file_name_of (dir ++ String "/" name) = name
      /\ file_name_of name = name).
Proof.
  split; [apply last_split_no_slash|].
  intros Hname. unfold file_name_of.
  rewrite split_slash_app, (split_slash_plain name Hname).
  split; [|reflexivity].
  rewrite last_app_nonempty; [reflexivity | discriminate].
Qed.

Lemma file_name_of_path_witness :
  file_name_of (".github/workflows" ++ String "/" "ci.yml") = "ci.yml".
Proof.
  apply (file_name_of_path ".github/workflows" "ci.yml"). reflexivity.
Defined.

Lemma prefix_spec (sub s : string) :
  String.prefix sub s = true <-> exists post, s = (sub ++ post)%string.
Proof.
  revert s. induction sub as [|c sub IH]; intros s; simpl.
  - split; [intros _; exists s; reflexivity | intros _; destruct s; reflexivity].
  - destruct s as [|c' s]; [split; [discriminate | intros [post H]; discriminate]|].
    simpl. destruct (ascii_dec c c') as [->|Hne].
    + rewrite IH. split; intros [post H]; exists post; [rewrite H|]; congruence.
    + split; [discriminate|]. intros [post H]. congruence.
Qed.

(** [s.includes(sub)] holds exactly when [sub] occurs in [s]; the empty
    text occurs in every text. *)
Lemma str_includes_occurs (s sub : string) :
  (str_includes s sub = true
   <-> exists pre post, s = (pre ++ sub ++ post)%string)
  /\ str_includes s "" = true.
Proof.
  split.
  - induction s as [|c s IH].
    + cbn [str_includes]. rewrite orb_false_r, prefix_spec. split.
      * intros [post H]. exists "", post. exact H.
      * intros [pre [post H]]. destruct pre; [exists post; exact H|discriminate].
    + cbn [str_includes]. rewrite orb_true_iff, prefix_spec, IH. split.
      * intros [[post H]|[pre [post H]]].
        -- exists "", post. exact H.
        -- exists (String c pre), post. simpl. rewrite H. reflexivity.
      * intros [pre [post H]]. destruct pre as [|c' pre].
        -- left. exists post. exact H.
        -- right. simpl in H. injection H as _ H. exists pre, post. exact H.
  - destruct s; reflexivity.
Qed.

(** ** Listing the repositories of the organization *)

Lemma fetch_pages_full (org : string) (full : list (list string))
    (rest : list (result (list string))) (acc : list string) :
  Forall (fun data => length data = perPage) full ->
  fetch_pages org (map Ok full ++ rest) acc
  = fetch_pages org rest (acc ++ concat full).
Proof.
  intros Hfull. revert acc. induction Hfull as [|data full Hdata _ IH];
    intros acc; simpl.
  - rewrite app_nil_r. reflexivity.
  - rewrite Hdata. simpl. rewrite IH, app_assoc. reflexivity.
Qed.

(** X8. The listing of the organization's repositories asks for pages until
    one holds fewer than 100 names: after any number of full pages, a short
    page (possibly empty) ends the listing, the names are returned in the
    order received, without the excluded ones, and whatever a later request
    would have answered plays no role.  When the full pages are all there is,
    the listing ends with them. *)
Theorem listing_stops_at_short_page (octokit : Octokit) (config : Config)
    (full : list (list string)) (short : list string)
    (rest : list (result (list string))) :
  Forall (fun data => length data = perPage) full ->
  (length short < perPage)%nat ->
  (repos_listForOrg octokit (organization config)
   = map Ok full ++ Ok short :: rest
   \/ (short = [] /\ repos_listForOrg octokit (organization config)
                    = map Ok full)) ->
  getOrganizationRepositories octokit config
  = Ok (filter (fun r => negb (includes_str (excludeRepositories config) r))
               (concat full ++ short)).
Proof.
  intros Hfull Hshort Hpages. unfold getOrganizationRepositories.
  destruct Hpages as [->|[-> ->]].
  - rewrite (fetch_pages_full _ full _ [] Hfull). simpl.
    destruct short as [|x short]; simpl.
    + rewrite app_nil_r. reflexivity.
    + apply Nat.ltb_lt in Hshort. simpl in Hshort. rewrite Hshort. reflexivity.
  - rewrite <- (app_nil_r (map Ok full)).
    rewrite (fetch_pages_full _ full [] [] Hfull). simpl.
    rewrite app_nil_r. reflexivity.
Qed.

Lemma listing_stops_at_short_page_witness :
  getOrganizationRepositories two_page_octokit excluding_config
  = Ok (repeat "service" 100 ++ ["index"]).
Proof.
  rewrite (listing_stops_at_short_page two_page_octokit excluding_config
             [repeat "service" 100] ["index"; "docs"] [Throw server_error]).
  - vm_compute. reflexivity.
  - constructor; [vm_compute; reflexivity | constructor].
  - vm_compute. lia.
  - left. reflexivity.
Defined.

(** X9. A failing page request ends the listing with an error and drops the
    names received so far: a failure with status 404 is replaced by the
    "organization not found" error, which carries no status; any other
    failure is thrown as it is. *)
Theorem listing_failure (octokit : Octokit) (config : Config)
    (full : list (list string)) (e : JsError)
    (rest : list (result (list string))) :
  Forall (fun data => length data = perPage) full ->
  repos_listForOrg octokit (organization config)
  = map Ok full ++ Throw e :: rest ->
  (err_status e = Some 404%Z ->
   getOrganizationRepositories octokit config
   = Throw (org_not_found (organization config)))
  /\ (err_status e <> Some 404%Z ->
      getOrganizationRepositories octokit config = Throw e).
Proof.
  intros Hfull Hpages. unfold getOrganizationRepositories.
  rewrite Hpages, (fetch_pages_full _ full _ [] Hfull). simpl. split.
  - intros ->. reflexivity.
  - intros Hne. destruct (err_status e) as [z|]; [|reflexivity].
    destruct (Z.eq_dec z 404) as [->|Hz]; [contradiction|].
    destruct z as [|p|p]; try reflexivity.
    do 9 (destruct p as [p|p|]; try reflexivity). contradiction.
Qed.

Lemma listing_failure_witness :
  getOrganizationRepositories (octokit unreachable_env) default_config
  = Throw (org_not_found "InfinityXOneSystems")
  /\ err_status (org_not_found "InfinityXOneSystems") = None.
Proof.
  split; [|reflexivity].
  apply (listing_failure (octokit unreachable_env) default_config [] not_found
           []).
  - constructor.
  - reflexivity.
  - reflexivity.
Defined.

(** ** The report of a pass *)

Lemma fold_left_sum {A} (f : A -> nat) (l : list A) (init : nat) :
  fold_left (fun n x => (n + f x)%nat) l init = (init + list_sum (map f l))%nat.
Proof.
  revert init. induction l as [|x l IH]; intros init; simpl; [lia|].
  rewrite IH. lia.
Qed.

Lemma list_sum_flat_map {A B} (f : B -> nat) (g : A -> list B) (l : list A) :
  list_sum (map f (flat_map g l))
  = list_sum (map (fun x => list_sum (map f (g x))) l).
Proof.
  induction l as [|x l IH]; simpl; [reflexivity|].
  rewrite map_app, list_sum_app, IH. reflexivity.
Qed.

Lemma length_flat_map_sum {A B} (g : A -> list B) (l : list A) :
  length (flat_map g l) = list_sum (map (fun x => length (g x)) l).
Proof.
  induction l as [|x l IH]; simpl; [reflexivity|].
  rewrite length_app, IH. reflexivity.
Qed.

Section Report.

Variable E : AnalyzerEnv.
Variable config : Config.

(** What the loop over the repositories adds to its running totals. *)
Lemma analyzeRepositories_totals (repos : list string) (acc : Totals) (t : nat) :
  let acc' := fst (analyzeRepositories E config repos acc t) in
  repositoryAnalyses acc' = repositoryAnalyses acc ++ kept E config repos t
  /\ acc_totalWorkflows acc'
     = (acc_totalWorkflows acc
        + list_sum (map ra_totalWorkflows (kept E config repos t)))%nat
  /\ acc_failingWorkflows acc'
     = (acc_failingWorkflows acc
        + list_sum (map ra_failingWorkflows (kept E config repos t)))%nat
  /\ acc_totalRuns acc'
     = (acc_totalRuns acc
        + list_sum (map totalRuns (flat_map workflows (kept E config repos t))))%nat
  /\ acc_successfulRuns acc'
     = (acc_successfulRuns acc
        + list_sum (map successfulRuns (flat_map workflows (kept E config repos t))))%nat
  /\ acc_failedRuns acc'
     = (acc_failedRuns acc
        + list_sum (map failedRuns (flat_map workflows (kept E config repos t))))%nat.
Proof.
  unfold kept. revert acc t.
  induction repos as [|repo repos IH]; intros acc t; simpl.
  - rewrite app_nil_r, !Nat.add_0_r. repeat split.
  - destruct (analyzeRepository E config repo t) as [ra t'].
    specialize (IH (record_repository acc ra) t').
    destruct IH as [H1 [H2 [H3 [H4 [H5 H6]]]]].
    rewrite H1, H2, H3, H4, H5, H6. clear H1 H2 H3 H4 H5 H6.
    unfold record_repository. simpl filter.
    destruct (0 <? length (workflows ra))%nat; simpl.
    + rewrite !fold_left_sum, !map_app, !list_sum_app, <- app_assoc. simpl.
      repeat split; lia.
    + repeat split.
Qed.

Lemma analyses_from_In (repos : list string) (t : nat) (r : RepositoryAnalysis) :
  In r (analyses_from E config repos t) ->
  exists repo t', In repo repos /\ r = fst (analyzeRepository E config repo t').
Proof.
  revert t. induction repos as [|repo repos IH]; intros t H; simpl in H;
    [destruct H|].
  destruct (analyzeRepository E config repo t) as [ra t'] eqn:Hra.
  destruct H as [<-|H].
  - exists repo, t. rewrite Hra. split; [left|]; reflexivity.
  - destruct (IH t' H) as [repo' [t0 [Hin Heq]]].
    exists repo', t0. split; [right; exact Hin | exact Heq].
Qed.

Lemma analyses_from_names (repos : list string) (t : nat) :
  map ra_repository (kept E config repos t)
  = filter (has_workflows (octokit E) config) repos.
Proof.
  unfold kept. revert t. induction repos as [|repo repos IH]; intros t; simpl;
    [reflexivity|].
  pose proof (analyzeRepository_name E config repo t) as Hname.
  pose proof (analyzeRepository_workflows E config repo t) as Hws.
  destruct (analyzeRepository E config repo t) as [ra t']. simpl in *.
  rewrite Hws, analyzeWorkflows_length. unfold has_workflows at 1.
  destruct (getWorkflows (octokit E) config repo) as [|w ws]; simpl.
  - apply IH.
  - rewrite Hname, IH. reflexivity.
Qed.

Lemma analyzeWorkflows_shape (repo : string) (ws : list WorkflowInfo) (t : nat) :
  map workflowId (fst (analyzeWorkflows E config repo ws t)) = map id ws
  /\ Forall (fun a => repository a = repo)
            (fst (analyzeWorkflows E config repo ws t)).
Proof.
  revert t. induction ws as [|w ws IH]; intros t; simpl.
  - split; [reflexivity | constructor].
  - specialize (IH (S t)).
    destruct (analyzeWorkflows E config repo ws (S t)) as [others t'].
    simpl in *. destruct IH as [Hids Hrepo]. split.
    + rewrite Hids. reflexivity.
    + constructor; [reflexivity | exact Hrepo].
Qed.

Lemma analyzeRepository_shape (repo : string) (t : nat) :
  let r := fst (analyzeRepository E config repo t) in
  ra_repository r = repo
  /\ ra_totalWorkflows r = length (workflows r)
  /\ ra_failingWorkflows r = length (filter shouldDisable (workflows r))
  /\ map workflowId (workflows r) = map id (getWorkflows (octokit E) config repo)
  /\ Forall (fun a => repository a = repo) (workflows r).
Proof.
  unfold analyzeRepository.
  pose proof (analyzeWorkflows_length E config repo
                (getWorkflows (octokit E) config repo) t) as Hlen.
  pose proof (analyzeWorkflows_shape repo
                (getWorkflows (octokit E) config repo) t) as [Hids Hrepo].
  destruct (analyzeWorkflows E config repo _ t) as [analyses t']. simpl in *.
  repeat split; auto.
Qed.

Lemma report_repositories (t : nat) (report : AnalysisReport) :
  analyze E config t = Ok report ->
  exists repos,
    getOrganizationRepositories (octokit E) config = Ok repos
    /\ repositories report = kept E config repos t
    /\ ar_totalWorkflows report = list_sum (map ra_totalWorkflows (kept E config repos t))
    /\ ar_failingWorkflows report
       = list_sum (map ra_failingWorkflows (kept E config repos t))
    /\ sum_totalRuns (summary report)
       = list_sum (map totalRuns (flat_map workflows (kept E config repos t)))
    /\ sum_successfulRuns (summary report)
       = list_sum (map successfulRuns (flat_map workflows (kept E config repos t)))
    /\ sum_failedRuns (summary report)
       = list_sum (map failedRuns (flat_map workflows (kept E config repos t))).
Proof.
  unfold analyze. destruct (checkRateLimit (octokit E)); [|discriminate].
  destruct (getOrganizationRepositories (octokit E) config) as [repos|];
    [|discriminate].
  pose proof (analyzeRepositories_totals repos no_totals t) as Htot.
  destruct (analyzeRepositories E config repos no_totals t) as [acc t'].
  simpl in Htot. destruct Htot as [H1 [H2 [H3 [H4 [H5 H6]]]]].
  intros H. injection H as <-. exists repos. simpl.
  repeat split; assumption.
Qed.

Lemma kept_shape (repos : list string) (t : nat) (r : RepositoryAnalysis) :
  In r (kept E config repos t) ->
  ra_totalWorkflows r = length (workflows r)
  /\ ra_failingWorkflows r = length (filter shouldDisable (workflows r))
  /\ map workflowId (workflows r)
     = map id (getWorkflows (octokit E) config (ra_repository r))
  /\ Forall (fun a => repository a = ra_repository r) (workflows r).
Proof.
  unfold kept. intros H. apply filter_In in H. destruct H as [H _].
  destruct (analyses_from_In repos t r H) as [repo [t' [_ ->]]].
  destruct (analyzeRepository_shape repo t') as [Hn [H1 [H2 [H3 H4]]]].
  rewrite Hn. repeat split; assumption.
Qed.

(** X10. The repositories of a report are, in the order in which the data
    source listed them, exactly the listed repositories that have at least
    one workflow; each comes with one analysis for each of its workflows, in
    the order of the data source, and each analysis names the repository it
    stands under. *)
Theorem report_follows_data_source (t : nat) (report : AnalysisReport)
    (repos : list string) :
  analyze E config t = Ok report ->
  getOrganizationRepositories (octokit E) config = Ok repos ->
  map ra_repository (repositories report)
  = filter (has_workflows (octokit E) config) repos
  /\ Forall (fun r =>
               map workflowId (workflows r)
               = map id (getWorkflows (octokit E) config (ra_repository r))
               /\ Forall (fun a => repository a = ra_repository r) (workflows r))
            (repositories report).
Proof.
  intros Hrep Hrepos.
  destruct (report_repositories t report Hrep) as [repos' [Hrepos' [Heq _]]].
  rewrite Hrepos in Hrepos'. injection Hrepos' as <-.
  rewrite Heq. split; [apply analyses_from_names|].
  apply Forall_forall. intros r Hr.
  destruct (kept_shape repos t r Hr) as [_ [_ [H3 H4]]]. split; assumption.
Qed.

(** X11. The counts of a report agree with its lists: the number of
    workflows is the number of analyses, the number of failing workflows is
    the number of flagged analyses (the workflows a disable transition will
    act on), the same holds repository by repository, and the three run
    totals are the sums of the run counts of the analyses. *)
Theorem report_counts (t : nat) (report : AnalysisReport) :
  analyze E config t = Ok report ->
  ar_totalWorkflows report = length (all_workflows report)
  /\ ar_failingWorkflows report = length (flagged report)
  /\ Forall (fun r =>
               ra_totalWorkflows r = length (workflows r)
               /\ ra_failingWorkflows r
                  = length (filter shouldDisable (workflows r)))
            (repositories report)
  /\ sum_totalRuns (summary report)
     = list_sum (map totalRuns (all_workflows report))
  /\ sum_successfulRuns (summary report)
     = list_sum (map successfulRuns (all_workflows report))
  /\ sum_failedRuns (summary report)
     = list_sum (map failedRuns (all_workflows report)).
Proof.
  intros Hrep.
  destruct (report_repositories t report Hrep)
    as [repos [_ [Heq [H2 [H3 [H4 [H5 H6]]]]]]].
  assert (Hshape : Forall (fun r =>
                     ra_totalWorkflows r = length (workflows r)
                     /\ ra_failingWorkflows r
                        = length (filter shouldDisable (workflows r)))
                     (repositories report)).
  { rewrite Heq. apply Forall_forall. intros r Hr.
    destruct (kept_shape repos t r Hr) as [H [H' _]]. split; assumption. }
  unfold all_workflows, flagged. rewrite !length_flat_map_sum.
  rewrite H2, H3, H4, H5, H6, <- Heq.
  split; [|split; [|split; [exact Hshape|repeat split]]].
  - f_equal. apply map_ext_in. intros r Hr.
    rewrite Forall_forall in Hshape. apply (Hshape r Hr).
  - f_equal. apply map_ext_in. intros r Hr. rewrite length_map.
    rewrite Forall_forall in Hshape. apply (Hshape r Hr).
Qed.

End Report.

Lemma report_follows_data_source_witness :
  map ra_repository (repositories sample_pass_report) = ["index"]
  /\ map (fun r => map workflowId (workflows r))
         (repositories sample_pass_report) = [[7%Z; 8%Z]].
Proof.
  destruct (report_follows_data_source sample_env default_config 0
              sample_pass_report ["index"; "broken"; "docs"])
    as [Hnames _].
  - vm_compute. reflexivity.
  - vm_compute. reflexivity.
  - split; [rewrite Hnames|]; vm_compute; reflexivity.
Defined.

Lemma report_counts_witness :
  ar_totalWorkflows sample_pass_report = 2%nat
  /\ ar_failingWorkflows sample_pass_report = 1%nat
  /\ sum_totalRuns (summary sample_pass_report) = 4%nat.
Proof.
  destruct (report_counts sample_env default_config 0 sample_pass_report)
    as [H1 [H2 [_ [H3 _]]]].
  - vm_compute. reflexivity.
  - split; [rewrite H1; vm_compute; reflexivity|].
    split; [rewrite H2; vm_compute; reflexivity|].
    rewrite H3. vm_compute. reflexivity.
Defined.

Lemma fetch_pages_In (org : string) (pages : list (result (list string)))
    (acc repos : list string) (x : string) :
  fetch_pages org pages acc = Ok repos ->
  In x repos ->
  In x acc \/ exists data, In (Ok data) pages /\ In x data.
Proof.
  revert acc. induction pages as [|[data|e] pages IH]; intros acc Hrun Hx;
    simpl in Hrun.
  - injection Hrun as <-. left. exact Hx.
  - destruct (Nat.eqb (length data) 0).
    + injection Hrun as <-. left. exact Hx.
    + destruct (Nat.ltb (length data) perPage).
      * injection Hrun as <-. apply in_app_or in Hx.
        destruct Hx as [Hx|Hx]; [left; exact Hx|].
        right. exists data. split; [left; reflexivity | exact Hx].
      * destruct (IH _ Hrun Hx) as [Hacc|[data' [Hin Hd]]].
        -- apply in_app_or in Hacc. destruct Hacc as [Hacc|Hacc];
             [left; exact Hacc|].
           right. exists data. split; [left; reflexivity | exact Hacc].
        -- right. exists data'. split; [right; exact Hin | exact Hd].
  - destruct (err_status e) as [z|]; [|discriminate].
    destruct z as [|p|p]; try discriminate.
    do 9 (destruct p as [p|p|]; try discriminate).
Qed.

(** X12. Every repository of a report was named by the data source in one
    of its page answers and is not in the configured exclusion list: an
    excluded repository is never analysed. *)
Theorem excluded_never_reported (E : AnalyzerEnv) (config : Config) (t : nat)
    (report : AnalysisReport) (repo : string) :
  analyze E config t = Ok report ->
  In repo (map ra_repository (repositories report)) ->
  ~ In repo (excludeRepositories config)
  /\ exists data,
       In (Ok data) (repos_listForOrg (octokit E) (organization config))
       /\ In repo data.
Proof.
  intros Hrep Hin.
  destruct (report_repositories E config t report Hrep)
    as [repos [Hrepos [Heq _]]].
  rewrite Heq, analyses_from_names in Hin. apply filter_In in Hin.
  destruct Hin as [Hin _].
  unfold getOrganizationRepositories in Hrepos.
  destruct (fetch_pages _ _ []) as [fetched|] eqn:Hfetch; [|discriminate].
  injection Hrepos as <-. apply filter_In in Hin. destruct Hin as [Hin Hex].
  split.
  - intros Hexcl. apply includes_str_In in Hexcl. rewrite Hexcl in Hex.
    discriminate Hex.
  - destruct (fetch_pages_In _ _ _ _ _ Hfetch Hin) as [[]|H]. exact H.
Qed.

Lemma excluded_never_reported_witness :
  ~ In "index" (excludeRepositories default_config)
  /\ exists data,
       In (Ok data) (repos_listForOrg (octokit sample_env)
                       (organization default_config))
       /\ In "index" data.
Proof.
  apply (excluded_never_reported sample_env default_config 0
           sample_pass_report "index").
  - vm_compute. reflexivity.
  - vm_compute. left. reflexivity.
Defined.

Lemma fixed_numerator_bounds (x : Q) :
  0 <= x -> x <= 100 ->
  (0 <= fixed_numerator 2 x <= 10000)%Z.
Proof.
  intros H0 H100. unfold fixed_numerator.
  change (inject_Z (10 ^ Z.of_nat 2)) with (inject_Z 100).
  split.
  - change 0%Z with (Qfloor 0). apply Qfloor_resp_le.
    assert (H : 0 <= x * inject_Z 100) by (apply Qmult_le_0_compat; [exact H0 | discriminate]).
    apply (Qle_trans _ (x * inject_Z 100)); [exact H|].
    rewrite <- (Qplus_0_r (x * inject_Z 100)) at 1.
    apply Qplus_le_r. discriminate.
  - change 10000%Z with (Qfloor (inject_Z 10000 + (1 # 2))).
    apply Qfloor_resp_le. apply Qplus_le_l.
    change (inject_Z 10000) with (100 * inject_Z 100).
    apply Qmult_le_compat_r; [exact H100 | discriminate].
Qed.

Lemma parseFloat_toFixed_bounds (x : Q) :
  0 <= x -> x <= 100 ->
  0 <= parseFloat_toFixed 2 x /\ parseFloat_toFixed 2 x <= 100.
Proof.
  intros H0 H100. destruct (fixed_numerator_bounds x H0 H100) as [Hlo Hhi].
  unfold parseFloat_toFixed.
  change (inject_Z (10 ^ Z.of_nat 2)) with (inject_Z 100).
  unfold Qle, Qdiv, Qmult, Qinv, inject_Z. simpl. split; lia.
Qed.

Lemma analyzeWorkflows_disjoint (E : AnalyzerEnv) (config : Config)
    (repo : string) (ws : list WorkflowInfo) (t : nat) :
  Forall (fun a => (successfulRuns a + failedRuns a <= totalRuns a)%nat)
         (fst (analyzeWorkflows E config repo ws t)).
Proof.
  revert t. induction ws as [|w ws IH]; intros t; simpl; [constructor|].
  specialize (IH (S t)).
  destruct (analyzeWorkflows E config repo ws (S t)) as [others t'].
  simpl in *. constructor; [|exact IH].
  unfold analyzeWorkflow, analyzeRuns.
  cbn [successfulRuns failedRuns totalRuns].
  apply success_and_failed_disjoint.
Qed.

Lemma sums_disjoint (l : list WorkflowAnalysis) :
  Forall (fun a => (successfulRuns a + failedRuns a <= totalRuns a)%nat) l ->
  (list_sum (map successfulRuns l) + list_sum (map failedRuns l)
   <= list_sum (map totalRuns l))%nat.
Proof. induction 1 as [|a l Ha _ IH]; simpl; lia. Qed.

(** X13. In a report the successful and the failed runs together are at most
    the runs examined, and the overall success rate lies between 0 and 100;
    it is 0 when no run was examined. *)
Theorem success_rate_bounds (E : AnalyzerEnv) (config : Config) (t : nat)
    (report : AnalysisReport) :
  analyze E config t = Ok report ->
  (sum_successfulRuns (summary report) + sum_failedRuns (summary report)
   <= sum_totalRuns (summary report))%nat
  /\ 0 <= successRate report /\ successRate report <= 100
  /\ (sum_totalRuns (summary report) = 0%nat -> successRate report = 0).
Proof.
  intros Hrep.
  destruct (report_repositories E config t report Hrep)
    as [repos [_ [_ [_ [_ [H4 [H5 H6]]]]]]].
  assert (Hsum : (sum_successfulRuns (summary report)
                  + sum_failedRuns (summary report)
                  <= sum_totalRuns (summary report))%nat).
  { rewrite H4, H5, H6. apply sums_disjoint.
    apply Forall_forall. intros a Ha. apply in_flat_map in Ha.
    destruct Ha as [r [Hr Ha]]. unfold kept in Hr. apply filter_In in Hr.
    destruct Hr as [Hr _].
    destruct (analyses_from_In E config repos t r Hr) as [repo [t' [_ ->]]].
    rewrite analyzeRepository_workflows in Ha.
    pose proof (analyzeWorkflows_disjoint E config repo
                  (getWorkflows (octokit E) config repo) t') as Hall.
    rewrite Forall_forall in Hall. apply Hall. exact Ha. }
  split; [exact Hsum|].
  revert Hsum. unfold analyze in Hrep.
  destruct (checkRateLimit (octokit E)); [|discriminate].
  destruct (getOrganizationRepositories (octokit E) config) as [repos'|];
    [|discriminate].
  destruct (analyzeRepositories E config repos' no_totals t) as [acc t'].
  injection Hrep as <-. simpl. intros Hsum.
  destruct (0 <? acc_totalRuns acc)%nat eqn:Hpos.
  - apply Nat.ltb_lt in Hpos.
    destruct (percentage_bounds (acc_successfulRuns acc) (acc_totalRuns acc)
                Hpos) as [H0 H100]; [lia|].
    destruct (parseFloat_toFixed_bounds _ H0 H100) as [Hlo Hhi].
    split; [exact Hlo|]. split; [exact Hhi|]. intros Hz. lia.
  - split; [discriminate|]. split; [discriminate|]. reflexivity.
Qed.

Lemma success_rate_bounds_witness :
  0 <= successRate sample_pass_report /\ successRate sample_pass_report <= 100.
Proof.
  destruct (success_rate_bounds sample_env default_config 0 sample_pass_report)
    as [_ [H0 [H100 _]]].
  - vm_compute. reflexivity.
  - split; assumption.
Defined.

(** ** The lifecycle manager: what only grows *)

Section Steps.

Variable R : World -> World -> Prop.
Hypothesis R_refl : forall w, R w w.
Hypothesis R_trans : forall w1 w2 w3, R w1 w2 -> R w2 w3 -> R w1 w3.

Lemma steps_ret {A} (a : A) : steps R (ret a).
Proof. intros w. apply R_refl. Qed.

Lemma steps_throw {A} (e : JsError) : steps R (@throw A e).
Proof. intros w. apply R_refl. Qed.

Lemma steps_bind {A B} (m : M A) (k : A -> M B) :
  steps R m -> (forall a, steps R (k a)) -> steps R (bind m k).
Proof.
  intros Hm Hk w. unfold bind. specialize (Hm w).
  destruct (m w) as [[a|e] w1]; simpl in *.
  - exact (R_trans _ _ _ Hm (Hk a w1)).
  - exact Hm.
Qed.

Lemma steps_try_catch {A} (m : M A) (handler : JsError -> M A) :
  steps R m -> (forall e, steps R (handler e)) -> steps R (try_catch m handler).
Proof.
  intros Hm Hh w. unfold try_catch. specialize (Hm w).
  destruct (m w) as [[a|e] w1]; simpl in *.
  - exact Hm.
  - exact (R_trans _ _ _ Hm (Hh e w1)).
Qed.

End Steps.

Lemma extends_refl {A} (l : list A) : extends l l.
Proof. exists []. symmetry. apply app_nil_r. Qed.

Lemma extends_trans {A} (l1 l2 l3 : list A) :
  extends l1 l2 -> extends l2 l3 -> extends l1 l3.
Proof.
  intros [m1 ->] [m2 ->]. exists (m1 ++ m2). symmetry. apply app_assoc.
Qed.




Lemma throws_keep_bind {X A B} (part : World -> X) (m : M A) (k : A -> M B) :
  keeps part m -> (forall a, throws_keep part (k a)) ->
  throws_keep part (bind m k).
Proof.
  intros Hm Hk w e w'. unfold bind. specialize (Hm w).
  destruct (m w) as [[a|e0] w1]; simpl in Hm.
  - intros H. rewrite (Hk a w1 e w' H). exact Hm.
  - intros H. injection H as _ <-. exact Hm.
Qed.

Section Growth.

Variable E : DisablerEnv.
Variable config : Config.

Lemma write_manifest_throws_keep (file : string) (m : DisabledWorkflowsManifest) :
  throws_keep manifest_files (write_manifest E file m).
Proof.
  apply throws_keep_bind; [apply keeps_durable_manifests, fs_call_durable|].
  intros _ w e w' H. discriminate H.
Qed.

Lemma write_manifest_same_log (file : string) (m : DisabledWorkflowsManifest)
    (w : World) :
  log_entries (snd (write_manifest E file m w)) = log_entries w
  /\ backup_files (snd (write_manifest E file m w)) = backup_files w.
Proof.
  destruct w as [c f d ms bs l a].
  cbv [write_manifest bind fs_call clock fs_calls directories manifest_files
       backup_files log_entries audit_file].
  destruct (fs_outcome E f); split; reflexivity.
Qed.

Section Target.

Variable target : string -> Prop.














End Target.


(** X15. The manifest is written once, at the end, or not at all: a disable
    transition that is not a dry run and throws leaves every manifest as it
    was, and one that returns has added the manifest it returns, and nothing
    else, to the manifests; a restore that throws leaves every manifest as it
    was. *)
Theorem manifest_written_last (report : AnalysisReport)
    (manifestPath : string) (options : RestoreOptions) (w : World) :
  (match disableWorkflows E config report false w with
   | (Ok m, w') => manifest_files w' = (manifest_path, m) :: manifest_files w
   | (Throw _, w') => manifest_files w' = manifest_files w
   end)
  /\ (forall e w',
         restoreWorkflows E manifestPath options w = (Throw e, w') ->
         manifest_files w' = manifest_files w).
Proof.
  split.
  - unfold disableWorkflows. unfold bind at 1.
    pose proof (keeps_durable_manifests _ (ensureDir_durable E (backupDirectory config)) w)
      as H0.
    destruct (ensureDir E (backupDirectory config) w) as [[u|e] w0];
      simpl in H0; [|exact H0].
    unfold bind at 1.
    pose proof (disable_repositories_manifests E config false
                  (repositories report) [] w0) as H1.
    destruct (disable_repositories E config false (repositories report) [] w0)
      as [[ds|e] w1]; simpl in H1; [|congruence].
    unfold bind at 1.
    pose proof (keeps_durable_manifests _ (now_durable E) w1) as H2.
    destruct (now E w1) as [[ts|e] w2] eqn:Hnow; simpl in H2; [|congruence].
    assert (Hts : ts = time_iso E (clock w1))
      by (unfold now in Hnow; injection Hnow as <- _; reflexivity).
    cbn [negb]. unfold bind at 1. unfold write_manifest at 1.
    unfold bind at 1.
    pose proof (keeps_durable_manifests _ (fs_call_durable E) w2) as H3.
    destruct (fs_call E w2) as [[u'|e] w3]; simpl in H3.
    + simpl. congruence.
    + congruence.
  - revert w. change (throws_keep manifest_files
                        (restoreWorkflows E manifestPath options)).
    unfold restoreWorkflows.
    apply throws_keep_bind;
      [apply keeps_durable_manifests, manifest_exists_durable|].
    intros found. destruct found; cbn [negb];
      [|intros w e w' H; injection H as _ <-; reflexivity].
    apply throws_keep_bind;
      [apply keeps_durable_manifests, read_manifest_durable|].
    intros m. destruct (Nat.eqb _ 0); [intros w e w' H; discriminate H|].
    apply throws_keep_bind; [apply restore_each_manifests|]. intros _.
    destruct (negb _ && _); [|intros w e w' H; discriminate H].
    apply write_manifest_throws_keep.
Qed.

End Growth.

(** ** The audit trail and the backups on a reliable file system *)

Section Trails.

Variable E : DisablerEnv.
Variable config : Config.
Hypothesis Hok : reliable E.

Lemma addEntry_trace (entry : string -> AuditLogEntry) (w : World) :
  exists w',
    addEntry E entry w = (Ok tt, w')
    /\ clock w' = S (clock w)
    /\ log_entries w' = log_entries w ++ [entry (time_iso E (clock w))]
    /\ audit_file w' = Some (log_entries w')
    /\ backup_files w' = backup_files w.
Proof.
  destruct w as [c f d ms bs l a].
  cbv [addEntry bind now push_entry save fs_call clock fs_calls directories
       manifest_files backup_files log_entries audit_file].
  rewrite Hok. eexists. repeat split.
Qed.

Lemma disableWorkflow_trace (r : string) (a : WorkflowAnalysis) (w : World) :
  let d := disabled_record E config r a (time_iso E (clock w))
                           (time_iso E (S (clock w))) in
  exists w',
    disableWorkflow E config r a false w = (Ok d, w')
    /\ clock w' = (3 + clock w)%nat
    /\ log_entries w'
       = log_entries w
         ++ [backup_entry r a (backupPath d) (time_iso E (2 + clock w))]
    /\ audit_file w' = Some (log_entries w')
    /\ backup_files w' = (backupPath d, a) :: backup_files w.
Proof.
  intros d. unfold disableWorkflow.
  destruct (now_ok E w) as [w1 [H1 Hc1]]. rewrite (bind_ok _ _ _ _ _ H1).
  destruct (now_ok E w1) as [w2 [H2 Hc2]]. rewrite (bind_ok _ _ _ _ _ H2).
  rewrite Hc1. cbv zeta. change (negb false) with true. cbv iota. fold d.
  assert (H12 : log_entries w2 = log_entries w
                /\ backup_files w2 = backup_files w).
  { pose proof (now_durable E w) as Ha. pose proof (now_durable E w1) as Hb.
    rewrite H1 in Ha. rewrite H2 in Hb. unfold durable in Ha, Hb. simpl in Ha, Hb.
    injection Ha as _ Ha1 Ha2 _. injection Hb as _ Hb1 Hb2 _.
    split; congruence. }
  destruct H12 as [Hl2 Hb2].
  assert (H3 : exists w3, write_backup E (backupPath d) a w2 = (Ok tt, w3)
                          /\ clock w3 = clock w2
                          /\ log_entries w3 = log_entries w2
                          /\ backup_files w3
                             = (backupPath d, a) :: backup_files w2).
  { destruct w2 as [c2 f2 d2 ms2 bs2 l2 a2].
    cbv [write_backup bind fs_call clock fs_calls directories manifest_files
         backup_files log_entries audit_file].
    rewrite Hok. eexists. repeat split. }
  destruct H3 as [w3 [H3 [Hc3 [Hl3 Hb3]]]]. rewrite (bind_ok _ _ _ _ _ H3).
  destruct (addEntry_trace (backup_entry r a (backupPath d)) w3)
    as [w4 [H4 [Hc4 [Hl4 [Ha4 Hb4]]]]].
  rewrite (bind_ok _ _ _ _ _ H4). exists w4.
  split; [reflexivity|]. split; [lia|].
  split; [rewrite Hl4, Hl3, Hl2, Hc3, Hc2, Hc1; reflexivity|].
  split; [exact Ha4|]. rewrite Hb4, Hb3, Hb2. reflexivity.
Qed.

Lemma disable_one_trace (r : string) (a : WorkflowAnalysis)
    (acc : list DisabledWorkflow) (w : World) :
  let d := disabled_record E config r a (time_iso E (clock w))
                           (time_iso E (S (clock w))) in
  exists w',
    disable_one E config r false a acc w = (Ok (acc ++ [d]), w')
    /\ clock w' = (4 + clock w)%nat
    /\ log_entries w'
       = log_entries w
         ++ [backup_entry r a (backupPath d) (time_iso E (2 + clock w));
             disable_entry r a d (time_iso E (3 + clock w))]
    /\ audit_file w' = Some (log_entries w')
    /\ backup_files w' = (backupPath d, a) :: backup_files w.
Proof.
  intros d. unfold disable_one.
  destruct (disableWorkflow_trace r a w) as [w1 [H1 [Hc1 [Hl1 [_ Hb1]]]]].
  fold d in H1, Hl1, Hb1. rewrite H1.
  destruct (addEntry_trace (disable_entry r a d) w1)
    as [w2 [H2 [Hc2 [Hl2 [Ha2 Hb2]]]]].
  rewrite H2. exists w2.
  split; [reflexivity|]. split; [lia|].
  split; [rewrite Hl2, Hl1, Hc1, <- app_assoc; reflexivity|].
  split; [exact Ha2|]. rewrite Hb2, Hb1. reflexivity.
Qed.

Lemma disable_trail_app (t : nat) (l1 l2 : list (string * WorkflowAnalysis)) :
  disable_trail E config t (l1 ++ l2)
  = disable_trail E config t l1
    ++ disable_trail E config (4 * length l1 + t) l2.
Proof.
  revert t. induction l1 as [|[r a] l1 IH]; intros t; simpl; [reflexivity|].
  rewrite IH. do 4 f_equal. lia.
Qed.

Lemma disable_each_trace (r : string) (failing : list WorkflowAnalysis)
    (acc : list DisabledWorkflow) (w : World) :
  let fl := map (pair r) failing in
  exists w',
    disable_each E config r false failing acc w
    = (Ok (acc ++ built_records E config (clock w) fl), w')
    /\ clock w' = (4 * length fl + clock w)%nat
    /\ log_entries w' = log_entries w ++ disable_trail E config (clock w) fl
    /\ audit_file w'
       = match fl with [] => audit_file w | _ => Some (log_entries w') end
    /\ backup_files w'
       = rev (backups_of (built_records E config (clock w) fl))
         ++ backup_files w.
Proof.
  revert acc w. induction failing as [|a failing IH]; intros acc w; simpl.
  - exists w. rewrite !app_nil_r. repeat split.
  - destruct (disable_one_trace r a acc w) as [w1 [H1 [Hc1 [Hl1 [Ha1 Hb1]]]]].
    rewrite (bind_ok _ _ _ _ _ H1).
    destruct (IH (acc ++ [disabled_record E config r a (time_iso E (clock w))
                            (time_iso E (S (clock w)))]) w1)
      as [w2 [H2 [Hc2 [Hl2 [Ha2 Hb2]]]]].
    exists w2. rewrite H2, Hc1, <- app_assoc in *. simpl app.
    split; [reflexivity|]. split; [rewrite length_map in *; lia|].
    split; [rewrite Hl2, Hl1, <- app_assoc; reflexivity|].
    split.
    + rewrite Ha2. destruct (map (pair r) failing); [|reflexivity].
      simpl in Hl2. rewrite app_nil_r in Hl2. congruence.
    + rewrite Hb2, Hb1. unfold backups_of. simpl. rewrite <- app_assoc.
      reflexivity.
Qed.

Lemma disable_repositories_trace (repos : list RepositoryAnalysis)
    (acc : list DisabledWorkflow) (w : World) :
  let fl := flat_map (fun r => map (pair (ra_repository r))
                                   (filter shouldDisable (workflows r))) repos in
  exists w',
    disable_repositories E config false repos acc w
    = (Ok (acc ++ built_records E config (clock w) fl), w')
    /\ clock w' = (4 * length fl + clock w)%nat
    /\ log_entries w' = log_entries w ++ disable_trail E config (clock w) fl
    /\ audit_file w'
       = match fl with [] => audit_file w | _ => Some (log_entries w') end
    /\ backup_files w'
       = rev (backups_of (built_records E config (clock w) fl))
         ++ backup_files w.
Proof.
  revert acc w. induction repos as [|r repos IH]; intros acc w; simpl.
  - exists w. rewrite !app_nil_r. repeat split.
  - destruct (filter shouldDisable (workflows r)) as [|a failing] eqn:Hf.
    + simpl. apply IH.
    + cbn [length Nat.eqb]. rewrite <- Hf.
      destruct (disable_each_trace (ra_repository r)
                  (filter shouldDisable (workflows r)) acc w)
        as [w1 [H1 [Hc1 [Hl1 [Ha1 Hb1]]]]].
      rewrite (bind_ok _ _ _ _ _ H1).
      destruct (IH (acc ++ built_records E config (clock w)
                             (map (pair (ra_repository r))
                                  (filter shouldDisable (workflows r)))) w1)
        as [w2 [H2 [Hc2 [Hl2 [Ha2 Hb2]]]]].
      exists w2.
      rewrite H2, Hc1, built_records_app, disable_trail_app, <- app_assoc in *.
      split; [reflexivity|].
      split; [rewrite length_app; lia|].
      split; [rewrite Hl2, Hl1, <- app_assoc; reflexivity|].
      split.
      * rewrite Ha2, Hf. simpl.
        destruct (flat_map _ repos); [|reflexivity].
        simpl in Hl2. rewrite app_nil_r in Hl2.
        rewrite Ha1, Hf. simpl. congruence.
      * rewrite Hb2, Hb1. unfold backups_of.
        rewrite map_app, rev_app_distr, <- app_assoc. reflexivity.
Qed.

Lemma disable_trail_shape (t : nat) (fl : list (string * WorkflowAnalysis)) :
  map action (disable_trail E config t fl)
  = flat_map (fun _ => [ActBackup; ActDisable]) fl
  /\ Forall (fun e => success e = true /\ error e = None)
            (disable_trail E config t fl).
Proof.
  revert t. induction fl as [|[r a] fl IH]; intros t; simpl.
  - split; [reflexivity | constructor].
  - destruct (IH (4 + t)%nat) as [H1 H2]. split.
    + simpl in H1. rewrite H1. reflexivity.
    + repeat constructor. exact H2.
Qed.

(** X16. On a reliable file system a disable transition that is not a dry
    run leaves a complete trail: for each flagged workflow of the report, in
    order, it appends a successful backup entry and then a successful disable
    entry to the audit log, it writes one backup document, holding the
    workflow's analysis, at the backup location recorded in the manifest, and
    the audit log on disk ends up equal to the log in memory. *)
Theorem disable_leaves_trail (report : AnalysisReport) (w : World) :
  let w' := snd (disableWorkflows E config report false w) in
  let records := built_records E config (clock w) (flagged report) in
  log_entries w'
  = log_entries w ++ disable_trail E config (clock w) (flagged report)
  /\ map action (disable_trail E config (clock w) (flagged report))
     = flat_map (fun _ => [ActBackup; ActDisable]) (flagged report)
  /\ Forall (fun e => success e = true /\ error e = None)
            (disable_trail E config (clock w) (flagged report))
  /\ backup_files w' = rev (backups_of records) ++ backup_files w
  /\ (flagged report <> [] -> audit_file w' = Some (log_entries w')).
Proof.
  intros w' records.
  destruct (disable_trail_shape (clock w) (flagged report)) as [Hact Hsucc].
  assert (Hrun : log_entries w'
                 = log_entries w
                   ++ disable_trail E config (clock w) (flagged report)
                 /\ backup_files w' = rev (backups_of records) ++ backup_files w
                 /\ audit_file w'
                    = match flagged report with
                      | [] => audit_file w
                      | _ => Some (log_entries w')
                      end).
  { unfold w', records, disableWorkflows.
    destruct (ensureDir_ok E (backupDirectory config) w Hok)
      as [w0 [H0 [Hc0 _]]].
    pose proof (ensureDir_durable E (backupDirectory config) w) as Hd0.
    rewrite H0 in Hd0. unfold durable in Hd0. simpl in Hd0.
    injection Hd0 as _ Hb0 Hl0 Ha0.
    rewrite (bind_ok _ _ _ _ _ H0).
    destruct (disable_repositories_trace (repositories report) [] w0)
      as [w1 [H1 [Hc1 [Hl1 [Ha1 Hb1]]]]].
    fold (flagged report) in H1, Hc1, Hl1, Ha1, Hb1.
    rewrite (bind_ok _ _ _ _ _ H1).
    destruct (now_ok E w1) as [w2 [H2 Hc2]].
    pose proof (now_durable E w1) as Hd2.
    rewrite H2 in Hd2. unfold durable in Hd2. simpl in Hd2.
    injection Hd2 as _ Hb2 Hl2 Ha2.
    rewrite (bind_ok _ _ _ _ _ H2).
    change (negb false) with true. cbv iota.
    set (m := {| dm_timestamp := time_iso E (clock w1);
                 disabledWorkflows :=
                   [] ++ built_records E config (clock w0) (flagged report) |}).
    assert (H3 : exists w3, write_manifest E manifest_path m w2 = (Ok tt, w3)
                            /\ log_entries w3 = log_entries w2
                            /\ backup_files w3 = backup_files w2
                            /\ audit_file w3 = audit_file w2).
    { destruct w2 as [c2 f2 d2 ms2 bs2 l2 a2].
      cbv [write_manifest bind fs_call clock fs_calls directories
           manifest_files backup_files log_entries audit_file].
      rewrite Hok. eexists. repeat split. }
    destruct H3 as [w3 [H3 [Hl3 [Hb3 Ha3]]]].
    rewrite (bind_ok _ _ _ _ _ H3). simpl snd.
    rewrite Hl3, Hb3, Ha3, Hl2, Hb2, Ha2, Hl1, Hb1, Ha1, Hl1, Hl0, Hb0, Ha0, Hc0.
    split; [reflexivity|]. split; reflexivity. }
  destruct Hrun as [Hl [Hb Ha]].
  split; [exact Hl|]. split; [exact Hact|]. split; [exact Hsucc|].
  split; [exact Hb|].
  intros Hne. rewrite Ha. destruct (flagged report); [contradiction|reflexivity].
Qed.

End Trails.

Lemma disable_leaves_trail_witness :
  let w' := snd (disableWorkflows sample_disabler_env default_config
                   sample_report false empty_world) in
  map action (log_entries w') = [ActBackup; ActDisable; ActBackup; ActDisable]
  /\ map fst (backup_files w')
     = ["workflow-backups/api_deploy.yml_2024-01-09T00-00-00-004Z";
        "workflow-backups/index_ci.yml_2024-01-09T00-00-00-000Z"]
  /\ audit_file w' = Some (log_entries w').
Proof.
  intros w'.
  destruct (disable_leaves_trail sample_disabler_env default_config
              sample_reliable sample_report empty_world)
    as [Hl [Hact [_ [Hb Ha]]]].
  fold w' in Hl, Hb, Ha.
  split; [rewrite Hl; vm_compute; reflexivity|].
  split; [rewrite Hb; vm_compute; reflexivity|].
  apply Ha. vm_compute. discriminate.
Defined.

(** ** What a restore does *)

Lemma selected_objects (options : RestoreOptions) (ds : list DisabledWorkflow) :
  map snd (select_workflows options (objects_of ds))
  = filter (selected options) ds.
Proof.
  rewrite select_workflows_filter. unfold objects_of. generalize 0%nat.
  induction ds as [|d ds IH]; intros s; simpl; [reflexivity|].
  destruct (selected options d); simpl; rewrite IH; reflexivity.
Qed.

Lemma filter_none {A} (f : A -> bool) (l : list A) :
  filter f l = [] -> filter (fun x => negb (f x)) l = l.
Proof.
  induction l as [|x l IH]; simpl; [reflexivity|].
  destruct (f x); [discriminate|]. simpl. intros H. rewrite (IH H). reflexivity.
Qed.

Lemma filter_twice_none {A} (f : A -> bool) (l : list A) :
  filter f (filter (fun x => negb (f x)) l) = [].
Proof.
  induction l as [|x l IH]; simpl; [reflexivity|].
  destruct (f x) eqn:Hx; simpl; [exact IH|]. rewrite Hx. exact IH.
Qed.

Section Restores.

Variable E : DisablerEnv.

(** A restore that selects no record: nothing is logged or written. *)
Lemma restoreWorkflows_none (manifestPath : string) (options : RestoreOptions)
    (m : DisabledWorkflowsManifest) (w : World) :
  manifest_at manifestPath w = Some m ->
  fs_outcome E (fs_calls w) = None ->
  filter (selected options) (disabledWorkflows m) = [] ->
  exists w',
    restoreWorkflows E manifestPath options w = (Ok tt, w')
    /\ durable w' = durable w /\ clock w' = clock w.
Proof.
  intros Hm Hread Hnone. unfold restoreWorkflows.
  assert (Hfound : manifest_exists manifestPath w = (Ok true, w))
    by (unfold manifest_exists; rewrite Hm; reflexivity).
  rewrite (bind_ok _ _ _ _ _ Hfound). change (negb true) with false. cbv iota.
  assert (H0 : exists w0, read_manifest E manifestPath w = (Ok m, w0)
                          /\ durable w0 = durable w /\ clock w0 = clock w).
  { unfold manifest_at in Hm. destruct w as [c f d ms bs l a].
    cbv [read_manifest bind fs_call manifest_at clock fs_calls directories
         manifest_files backup_files log_entries audit_file] in *.
    rewrite Hread. destruct (find _ ms) as [b|]; [|discriminate].
    injection Hm as ->. eexists. repeat split. }
  destruct H0 as [w0 [H0 [Hd0 Hc0]]]. rewrite (bind_ok _ _ _ _ _ H0).
  assert (Hlen : length (select_workflows options
                           (objects_of (disabledWorkflows m))) = 0%nat).
  { rewrite <- (length_map snd), selected_objects, Hnone. reflexivity. }
  rewrite Hlen. exists w0. split; [reflexivity|]. split; assumption.
Qed.

Hypothesis Hok : reliable E.

Lemma restore_each_trace (ws : list (nat * DisabledWorkflow)) (w : World) :
  exists w',
    restore_each E false ws w = (Ok tt, w')
    /\ clock w' = (length ws + clock w)%nat
    /\ log_entries w'
       = log_entries w ++ restore_trail E (clock w) (map snd ws)
    /\ backup_files w' = backup_files w
    /\ manifest_files w' = manifest_files w.
Proof.
  revert w. induction ws as [|o ws IH]; intros w; simpl.
  - exists w. rewrite app_nil_r. repeat split.
  - destruct (addEntry_trace E Hok (restore_entry (snd o)) w)
      as [w1 [H1 [Hc1 [Hl1 [_ Hb1]]]]].
    pose proof (addEntry_manifests E (restore_entry (snd o)) w) as Hm1.
    rewrite H1 in Hm1. simpl in Hm1.
    assert (Hone : restore_one E false (snd o) w = (Ok tt, w1)).
    { unfold restore_one, try_catch, restoreWorkflow. simpl.
      unfold bind at 1. simpl. rewrite H1. reflexivity. }
    rewrite (bind_ok _ _ _ _ _ Hone).
    destruct (IH w1) as [w2 [H2 [Hc2 [Hl2 [Hb2 Hm2]]]]].
    exists w2. split; [exact H2|]. split; [lia|].
    split; [rewrite Hl2, Hl1, Hc1, <- app_assoc; reflexivity|].
    split; congruence.
Qed.

(** What a restore that is not a dry run does on a reliable file system. *)
Lemma restoreWorkflows_trace (manifestPath : string) (options : RestoreOptions)
    (m : DisabledWorkflowsManifest) (w : World) :
  manifest_at manifestPath w = Some m ->
  opt_dryRun options = Some false ->
  exists w',
    restoreWorkflows E manifestPath options w = (Ok tt, w')
    /\ manifest_at manifestPath w'
       = Some {| dm_timestamp := dm_timestamp m;
                 disabledWorkflows :=
                   filter (fun d => negb (selected options d))
                          (disabledWorkflows m) |}
    /\ log_entries w'
       = log_entries w
         ++ restore_trail E (clock w)
              (filter (selected options) (disabledWorkflows m))
    /\ backup_files w' = backup_files w.
Proof.
  intros Hm Hdry.
  destruct (filter (selected options) (disabledWorkflows m)) as [|d0 ds0]
    eqn:Hsel.
  - destruct (restoreWorkflows_none manifestPath options m w Hm (Hok _) Hsel)
      as [w' [Hrun [Hd Hc]]].
    exists w'. split; [exact Hrun|].
    unfold durable in Hd. injection Hd as Hms Hbs Hls _.
    split.
    + unfold manifest_at in *. rewrite Hms, Hm, (filter_none _ _ Hsel).
      destruct m; reflexivity.
    + split; [simpl; rewrite app_nil_r; exact Hls | exact Hbs].
  - assert (Hex : exists d, In d (disabledWorkflows m)
                            /\ selected options d = true).
    { exists d0. apply filter_In. rewrite Hsel. left. reflexivity. }
    destruct (restoreWorkflows_ok E manifestPath options m w Hok Hm Hdry Hex)
      as [w' [Hrun Hat]].
    exists w'. split; [exact Hrun|]. split; [exact Hat|].
    revert Hrun. unfold restoreWorkflows. rewrite Hdry.
    assert (Hfound : manifest_exists manifestPath w = (Ok true, w))
      by (unfold manifest_exists; rewrite Hm; reflexivity).
    rewrite (bind_ok _ _ _ _ _ Hfound). change (negb true) with false.
    cbv iota.
    assert (H0 : exists w0, read_manifest E manifestPath w = (Ok m, w0)
                            /\ durable w0 = durable w /\ clock w0 = clock w).
    { unfold manifest_at in Hm. destruct w as [c f d ms bs l a].
      cbv [read_manifest bind fs_call manifest_at clock fs_calls directories
           manifest_files backup_files log_entries audit_file] in *.
      rewrite Hok. destruct (find _ ms) as [b|]; [|discriminate].
      injection Hm as ->. eexists. repeat split. }
    destruct H0 as [w0 [H0 [Hd0 Hc0]]]. rewrite (bind_ok _ _ _ _ _ H0).
    unfold durable in Hd0. injection Hd0 as _ Hb0 Hl0 _.
    assert (Hlen : Nat.eqb (length (select_workflows options
                                      (objects_of (disabledWorkflows m)))) 0
                   = false).
    { apply Nat.eqb_neq. rewrite <- (length_map snd), selected_objects, Hsel.
      discriminate. }
    rewrite Hlen.
    destruct (restore_each_trace
                (select_workflows options (objects_of (disabledWorkflows m)))
                w0) as [w1 [H1 [Hc1 [Hl1 [Hb1 _]]]]].
    rewrite (bind_ok _ _ _ _ _ H1).
    rewrite selected_objects, Hsel in Hl1.
    destruct (negb false && _).
    + pose proof (write_manifest_same_log E manifestPath
                    {| dm_timestamp := dm_timestamp m;
                       disabledWorkflows :=
                         map snd
                           (filter
                              (fun o => negb (includes_obj
                                 (select_workflows options
                                    (objects_of (disabledWorkflows m))) o))
                              (objects_of (disabledWorkflows m))) |} w1)
        as [Hl2 Hb2].
      intros Hrun. rewrite Hrun in Hl2, Hb2. simpl in Hl2, Hb2.
      split; congruence.
    + intros Hrun. injection Hrun as <-. split; congruence.
Qed.

(** X17. What a restore that is not a dry run does on a reliable file
    system, given a manifest: it appends one successful restore entry for
    each selected record, in the order of the manifest; it leaves in the
    manifest exactly the records that are not selected, in their order and
    under the manifest's old time stamp; and it neither reads nor removes any
    backup document. *)
Theorem restore_effect (manifestPath : string) (options : RestoreOptions)
    (m : DisabledWorkflowsManifest) (w : World) :
  manifest_at manifestPath w = Some m ->
  opt_dryRun options = Some false ->
  let w' := snd (restoreWorkflows E manifestPath options w) in
  let chosen := filter (selected options) (disabledWorkflows m) in
  fst (restoreWorkflows E manifestPath options w) = Ok tt
  /\ option_map disabledWorkflows (manifest_at manifestPath w')
     = Some (filter (fun d => negb (selected options d)) (disabledWorkflows m))
  /\ option_map dm_timestamp (manifest_at manifestPath w')
     = Some (dm_timestamp m)
  /\ log_entries w' = log_entries w ++ restore_trail E (clock w) chosen
  /\ map (fun e => (action e, ae_repository e, ae_workflow e, success e))
         (restore_trail E (clock w) chosen)
     = map (fun d => (ActRestore, Some (dw_repository d),
                      Some (dw_workflowName d), true)) chosen
  /\ backup_files w' = backup_files w.
Proof.
  intros Hm Hdry w' chosen.
  destruct (restoreWorkflows_trace manifestPath options m w Hm Hdry)
    as [w1 [Hrun [Hat [Hl Hb]]]].
  unfold w'. rewrite Hrun. simpl fst. simpl snd. rewrite Hat. simpl.
  split; [reflexivity|]. split; [reflexivity|]. split; [reflexivity|].
  split; [exact Hl|]. split; [|exact Hb].
  generalize (clock w). induction chosen as [|d ds IH]; intros t; simpl;
    [reflexivity|]. rewrite IH. reflexivity.
Qed.

(** X18. A restore by repository alone, on a reliable file system and not a
    dry run, removes from the manifest every record of that repository and no
    other: a record is in the manifest afterwards exactly when it was there
    before and belongs to another repository. *)
Theorem restore_by_repository (manifestPath : string) (x : string)
    (a : option bool) (m : DisabledWorkflowsManifest) (w : World) :
  manifest_at manifestPath w = Some m ->
  x <> "" ->
  let options := {| repo := Some x; workflow := None; all := a;
                    opt_dryRun := Some false |} in
  let w' := snd (restoreWorkflows E manifestPath options w) in
  exists m',
    manifest_at manifestPath w' = Some m'
    /\ disabledWorkflows m'
       = filter (fun d => negb (String.eqb (dw_repository d) x))
                (disabledWorkflows m)
    /\ forall d, In d (disabledWorkflows m')
                 <-> In d (disabledWorkflows m) /\ dw_repository d <> x.
Proof.
  intros Hm Hx options w'.
  destruct (restoreWorkflows_trace manifestPath options m w Hm eq_refl)
    as [w1 [Hrun [Hat _]]].
  unfold w'. rewrite Hrun. simpl snd. eexists. split; [exact Hat|].
  assert (Hsel : forall d, selected options d = String.eqb (dw_repository d) x).
  { intros d. unfold selected, options. simpl.
    destruct x as [|c x']; [contradiction|]. simpl. apply andb_true_r. }
  assert (Hrecords : filter (fun d => negb (selected options d))
                            (disabledWorkflows m)
                     = filter (fun d => negb (String.eqb (dw_repository d) x))
                              (disabledWorkflows m)).
  { apply filter_ext. intros d. rewrite Hsel. reflexivity. }
  simpl. rewrite Hrecords. split; [reflexivity|].
  intros d. rewrite filter_In, negb_true_iff.
  split; intros [Hin Hne]; split; try exact Hin.
  - intros Heq. apply String.eqb_eq in Heq. congruence.
  - apply String.eqb_neq. exact Hne.
Qed.

(** X19. Restoring twice is restoring once: on a reliable file system, a
    second restore with the same options, right after a first one that was
    not a dry run, finds no record to restore; it returns without writing the
    manifest, a backup or an audit entry. *)
Theorem restore_twice (manifestPath : string) (options : RestoreOptions)
    (m : DisabledWorkflowsManifest) (w : World) :
  manifest_at manifestPath w = Some m ->
  opt_dryRun options = Some false ->
  let once := snd (restoreWorkflows E manifestPath options w) in
  let twice := restoreWorkflows E manifestPath options once in
  fst twice = Ok tt /\ durable (snd twice) = durable once.
Proof.
  intros Hm Hdry once twice.
  destruct (restoreWorkflows_trace manifestPath options m w Hm Hdry)
    as [w1 [Hrun [Hat _]]].
  unfold twice, once. rewrite Hrun. simpl snd.
  destruct (restoreWorkflows_none manifestPath options _ w1 Hat (Hok _))
    as [w2 [Hrun2 [Hd _]]].
  - simpl. apply filter_twice_none.
  - rewrite Hrun2. split; [reflexivity | exact Hd].
Qed.

End Restores.

(** X7. The workflow filter of a restore looks for a piece of text anywhere
    in the original path.  On a reliable file system, a restore that is not
    a dry run and is given a non-empty workflow text and no repository takes
    out of an existing manifest exactly the records whose original path holds
    the text: a record is in the manifest afterwards exactly when it was
    there before and its original path is not of the form
    [pre ++ text ++ post].  An empty workflow text is no filter: whatever the
    file system does, the restore then does what it does without a workflow
    text. *)
Theorem restore_by_workflow (E : DisablerEnv) (manifestPath text : string)
    (r : option string) (a dry : option bool) (m : DisabledWorkflowsManifest)
    (w : World) :
  (reliable E ->
   manifest_at manifestPath w = Some m ->
   text <> "" ->
   let options := {| repo := None; workflow := Some text; all := a;
                     opt_dryRun := Some false |} in
   let w' := snd (restoreWorkflows E manifestPath options w) in
   exists m',
     manifest_at manifestPath w' = Some m'
     /\ disabledWorkflows m'
        = filter (fun d => negb (str_includes (originalPath d) text))
                 (disabledWorkflows m)
     /\ forall d, In d (disabledWorkflows m')
                  <-> In d (disabledWorkflows m)
                      /\ ~ exists pre post,
                            originalPath d = (pre ++ text ++ post)%string)
  /\ restoreWorkflows E manifestPath
       {| repo := r; workflow := Some ""; all := a; opt_dryRun := dry |} w
     = restoreWorkflows E manifestPath
         {| repo := r; workflow := None; all := a; opt_dryRun := dry |} w.
Proof.
  split; [|reflexivity].
  intros Hok Hm Htext options w'.
  destruct (restoreWorkflows_trace E Hok manifestPath options m w Hm eq_refl)
    as [w1 [Hrun [Hat _]]].
  unfold w'. rewrite Hrun. simpl snd. eexists. split; [exact Hat|].
  assert (Hsel : forall d, selected options d
                           = str_includes (originalPath d) text).
  { intros d. unfold selected, options. simpl.
    destruct text as [|c text']; [contradiction|]. reflexivity. }
  assert (Hrecords : filter (fun d => negb (selected options d))
                            (disabledWorkflows m)
                     = filter (fun d => negb (str_includes (originalPath d) text))
                              (disabledWorkflows m)).
  { apply filter_ext. intros d. rewrite Hsel. reflexivity. }
  simpl. rewrite Hrecords. split; [reflexivity|].
  intros d. rewrite filter_In, negb_true_iff.
  destruct (str_includes_occurs (originalPath d) text) as [Hocc _].
  split; intros [Hin Hne]; split; try exact Hin.
  - intros Hex. apply Hocc in Hex. congruence.
  - destruct (str_includes (originalPath d) text) eqn:Hinc; [|reflexivity].
    exfalso. apply Hne, Hocc. reflexivity.
Qed.

(** X20. A restore without a manifest at the given path throws "Manifest file
    not found" before anything else happens, and a restore whose filters
    select no record of the manifest returns normally: in both cases no
    manifest, backup or audit entry is written, also when the restore is not
    a dry run. *)
Theorem restore_without_candidates (E : DisablerEnv) (manifestPath : string)
    (options : RestoreOptions) (w : World) :
  (manifest_at manifestPath w = None ->
   restoreWorkflows E manifestPath options w
   = (Throw (Error ("Manifest file not found: " ++ manifestPath)%string), w))
  /\ (forall m,
         manifest_at manifestPath w = Some m ->
         fs_outcome E (fs_calls w) = None ->
         Forall (fun d => selected options d = false) (disabledWorkflows m) ->
         fst (restoreWorkflows E manifestPath options w) = Ok tt
         /\ durable (snd (restoreWorkflows E manifestPath options w))
            = durable w).
Proof.
  split.
  - intros Hm. unfold restoreWorkflows, bind, manifest_exists. rewrite Hm.
    reflexivity.
  - intros m Hm Hread Hnone.
    destruct (restoreWorkflows_none E manifestPath options m w Hm Hread)
      as [w' [Hrun [Hd _]]].
    + induction Hnone as [|d ds Hd _ IH]; simpl; [reflexivity|].
      rewrite Hd. exact IH.
    + rewrite Hrun. split; [reflexivity | exact Hd].
Qed.

(** ** The preview of a dry run *)

Section Preview.

Variable E : DisablerEnv.
Variable config : Config.

Lemma previewed_records_app (t : nat) (l1 l2 : list (string * WorkflowAnalysis)) :
  previewed_records E config t (l1 ++ l2)
  = previewed_records E config t l1
    ++ previewed_records E config (2 * length l1 + t) l2.
Proof.
  revert t. induction l1 as [|[r a] l1 IH]; intros t; simpl; [reflexivity|].
  rewrite IH. do 3 f_equal. lia.
Qed.

Lemma previewed_untimed (t t' : nat) (fl : list (string * WorkflowAnalysis)) :
  map untimed (previewed_records E config t fl)
  = map untimed (built_records E config t' fl).
Proof.
  revert t t'. induction fl as [|[r a] fl IH]; intros t t'; simpl;
    [reflexivity|].
  rewrite (IH _ (4 + t')%nat). reflexivity.
Qed.

Lemma previewed_origins (t : nat) (fl : list (string * WorkflowAnalysis)) :
  map (fun d => (dw_repository d, analysis d)) (previewed_records E config t fl)
  = fl.
Proof.
  revert t. induction fl as [|[r a] fl IH]; intros t; simpl; [reflexivity|].
  rewrite IH. reflexivity.
Qed.

Lemma disable_one_dry (r : string) (a : WorkflowAnalysis)
    (acc : list DisabledWorkflow) (w : World) :
  exists w',
    disable_one E config r true a acc w
    = (Ok (acc ++ [disabled_record E config r a (time_iso E (clock w))
                                   (time_iso E (S (clock w)))]), w')
    /\ clock w' = (2 + clock w)%nat.
Proof.
  unfold disable_one, disableWorkflow.
  destruct (now_ok E w) as [w1 [H1 Hc1]]. rewrite (bind_ok _ _ _ _ _ H1).
  destruct (now_ok E w1) as [w2 [H2 Hc2]]. rewrite (bind_ok _ _ _ _ _ H2).
  rewrite Hc1. exists w2. split; [reflexivity | lia].
Qed.

Lemma disable_each_dry (r : string) (failing : list WorkflowAnalysis)
    (acc : list DisabledWorkflow) (w : World) :
  exists w',
    disable_each E config r true failing acc w
    = (Ok (acc ++ previewed_records E config (clock w) (map (pair r) failing)),
       w')
    /\ clock w' = (2 * length failing + clock w)%nat.
Proof.
  revert acc w. induction failing as [|a failing IH]; intros acc w; simpl.
  - exists w. rewrite app_nil_r. split; reflexivity.
  - destruct (disable_one_dry r a acc w) as [w1 [H1 Hc1]].
    rewrite (bind_ok _ _ _ _ _ H1).
    destruct (IH (acc ++ [disabled_record E config r a (time_iso E (clock w))
                            (time_iso E (S (clock w)))]) w1) as [w2 [H2 Hc2]].
    exists w2. rewrite H2, Hc1, <- app_assoc. split; [reflexivity | lia].
Qed.

Lemma disable_repositories_dry (repos : list RepositoryAnalysis)
    (acc : list DisabledWorkflow) (w : World) :
  let fl := flat_map (fun r => map (pair (ra_repository r))
                                   (filter shouldDisable (workflows r))) repos in
  exists w',
    disable_repositories E config true repos acc w
    = (Ok (acc ++ previewed_records E config (clock w) fl), w')
    /\ clock w' = (2 * length fl + clock w)%nat.
Proof.
  revert acc w. induction repos as [|r repos IH]; intros acc w; simpl.
  - exists w. rewrite app_nil_r. split; reflexivity.
  - destruct (filter shouldDisable (workflows r)) as [|a failing] eqn:Hf.
    + simpl. apply IH.
    + cbn [length Nat.eqb]. rewrite <- Hf.
      destruct (disable_each_dry (ra_repository r)
                  (filter shouldDisable (workflows r)) acc w) as [w1 [H1 Hc1]].
      rewrite (bind_ok _ _ _ _ _ H1).
      destruct (IH (acc ++ previewed_records E config (clock w)
                             (map (pair (ra_repository r))
                                  (filter shouldDisable (workflows r)))) w1)
        as [w2 [H2 Hc2]].
      exists w2. rewrite H2, Hc1, previewed_records_app, <- app_assoc.
      rewrite !length_app, !length_map in *.
      split; [reflexivity | lia].
Qed.

(** X21. A dry run of the disable transition previews what a live run does:
    once the backup directory could be ensured, it returns, whatever the file
    system does afterwards, a manifest with one record for each flagged
    workflow of the report, in order, and these records are, time stamps
    apart, the records a live run persists on a reliable file system. *)
Theorem dry_run_previews (report : AnalysisReport) (w : World) :
  fs_outcome E (fs_calls w) = None ->
  exists m w',
    disableWorkflows E config report true w = (Ok m, w')
    /\ disabledWorkflows m
       = previewed_records E config (clock w) (flagged report)
    /\ origins m = flagged report
    /\ forall t, map untimed (disabledWorkflows m)
                 = map untimed (built_records E config t (flagged report)).
Proof.
  intros Hdir. unfold disableWorkflows.
  assert (H0 : exists w0, ensureDir E (backupDirectory config) w = (Ok tt, w0)
                          /\ clock w0 = clock w).
  { destruct w as [c f d ms bs l a].
    cbv [ensureDir bind fs_call clock fs_calls directories manifest_files
         backup_files log_entries audit_file] in *.
    rewrite Hdir. eexists. split; reflexivity. }
  destruct H0 as [w0 [H0 Hc0]]. rewrite (bind_ok _ _ _ _ _ H0).
  destruct (disable_repositories_dry (repositories report) [] w0)
    as [w1 [H1 Hc1]].
  fold (flagged report) in H1, Hc1. rewrite (bind_ok _ _ _ _ _ H1).
  destruct (now_ok E w1) as [w2 [H2 Hc2]]. rewrite (bind_ok _ _ _ _ _ H2).
  change (negb true) with false. cbv iota.
  eexists. exists w2. split; [reflexivity|]. simpl.
  rewrite Hc0. split; [reflexivity|]. split.
  - unfold origins. simpl. apply previewed_origins.
  - intros t. apply previewed_untimed.
Qed.

(** X22. A workflow whose backup cannot be written is skipped, and the batch
    goes on, as long as the audit log can be saved: the workflow gets no
    record and no backup document, and one failed disable entry carrying the
    error message is appended and saved.  When the audit log cannot be saved
    either, the error leaves the loop and the transition throws. *)
Theorem backup_failure_is_logged (r : string) (a : WorkflowAnalysis)
    (acc : list DisabledWorkflow) (w : World) (e : JsError) :
  fs_outcome E (fs_calls w) = Some e ->
  let entry := failure_entry ActDisable r (workflowName a) e
                             (time_iso E (2 + clock w)) in
  (fs_outcome E (S (fs_calls w)) = None ->
   exists w',
     disable_one E config r false a acc w = (Ok acc, w')
     /\ backup_files w' = backup_files w
     /\ log_entries w' = log_entries w ++ [entry]
     /\ audit_file w' = Some (log_entries w')
     /\ success entry = false /\ error entry = Some (err_message e))
  /\ (forall e', fs_outcome E (S (fs_calls w)) = Some e' ->
        fst (disable_one E config r false a acc w) = Throw e'
        /\ fst (disable_each E config r false [a] acc w) = Throw e').
Proof.
  intros Hfail entry. destruct w as [c f d ms bs l au].
  cbv [fs_calls] in Hfail. split.
  - intros Hsave. cbv [fs_calls] in Hsave.
    cbv [disable_one disableWorkflow write_backup addEntry disable_failed bind
         now push_entry save fs_call ret negb clock fs_calls directories
         manifest_files backup_files log_entries audit_file].
    rewrite Hfail. cbv iota beta. rewrite Hsave.
    eexists. repeat split.
  - intros e' Hsave. cbv [fs_calls] in Hsave.
    cbv [disable_each disable_one disableWorkflow write_backup addEntry
         disable_failed bind now push_entry save fs_call ret negb clock
         fs_calls directories manifest_files backup_files log_entries
         audit_file fst].
    rewrite Hfail. cbv iota beta. rewrite Hsave. split; reflexivity.
Qed.

End Preview.

(** ** The commands *)

(** The two transitions take every world to a related one as soon as the
    operations they are made of do. *)
Section Transitions.

Variable E : DisablerEnv.
Variable config : Config.
Variable R : World -> World -> Prop.
Hypothesis R_refl : forall w, R w w.
Hypothesis R_trans : forall w1 w2 w3, R w1 w2 -> R w2 w3 -> R w1 w3.
Hypothesis now_R : steps R (now E).
Hypothesis ensureDir_R : forall dir, steps R (ensureDir E dir).
Hypothesis write_backup_R : forall file a, steps R (write_backup E file a).
Hypothesis write_manifest_R : forall file m, steps R (write_manifest E file m).
Hypothesis addEntry_R : forall entry, steps R (addEntry E entry).
Hypothesis manifest_exists_R : forall file, steps R (manifest_exists file).
Hypothesis read_manifest_R : forall file, steps R (read_manifest E file).

Local Ltac step_bind := apply (steps_bind R R_trans).
Local Ltac step_ret := apply (steps_ret R R_refl).

Lemma disable_one_steps (r : string) (dry : bool) (a : WorkflowAnalysis)
    (acc : list DisabledWorkflow) :
  steps R (disable_one E config r dry a acc).
Proof.
  assert (Hdw : steps R (disableWorkflow E config r a dry)).
  { unfold disableWorkflow.
    step_bind; [apply now_R|]. intros stamp.
    step_bind; [apply now_R|]. intros disabled_at.
    destruct dry; simpl; [step_ret|].
    step_bind; [apply write_backup_R|]. intros _.
    step_bind; [apply addEntry_R|]. intros _. step_ret. }
  assert (Hfail : forall e acc', steps R (disable_failed E r a e acc')).
  { intros e acc'. unfold disable_failed.
    step_bind; [apply addEntry_R | intros _; step_ret]. }
  intros w. unfold disable_one. specialize (Hdw w).
  destruct (disableWorkflow E config r a dry w) as [[d|e] w1]; simpl in Hdw.
  - destruct dry; [exact Hdw|].
    pose proof (addEntry_R (disable_entry r a d) w1) as H1.
    destruct (addEntry E (disable_entry r a d) w1) as [[u|e] w2]; simpl in *.
    + exact (R_trans _ _ _ Hdw H1).
    + exact (R_trans _ _ _ (R_trans _ _ _ Hdw H1) (Hfail e _ w2)).
  - exact (R_trans _ _ _ Hdw (Hfail e acc w1)).
Qed.

Lemma disableWorkflows_steps (report : AnalysisReport) (dry : bool) :
  steps R (disableWorkflows E config report dry).
Proof.
  assert (Heach : forall r failing acc,
             steps R (disable_each E config r dry failing acc)).
  { intros r failing. induction failing as [|a failing IH]; intros acc; simpl.
    - step_ret.
    - step_bind; [apply disable_one_steps | intros acc'; apply IH]. }
  assert (Hrepos : forall repos acc,
             steps R (disable_repositories E config dry repos acc)).
  { intros repos. induction repos as [|r repos IH]; intros acc; simpl.
    - step_ret.
    - destruct (Nat.eqb _ 0); [apply IH|].
      step_bind; [apply Heach | intros acc'; apply IH]. }
  unfold disableWorkflows.
  step_bind; [apply ensureDir_R|]. intros _.
  step_bind; [apply Hrepos|]. intros ds.
  step_bind; [apply now_R|]. intros ts.
  step_bind; [|intros _; step_ret].
  destruct dry; simpl; [step_ret | apply write_manifest_R].
Qed.

Lemma restoreWorkflows_steps (manifestPath : string) (options : RestoreOptions) :
  steps R (restoreWorkflows E manifestPath options).
Proof.
  assert (Heach : forall dry ws, steps R (restore_each E dry ws)).
  { intros dry ws. induction ws as [|o ws IH]; simpl.
    - step_ret.
    - step_bind; [|intros _; exact IH].
      unfold restore_one. apply (steps_try_catch R R_trans).
      + step_bind; [step_ret|]. intros _.
        destruct dry; simpl; [step_ret | apply addEntry_R].
      + intros e. apply addEntry_R. }
  unfold restoreWorkflows.
  step_bind; [apply manifest_exists_R|]. intros found.
  destruct found; simpl; [|apply (steps_throw R R_refl)].
  step_bind; [apply read_manifest_R|]. intros manifest.
  destruct (Nat.eqb _ 0); [step_ret|].
  step_bind; [apply Heach|]. intros _.
  destruct (negb _ && _); [apply write_manifest_R | step_ret].
Qed.

End Transitions.

Section Commands.

Variable E : DisablerEnv.
Variable I : Invocation.

Section OnDisk.

Variable old : list AuditLogEntry.

Lemma same_log_kept {A} (m : M A) :
  (forall w, log_entries (snd (m w)) = log_entries w
             /\ audit_file (snd (m w)) = audit_file w) ->
  steps (kept_step old) m.
Proof.
  intros H w [l [Ha [H1 H2]]]. destruct (H w) as [Hl Hau].
  exists l. rewrite Hau, Hl. repeat split; assumption.
Qed.

Lemma durable_log_kept {A} (m : M A) : keeps durable m -> steps (kept_step old) m.
Proof.
  intros H. apply same_log_kept. intros w. specialize (H w).
  unfold durable in H. injection H as _ _ Hl Ha. split; assumption.
Qed.

Lemma write_backup_log_kept (file : string) (a : WorkflowAnalysis) :
  steps (kept_step old) (write_backup E file a).
Proof.
  apply same_log_kept. intros [c f d ms bs l au].
  cbv [write_backup bind fs_call clock fs_calls directories manifest_files
       backup_files log_entries audit_file].
  destruct (fs_outcome E f); split; reflexivity.
Qed.

Lemma write_manifest_log_kept (file : string) (m : DisabledWorkflowsManifest) :
  steps (kept_step old) (write_manifest E file m).
Proof.
  apply same_log_kept. intros [c f d ms bs l au].
  cbv [write_manifest bind fs_call clock fs_calls directories manifest_files
       backup_files log_entries audit_file].
  destruct (fs_outcome E f); split; reflexivity.
Qed.

Lemma addEntry_log_kept (entry : string -> AuditLogEntry) :
  steps (kept_step old) (addEntry E entry).
Proof.
  intros [c f d ms bs l au] [l0 [Ha [H1 H2]]]. simpl in Ha, H2.
  cbv [addEntry bind now push_entry save fs_call clock fs_calls directories
       manifest_files backup_files log_entries audit_file].
  destruct (fs_outcome E f); simpl.
  - exists l0. split; [exact Ha|]. split; [exact H1|].
    apply (extends_trans _ _ _ H2). eexists. reflexivity.
  - eexists. split; [reflexivity|]. split; [|apply extends_refl].
    apply (extends_trans _ _ _ H1), (extends_trans _ _ _ H2).
    eexists. reflexivity.
Qed.

Lemma kept_step_refl (w : World) : kept_step old w w.
Proof. intros H. exact H. Qed.

Lemma kept_step_trans (w1 w2 w3 : World) :
  kept_step old w1 w2 -> kept_step old w2 w3 -> kept_step old w1 w3.
Proof. intros H1 H2 H. exact (H2 (H1 H)). Qed.

Lemma disableWorkflows_log_kept (config : Config) (report : AnalysisReport)
    (dry : bool) :
  steps (kept_step old) (disableWorkflows E config report dry).
Proof.
  apply (disableWorkflows_steps E config (kept_step old) kept_step_refl
           kept_step_trans).
  - apply durable_log_kept, now_durable.
  - intros dir. apply durable_log_kept, ensureDir_durable.
  - apply write_backup_log_kept.
  - apply write_manifest_log_kept.
  - apply addEntry_log_kept.
Qed.

Lemma restoreWorkflows_log_kept (manifestPath : string)
    (options : RestoreOptions) :
  steps (kept_step old) (restoreWorkflows E manifestPath options).
Proof.
  apply (restoreWorkflows_steps E (kept_step old) kept_step_refl kept_step_trans).
  - apply write_manifest_log_kept.
  - apply addEntry_log_kept.
  - intros file. apply durable_log_kept, manifest_exists_durable.
  - intros file. apply durable_log_kept, read_manifest_durable.
Qed.

(** After its setup a command either has thrown, leaving the log on disk as
    it was, or holds that log in memory. *)
Lemma command_setup_log (file : string) (w : World) :
  audit_file w = Some old ->
  match command_setup E I file w with
  | (Ok _, w') => log_kept old w'
  | (Throw _, w') => audit_file w' = Some old
  end.
Proof.
  intros Ha. unfold command_setup.
  destruct (loadConfig I file) as [config|e]; [|exact Ha].
  destruct (validateConfig config); [|exact Ha].
  destruct w as [c f d ms bs l au]. simpl in Ha. subst au.
  cbv [bind new_AuditLogger load fs_call ret clock fs_calls directories
       manifest_files backup_files log_entries audit_file].
  destruct (fs_outcome E f); [reflexivity|].
  exists old. split; [reflexivity|]. split; apply extends_refl.
Qed.

Lemma log_kept_on_disk (w : World) :
  log_kept old w -> exists more, audit_file w = Some (old ++ more).
Proof. intros [l [Ha [[more ->] _]]]. exists more. exact Ha. Qed.

(** X23. The audit log on disk survives the commands: whatever the [disable]
    or the [restore] command does, with or without [--confirm], whether it
    ends normally or with an error and whatever the file system does, the
    log document afterwards is the log document before with entries added at
    its end. *)
Theorem audit_log_on_disk_only_grows (d_options : DisableCommandOptions)
    (r_options : RestoreCommandOptions) (w : World) :
  audit_file w = Some old ->
  (exists more,
      audit_file (snd (disable_command E I d_options w)) = Some (old ++ more))
  /\ (exists more,
         audit_file (snd (restore_command E I r_options w))
         = Some (old ++ more)).
Proof.
  intros Ha. split.
  - unfold disable_command, bind.
    pose proof (command_setup_log (d_config d_options) w Ha) as Hs.
    destruct (command_setup E I (d_config d_options) w) as [[config|e] w1];
      [|exists []; rewrite app_nil_r; exact Hs].
    apply log_kept_on_disk. revert Hs.
    destruct (report_file I) as [report|]; [|exact (fun H => H)].
    pose proof (durable_log_kept _ (fs_call_durable E) w1) as Hfs.
    destruct (fs_call E w1) as [[u|e] w2]; simpl in Hfs; [|exact Hfs].
    intros Hs. specialize (Hfs Hs).
    destruct (Nat.eqb _ 0); [exact Hfs|].
    pose proof (disableWorkflows_log_kept config report
                  (negb (d_confirm d_options)) w2 Hfs) as Hd.
    destruct (disableWorkflows E config report _ w2) as [[m|e] w3];
      exact Hd.
  - unfold restore_command, bind.
    pose proof (command_setup_log (r_config r_options) w Ha) as Hs.
    destruct (command_setup E I (r_config r_options) w) as [[config|e] w1];
      [|exists []; rewrite app_nil_r; exact Hs].
    apply log_kept_on_disk.
    exact (restoreWorkflows_log_kept manifest_path _ w1 Hs).
Qed.

End OnDisk.

Lemma keeps_durable_files {A} (m : M A) : keeps durable m -> keeps files m.
Proof.
  intros H w. specialize (H w). unfold durable in H. unfold files. congruence.
Qed.

Lemma command_setup_files (file : string) : keeps files (command_setup E I file).
Proof.
  intros w. unfold command_setup.
  destruct (loadConfig I file) as [config|e]; [|reflexivity].
  destruct (validateConfig config); [|reflexivity].
  destruct w as [c f d ms bs l au].
  cbv [bind new_AuditLogger load fs_call ret clock fs_calls directories
       manifest_files backup_files log_entries audit_file files snd].
  destruct au as [entries|]; [|reflexivity].
  destruct (fs_outcome E f); reflexivity.
Qed.

Lemma disableWorkflows_dry_durable (config : Config) (report : AnalysisReport) :
  keeps durable (disableWorkflows E config report true).
Proof.
  unfold disableWorkflows.
  apply keeps_bind; [apply ensureDir_durable|]. intros _.
  apply keeps_bind; [apply disable_repositories_dry_durable|]. intros ds.
  apply keeps_bind; [apply now_durable|]. intros ts. simpl.
  apply keeps_bind; [apply keeps_ret | intros _; apply keeps_ret].
Qed.

(** X24. Only [--confirm] makes a command act.  The [--dry-run] option is
    never read; a [disable] or [restore] command without [--confirm] leaves
    every manifest, every backup and the audit log on disk as they were; and
    a [disable] command whose report counts no failing workflow does the
    same even with [--confirm]. *)
Theorem only_confirm_acts (file : string) (b b' confirm : bool)
    (r f : option string) (a : option bool) (w : World) :
  disable_command E I
    {| d_config := file; d_dryRun := b; d_confirm := confirm |} w
  = disable_command E I
      {| d_config := file; d_dryRun := b'; d_confirm := confirm |} w
  /\ restore_command E I
       {| r_config := file; r_repo := r; r_workflow := f; r_all := a;
          r_dryRun := b; r_confirm := confirm |} w
     = restore_command E I
         {| r_config := file; r_repo := r; r_workflow := f; r_all := a;
            r_dryRun := b'; r_confirm := confirm |} w
  /\ files (snd (disable_command E I
                   {| d_config := file; d_dryRun := b; d_confirm := false |} w))
     = files w
  /\ files (snd (restore_command E I
                   {| r_config := file; r_repo := r; r_workflow := f;
                      r_all := a; r_dryRun := b; r_confirm := false |} w))
     = files w
  /\ (forall report,
         report_file I = Some report ->
         ar_failingWorkflows report = 0%nat ->
         files (snd (disable_command E I
                       {| d_config := file; d_dryRun := b;
                          d_confirm := confirm |} w))
         = files w).
Proof.
  split; [reflexivity|]. split; [reflexivity|]. split; [|split].
  - revert w. change (keeps files
                        (disable_command E I
                           {| d_config := file; d_dryRun := b;
                              d_confirm := false |})).
    unfold disable_command.
    apply keeps_bind; [apply command_setup_files|]. intros config. simpl.
    destruct (report_file I) as [report|]; [|apply keeps_throw].
    apply keeps_bind; [apply keeps_durable_files, fs_call_durable|]. intros _.
    destruct (Nat.eqb _ 0); [apply keeps_ret|].
    apply keeps_bind;
      [apply keeps_durable_files, disableWorkflows_dry_durable|].
    intros _. apply keeps_ret.
  - revert w. change (keeps files
                        (restore_command E I
                           {| r_config := file; r_repo := r; r_workflow := f;
                              r_all := a; r_dryRun := b; r_confirm := false |})).
    unfold restore_command.
    apply keeps_bind; [apply command_setup_files|]. intros config. simpl.
    apply keeps_durable_files, restoreWorkflows_dry_durable. discriminate.
  - intros report Hreport Hzero. revert w.
    change (keeps files
              (disable_command E I
                 {| d_config := file; d_dryRun := b; d_confirm := confirm |})).
    unfold disable_command.
    apply keeps_bind; [apply command_setup_files|]. intros config.
    rewrite Hreport.
    apply keeps_bind; [apply keeps_durable_files, fs_call_durable|]. intros _.
    rewrite Hzero. apply keeps_ret.
Qed.

(** X25. A configuration that cannot be loaded or that [validateConfig]
    rejects ends either command with exit code 1 before anything is touched:
    the world, the logger included, is exactly as before.  A [disable]
    command that finds no analysis report ends with exit code 1 too. *)
Theorem fatal_errors_come_first (d_options : DisableCommandOptions)
    (r_options : RestoreCommandOptions) (w : World) :
  (forall config e,
      loadConfig I (d_config d_options) = Throw e
      \/ (loadConfig I (d_config d_options) = Ok config
          /\ validateConfig config = Throw e) ->
      disable_command E I d_options w = (Throw e, w))
  /\ (forall config e,
         loadConfig I (r_config r_options) = Throw e
         \/ (loadConfig I (r_config r_options) = Ok config
             /\ validateConfig config = Throw e) ->
         restore_command E I r_options w = (Throw e, w))
  /\ (report_file I = None ->
      exit_code (fst (disable_command E I d_options w)) = 1%nat).
Proof.
  split; [|split].
  - intros config e [H|[H1 H2]]; unfold disable_command, bind, command_setup.
    + rewrite H. reflexivity.
    + rewrite H1, H2. reflexivity.
  - intros config e [H|[H1 H2]]; unfold restore_command, bind, command_setup.
    + rewrite H. reflexivity.
    + rewrite H1, H2. reflexivity.
  - intros Hnone. unfold disable_command, bind. rewrite Hnone.
    destruct (command_setup E I (d_config d_options) w) as [[config|e] w1];
      reflexivity.
Qed.

End Commands.

(** ** The further properties on the sample data *)

Lemma restore_effect_witness :
  let after := restoreWorkflows sample_disabler_env manifest_path
                 restore_index_ci disabled_world in
  fst after = Ok tt
  /\ option_map origins (manifest_at manifest_path (snd after))
     = Some [("api", deploy_analysis)]
  /\ map action (log_entries (snd after))
     = [ActBackup; ActDisable; ActBackup; ActDisable; ActRestore]
  /\ backup_files (snd after) = backup_files disabled_world.
Proof.
  intros after.
  destruct (restore_effect sample_disabler_env sample_reliable manifest_path
              restore_index_ci disabled_manifest disabled_world)
    as [Hres [Hrecords [_ [Hlog [_ Hbackups]]]]].
  - vm_compute. reflexivity.
  - reflexivity.
  - fold after in Hres, Hrecords, Hlog, Hbackups.
    split; [exact Hres|].
    split; [vm_compute; reflexivity|].
    split; [rewrite Hlog; vm_compute; reflexivity | exact Hbackups].
Defined.

Lemma restore_by_repository_witness :
  exists m',
    manifest_at manifest_path
      (snd (restoreWorkflows sample_disabler_env manifest_path restore_api_only
              disabled_world)) = Some m'
    /\ map dw_repository (disabledWorkflows m') = ["index"].
Proof.
  destruct (restore_by_repository sample_disabler_env sample_reliable
              manifest_path "api" None disabled_manifest disabled_world)
    as [m' [Hat [Hrecords _]]].
  - vm_compute. reflexivity.
  - discriminate.
  - exists m'. split; [exact Hat|]. rewrite Hrecords. vm_compute. reflexivity.
Defined.

Lemma restore_by_workflow_witness :
  exists m',
    manifest_at manifest_path
      (snd (restoreWorkflows sample_disabler_env manifest_path restore_ci_files
              disabled_world)) = Some m'
    /\ map dw_repository (disabledWorkflows m') = ["api"].
Proof.
  destruct (restore_by_workflow sample_disabler_env manifest_path "ci.yml"
              None None None disabled_manifest disabled_world)
    as [Hfilter _].
  destruct Hfilter as [m' [Hat [Hrecords _]]].
  - exact sample_reliable.
  - vm_compute. reflexivity.
  - discriminate.
  - exists m'. split; [exact Hat|]. rewrite Hrecords. vm_compute. reflexivity.
Defined.

Lemma restore_twice_witness :
  let once := snd (restoreWorkflows sample_disabler_env manifest_path
                     restore_index_ci disabled_world) in
  let twice := restoreWorkflows sample_disabler_env manifest_path
                 restore_index_ci once in
  fst twice = Ok tt /\ durable (snd twice) = durable once.
Proof.
  apply (restore_twice sample_disabler_env sample_reliable manifest_path
           restore_index_ci disabled_manifest disabled_world).
  - vm_compute. reflexivity.
  - reflexivity.
Defined.

Lemma restore_without_candidates_witness :
  exit_code (fst (restoreWorkflows sample_disabler_env manifest_path
                    restore_index_ci empty_world)) = 1%nat
  /\ fst (restoreWorkflows sample_disabler_env manifest_path restore_nothing
            disabled_world) = Ok tt
  /\ durable (snd (restoreWorkflows sample_disabler_env manifest_path
                     restore_nothing disabled_world))
     = durable disabled_world.
Proof.
  destruct (restore_without_candidates sample_disabler_env manifest_path
              restore_index_ci empty_world) as [Hmissing _].
  destruct (restore_without_candidates sample_disabler_env manifest_path
              restore_nothing disabled_world) as [_ Hnone].
  split.
  - rewrite Hmissing; [reflexivity | vm_compute; reflexivity].
  - apply (Hnone disabled_manifest).
    + vm_compute. reflexivity.
    + reflexivity.
    + vm_compute. repeat constructor.
Defined.

Lemma dry_run_previews_witness :
  exists m w',
    disableWorkflows sample_disabler_env default_config sample_report true
      earlier_world = (Ok m, w')
    /\ origins m = [("index", ci_analysis); ("api", deploy_analysis)].
Proof.
  destruct (dry_run_previews sample_disabler_env default_config sample_report
              earlier_world) as [m [w' [Hrun [_ [Horigins _]]]]].
  - reflexivity.
  - exists m, w'. split; [exact Hrun|]. rewrite Horigins.
    vm_compute. reflexivity.
Defined.

Lemma backup_failure_is_logged_witness :
  exists w',
    disable_one second_call_fails default_config "index" false ci_analysis []
      after_one_call = (Ok [], w')
    /\ backup_files w' = []
    /\ map (fun e => (action e, success e, error e)) (log_entries w')
       = [(ActDisable, false, Some "EACCES: permission denied")].
Proof.
  destruct (backup_failure_is_logged second_call_fails default_config "index"
              ci_analysis [] after_one_call permission_denied)
    as [Hlogged _].
  - reflexivity.
  - destruct Hlogged as [w' [Hrun [Hb [Hl _]]]]; [reflexivity|].
    exists w'. split; [exact Hrun|]. split; [exact Hb|].
    rewrite Hl. reflexivity.
Defined.

Lemma audit_log_on_disk_only_grows_witness :
  audit_file disabled_world = Some (log_entries disabled_world)
  /\ exists more,
       audit_file (snd (restore_command sample_disabler_env sample_invocation
                          confirm_restore_api disabled_world))
       = Some (log_entries disabled_world ++ more).
Proof.
  assert (Ha : audit_file disabled_world = Some (log_entries disabled_world))
    by (vm_compute; reflexivity).
  split; [exact Ha|].
  destruct (audit_log_on_disk_only_grows sample_disabler_env sample_invocation
              (log_entries disabled_world) confirm_disable confirm_restore_api
              disabled_world Ha) as [_ Hrestore].
  exact Hrestore.
Defined.

Lemma only_confirm_acts_witness :
  files (snd (disable_command sample_disabler_env healthy_invocation
                confirm_disable earlier_world))
  = files earlier_world.
Proof.
  destruct (only_confirm_acts sample_disabler_env healthy_invocation
              "config.json" true true true None None None earlier_world)
    as [_ [_ [_ [_ Hzero]]]].
  apply (Hzero empty_report); reflexivity.
Defined.

Lemma fatal_errors_come_first_witness :
  restore_command sample_disabler_env tokenless_invocation confirm_restore_api
    disabled_world
  = (Throw (Error "GitHub token is required. Set GITHUB_TOKEN environment variable or add it to config.json"),
     disabled_world).
Proof.
  destruct (fatal_errors_come_first sample_disabler_env tokenless_invocation
              confirm_disable confirm_restore_api disabled_world)
    as [_ [Hrestore _]].
  eapply Hrestore. right. split; reflexivity.
Defined.

(** ** The issue detector *)

Lemma cron_check_one_entry (cron : string) :
  cron_check_one (cron_entry cron)
  = Ok (if high_frequency cron then [cron_issue cron] else []).
Proof.
  unfold cron_check_one, cron_entry, high_frequency.
  cbn [get lookup_field yaml_truthy call_split].
  change (String.eqb "cron" "cron") with true. cbv iota.
  destruct cron as [|c cron]; [reflexivity|].
  cbn [yaml_truthy call_split].
  change (String.eqb (String c cron) "") with false. cbn [negb].
  destruct (String.eqb (hd "" (split_on " " (String c cron))) "*"
            || str_includes (hd "" (split_on " " (String c cron))) ",");
    reflexivity.
Qed.

Lemma cron_check_each_entries (crons : list string) :
  cron_check_each (map cron_entry crons)
  = (map cron_issue (filter high_frequency crons), None).
Proof.
  induction crons as [|c crons IH]; [reflexivity|].
  cbn [map cron_check_each]. rewrite cron_check_one_entry, IH.
  cbn [filter]. destruct (high_frequency c); reflexivity.
Qed.

(** X26. For a definition whose schedule is a list of entries with a cron
    text each, in a repository without special checks, the detector reports
    exactly one advisory for each cron text whose first blank-separated field
    is [*] or holds a comma, in the order of the schedule, and nothing else:
    an expression such as "*/5 * * * *" draws no advisory. *)
Theorem cron_advisories (I : IssueEnv) (config : Config)
    (repo workflowPath content : string) (workflowConfig on : Yaml)
    (crons : list string) :
  getWorkflowContent I config repo workflowPath = Some content ->
  content <> "" ->
  yaml_load I content = Ok workflowConfig ->
  get workflowConfig "on" = Ok on ->
  get_opt on "schedule" = Ok (YArray (map cron_entry crons)) ->
  repo <> "index" ->
  repo <> "Real_Estate_Intelligence" ->
  detect_issues I config repo workflowPath
  = map cron_issue (filter high_frequency crons)
  /\ high_frequency "*/5 * * * *" = false
  /\ high_frequency "* * * * *" = true.
Proof.
  intros Hcontent Hne Hload Hon Hschedule Hindex Hrei.
  split; [|split; reflexivity].
  unfold detect_issues. rewrite Hcontent.
  apply String.eqb_neq in Hne. rewrite Hne, Hload.
  unfold cron_check. rewrite Hon, Hschedule. cbn [yaml_truthy].
  rewrite cron_check_each_entries.
  unfold duplicate_install_check, deployment_check.
  apply String.eqb_neq in Hindex. apply String.eqb_neq in Hrei.
  rewrite Hindex, Hrei. simpl. apply app_nil_r.
Qed.

Lemma cron_advisories_witness :
  detect_issues sample_issue_env default_config "api"
    ".github/workflows/nightly.yml"
  = [cron_issue "* * * * *"; cron_issue "0,30 * * * *"].
Proof.
  destruct (cron_advisories sample_issue_env default_config "api"
              ".github/workflows/nightly.yml" "name: Nightly"
              scheduled_definition
              (YObject
                 [("schedule",
                   YArray [cron_entry "*/5 * * * *"; cron_entry "* * * * *";
                           cron_entry "0,30 * * * *"; cron_entry "0 0 * * *"])])
              ["*/5 * * * *"; "* * * * *"; "0,30 * * * *"; "0 0 * * *"])
    as [H _].
  - reflexivity.
  - discriminate.
  - reflexivity.
  - reflexivity.
  - reflexivity.
  - discriminate.
  - discriminate.
  - rewrite H. reflexivity.
Defined.

Lemma cron_check_one_sound (schedule : Yaml) (pushed : list string) :
  cron_check_one schedule = Ok pushed ->
  Forall (fun issue => exists c, high_frequency c = true /\ issue = cron_issue c)
         pushed.
Proof.
  unfold cron_check_one.
  destruct (get schedule "cron") as [cron|e]; [|discriminate].
  destruct (yaml_truthy cron); [|intros H; injection H as <-; constructor].
  destruct cron as [| |b|z|c|items|fields]; try discriminate. simpl.
  destruct (String.eqb (hd "" (split_on " " c)) "*"
            || str_includes (hd "" (split_on " " c)) ",") eqn:Hf;
    intros H; injection H as <-; constructor; [|constructor].
  exists c. split; [exact Hf | reflexivity].
Qed.

Lemma cron_check_each_sound (schedules : list Yaml) :
  Forall (fun issue => exists c, high_frequency c = true /\ issue = cron_issue c)
         (fst (cron_check_each schedules)).
Proof.
  induction schedules as [|s schedules IH]; simpl; [constructor|].
  destruct (cron_check_one s) as [pushed|e] eqn:Hs; [|constructor].
  destruct (cron_check_each schedules) as [more thrown]. simpl in *.
  apply Forall_app. split; [exact (cron_check_one_sound s pushed Hs) | exact IH].
Qed.

Lemma cron_check_sound (workflowConfig : Yaml) :
  Forall (fun issue => exists c, high_frequency c = true /\ issue = cron_issue c)
         (fst (cron_check workflowConfig)).
Proof.
  unfold cron_check.
  destruct (get workflowConfig "on") as [on|e]; [|constructor].
  destruct (get_opt on "schedule") as [schedule|e]; [|constructor].
  destruct (yaml_truthy schedule); [|constructor].
  apply cron_check_each_sound.
Qed.

(** X27. Whatever the definition holds, the detector reports three kinds of
    issues only: the duplicate-install issue, and only for a workflow of
    repository [index] whose path holds [ci.yml]; the deployment issue, and
    only for a workflow of repository [Real_Estate_Intelligence] whose file
    name holds [deploy]; and cron advisories, each for a high-frequency cron
    text.  In every other repository all issues are cron advisories. *)
Theorem issues_are_of_three_kinds (I : IssueEnv) (config : Config)
    (repo workflowPath : string) :
  Forall (fun issue =>
            (issue = duplicate_install_issue
             /\ repo = "index" /\ str_includes workflowPath "ci.yml" = true)
            \/ (issue = deployment_issue
                /\ repo = "Real_Estate_Intelligence"
                /\ str_includes (file_name_of workflowPath) "deploy" = true)
            \/ exists c, high_frequency c = true /\ issue = cron_issue c)
         (detect_issues I config repo workflowPath).
Proof.
  unfold detect_issues.
  destruct (getWorkflowContent I config repo workflowPath) as [content|];
    [|constructor].
  destruct (String.eqb content ""); [constructor|].
  destruct (yaml_load I content) as [workflowConfig|e]; [|constructor].
  assert (Hdup : Forall (fun issue =>
            (issue = duplicate_install_issue
             /\ repo = "index" /\ str_includes workflowPath "ci.yml" = true)
            \/ (issue = deployment_issue
                /\ repo = "Real_Estate_Intelligence"
                /\ str_includes (file_name_of workflowPath) "deploy" = true)
            \/ exists c, high_frequency c = true /\ issue = cron_issue c)
          (duplicate_install_check repo workflowPath content)).
  { unfold duplicate_install_check.
    destruct (String.eqb repo "index") eqn:Hr; [|constructor].
    destruct (str_includes workflowPath "ci.yml") eqn:Hp; [|constructor].
    simpl. destruct (_ && _); constructor; [|constructor].
    left. apply String.eqb_eq in Hr. repeat split; assumption. }
  assert (Hdeploy : Forall (fun issue =>
            (issue = duplicate_install_issue
             /\ repo = "index" /\ str_includes workflowPath "ci.yml" = true)
            \/ (issue = deployment_issue
                /\ repo = "Real_Estate_Intelligence"
                /\ str_includes (file_name_of workflowPath) "deploy" = true)
            \/ exists c, high_frequency c = true /\ issue = cron_issue c)
          (deployment_check repo workflowPath workflowConfig)).
  { unfold deployment_check.
    destruct (String.eqb repo "Real_Estate_Intelligence") eqn:Hr;
      [|constructor].
    destruct (str_includes (file_name_of workflowPath) "deploy") eqn:Hp;
      [|constructor].
    destruct (pushes_to_main workflowConfig) as [[|]|e]; constructor;
      [|constructor].
    right. left. apply String.eqb_eq in Hr. repeat split; assumption. }
  pose proof (cron_check_sound workflowConfig) as Hcron.
  destruct (cron_check workflowConfig) as [crons [e|]]; simpl in Hcron.
  - apply Forall_app. split; [exact Hdup|].
    eapply Forall_impl; [|exact Hcron]. intros issue H. right. right. exact H.
  - apply Forall_app. split; [exact Hdup|]. apply Forall_app. split.
    + eapply Forall_impl; [|exact Hcron]. intros issue H. right. right. exact H.
    + exact Hdeploy.
Qed.

(** X28. A definition that cannot be examined draws no issue and no error:
    when the contents request fails, returns no content or returns empty
    content, and when the content cannot be parsed, the detector returns the
    empty list. *)
Theorem unreadable_definition_has_no_issue (I : IssueEnv) (config : Config)
    (repo workflowPath : string) :
  (forall e, repos_getContent I (organization config) repo workflowPath = Throw e ->
             detect_issues I config repo workflowPath = [])
  /\ (repos_getContent I (organization config) repo workflowPath = Ok None ->
      detect_issues I config repo workflowPath = [])
  /\ (repos_getContent I (organization config) repo workflowPath = Ok (Some "") ->
      detect_issues I config repo workflowPath = [])
  /\ (forall content e,
         getWorkflowContent I config repo workflowPath = Some content ->
         yaml_load I content = Throw e ->
         detect_issues I config repo workflowPath = []).
Proof.
  unfold detect_issues, getWorkflowContent.
  split; [intros e ->; reflexivity|].
  split; [intros ->; reflexivity|].
  split; [intros ->; reflexivity|].
  intros content e Hcontent Hload. rewrite Hcontent.
  destruct (String.eqb content ""); [reflexivity|]. rewrite Hload. reflexivity.
Qed.

Lemma unreadable_definition_has_no_issue_witness :
  detect_issues unreadable_issue_env default_config "api"
    ".github/workflows/nightly.yml" = [].
Proof.
  destruct (unreadable_definition_has_no_issue unreadable_issue_env
              default_config "api" ".github/workflows/nightly.yml")
    as [Hthrow _].
  apply (Hthrow not_found). reflexivity.
Defined.

(** ** From the analyzer to the lifecycle manager *)

Lemma analyzeWorkflows_In (E : AnalyzerEnv) (config : Config) (repo : string)
    (ws : list WorkflowInfo) (t : nat) (a : WorkflowAnalysis) :
  In a (fst (analyzeWorkflows E config repo ws t)) ->
  exists workflow t',
    In workflow ws /\ a = analyzeWorkflow E config repo workflow t'.
Proof.
  revert t. induction ws as [|w ws IH]; intros t H; simpl in H; [destruct H|].
  specialize (IH (S t)).
  destruct (analyzeWorkflows E config repo ws (S t)) as [others t'].
  simpl in *. destruct H as [<-|H].
  - exists w, t. split; [left|]; reflexivity.
  - destruct (IH H) as [w' [t0 [Hin Heq]]].
    exists w', t0. split; [right; exact Hin | exact Heq].
Qed.

(** X29. A report of the analyzer drives the lifecycle manager safely: its
    count of failing workflows is 0 exactly when no workflow is flagged, so
    the [disable] command gives up early only when there is nothing to
    disable; and every flagged workflow stands under its own repository,
    carries at least one reason, and has a file name that is not in the
    safelist of the analyzing configuration. *)
Theorem report_drives_disable (E : AnalyzerEnv) (config : Config) (t : nat)
    (report : AnalysisReport) :
  analyze E config t = Ok report ->
  (ar_failingWorkflows report = 0%nat <-> flagged report = [])
  /\ Forall (fun ra =>
               repository (snd ra) = fst ra
               /\ disableReason (snd ra) <> []
               /\ includes_str (safelistWorkflows config)
                               (file_name_of (workflowPath (snd ra))) = false)
            (flagged report).
Proof.
  intros Hrep.
  destruct (report_repositories E config t report Hrep)
    as [repos [_ [Heq [_ [H3 _]]]]].
  split.
  - assert (Hcount : ar_failingWorkflows report = length (flagged report)).
    { unfold flagged. rewrite length_flat_map_sum, H3, Heq. f_equal.
      apply map_ext_in. intros r Hr. rewrite length_map.
      apply (kept_shape E config repos t r Hr). }
    rewrite Hcount. destruct (flagged report); split; intros H;
      try reflexivity; discriminate H.
  - apply Forall_forall. intros [r a] Hin. unfold flagged in Hin.
    apply in_flat_map in Hin. destruct Hin as [ra [Hra Hin]].
    apply in_map_iff in Hin. destruct Hin as [a' [Ha' Hin]].
    injection Ha' as Hr Ha. subst r a. rename a' into a.
    apply filter_In in Hin. destruct Hin as [Hin Hflag].
    rewrite Heq in Hra. unfold kept in Hra. apply filter_In in Hra.
    destruct Hra as [Hra _].
    destruct (analyses_from_In E config repos t ra Hra) as [repo [t' [_ ->]]].
    rewrite analyzeRepository_workflows in Hin.
    destruct (analyzeWorkflows_In E config repo _ t' a Hin)
      as [workflow [t0 [_ ->]]].
    rewrite analyzeRepository_name. simpl fst. simpl snd.
    unfold analyzeWorkflow, analyzeRuns in *.
    cbn [repository disableReason workflowPath shouldDisable] in *.
    split; [reflexivity|].
    unfold decide in *.
    destruct (includes_str (safelistWorkflows config)
                (file_name_of (path workflow))); [discriminate Hflag|].
    split; [|reflexivity].
    revert Hflag. rewrite !flag_if_fst. cbn [fst]. rewrite orb_false_r.
    unfold flag_if.
    repeat match goal with
           | |- context [if ?c then _ else _] => destruct c
           end; cbn [snd fst orb]; intros H Hnil;
      try discriminate H;
      match type of Hnil with
      | ?l ++ [_] = [] => destruct l; discriminate Hnil
      | _ => discriminate Hnil
      end.
Qed.

Lemma report_drives_disable_witness :
  (ar_failingWorkflows sample_pass_report = 0%nat
   <-> flagged sample_pass_report = [])
  /\ map fst (flagged sample_pass_report) = ["index"].
Proof.
  destruct (report_drives_disable sample_env default_config 0
              sample_pass_report) as [Hcount _].
  - vm_compute. reflexivity.
  - split; [exact Hcount | vm_compute; reflexivity].
Defined.

(** ** The audit logger *)

(** X30. A saved log is read back as it was: on a reliable file system,
    after an entry has been added, a new logger that loads the log document
    holds exactly the entries of the old logger, the new entry with its time
    stamp last; and a new logger that finds no log document starts with an
    empty log. *)
Theorem audit_log_round_trip (E : DisablerEnv)
    (entry : string -> AuditLogEntry) (w : World) :
  (reliable E ->
   fst ((addEntry E entry ;;; new_AuditLogger ;;; load E ;;; getEntries) w)
   = Ok (log_entries w ++ [entry (time_iso E (clock w))]))
  /\ (audit_file w = None ->
      fst ((new_AuditLogger ;;; load E ;;; getEntries) w) = Ok []).
Proof.
  destruct w as [c f d ms bs l au]. split.
  - intros Hok.
    cbv [addEntry new_AuditLogger load getEntries bind now push_entry save
         fs_call clock fs_calls directories manifest_files backup_files
         log_entries audit_file fst].
    rewrite !Hok. reflexivity.
  - simpl. intros ->. reflexivity.
Qed.

Lemma audit_log_round_trip_witness :
  option_map (map action)
    (returned
       (fst ((addEntry sample_disabler_env
                (restore_entry earlier_record) ;;;
              new_AuditLogger ;;; load sample_disabler_env ;;; getEntries)
               disabled_world)))
  = Some [ActBackup; ActDisable; ActBackup; ActDisable; ActRestore].
Proof.
  destruct (audit_log_round_trip sample_disabler_env
              (restore_entry earlier_record) disabled_world) as [Hsaved _].
  rewrite (Hsaved sample_reliable). vm_compute. reflexivity.
Defined.

Lemma manifest_written_last_witness :
  manifest_files
    (snd (restoreWorkflows sample_disabler_env manifest_path restore_index_ci
            empty_world))
  = manifest_files empty_world.
Proof.
  destruct (manifest_written_last sample_disabler_env default_config
              sample_report manifest_path restore_index_ci empty_world)
    as [_ Hthrows].
  eapply Hthrows. vm_compute. reflexivity.
Defined.
